(** * MicroAlloc: a segregated free-list allocator (src/mm.c)

    A shallow embedding of the allocator of [src/mm.c] and the properties of
    its specification.

    Data model.  The target is LP64: [size_t], [uintptr_t] and pointers are
    64-bit unsigned quantities, modelled as [Z] with the wrap-around written
    out ([wrap]); [int] is 32 bits.  Memory is a flat array of bytes indexed
    by address; a word access reads or writes eight bytes, little endian.
    The program break is moved by [sbrk], which refuses to go beyond a limit
    fixed by the operating system.  The memory of the process ends at the
    break: the [memset] of [calloc], whose length comes from the caller, has
    no result when it is asked to write bytes at the break or above it, as a
    loop that exceeds its bound has none.  (The [memset] of [malloc_init]
    clears the bytes [sbrk] has just returned, and the length of a
    [memmove] of [realloc] is the payload size read from the header of the
    caller's block.)  The diagnostics printed on [stderr] are not part of
    the model.  The loops that follow links stored in memory take a bound on
    their number of iterations.

    Contents.  The first part is the embedding of [mm.c], function by
    function, followed by the notions the properties are stated with: the
    heap invariant [rep], which relates a state to the list of its blocks
    and to the contents of its free lists, and the reading of adjacent free
    blocks from memory.  The second part proves what each function of the
    allocator does to a heap described by [rep].  The last part states and
    proves the claims of the specification, C1 to C10. *)

From Stdlib Require Import ZArith Lia List Bool.
Import ListNotations.
Local Open Scope Z_scope.

(** ** Machine integers *)

Definition SIZE_MAX : Z := 18446744073709551615.

(** Reduction of a [size_t] (or pointer) computation modulo [2^64]. *)
Definition wrap (z : Z) : Z := z mod 18446744073709551616.

(** Conversion of a [size_t] to [intptr_t] (the argument of [sbrk]). *)
Definition to_intptr (z : Z) : Z :=
  if wrap z <? 9223372036854775808 then wrap z
  else wrap z - 18446744073709551616.

(** Conversion of a [size_t] to [int] (the result of [find_list_index]). *)
Definition to_int (z : Z) : Z :=
  let r := z mod 4294967296 in
  if r <? 2147483648 then r else r - 4294967296.

(** The [int] constants [~0x7], [~0x2] and [~0x1], converted to [size_t]
    by the usual arithmetic conversions. *)
Definition NOT7 : Z := wrap (Z.lnot 7).
Definition NOT2 : Z := wrap (Z.lnot 2).
Definition NOT1 : Z := wrap (Z.lnot 1).

Definition NULL : Z := 0.
(** [(void * ) -1], the failure value of [sbrk]. *)
Definition SBRK_FAILED : Z := SIZE_MAX.
Definition ENOMEM : Z := 12.

(** ** Memory *)

Definition memory : Type := Z -> Z.

Definition byte_at (m : memory) (a : Z) : Z := m a mod 256.

(** Little-endian combination of the bytes at [a], [a+1], ... *)
Fixpoint load_bytes (n : nat) (m : memory) (a : Z) : Z :=
  match n with
  | O => 0
  | S n' => byte_at m a + 256 * load_bytes n' m (a + 1)
  end.

Definition load (m : memory) (a : Z) : Z := load_bytes 8 m a.

Definition store (m : memory) (a v : Z) : memory :=
  fun x =>
    if (a <=? x) && (x <? a + 8) then (v / 2 ^ (8 * (x - a))) mod 256
    else m x.

(** The bytes [memset(p, c, n)] and [memmove(dst, src, n)] of the C library
    write, when all of them are bytes of the process. *)
Definition memset_bytes (m : memory) (p c n : Z) : memory :=
  fun x => if (p <=? x) && (x <? p + n) then c mod 256 else m x.

Definition memmove_bytes (m : memory) (dst src n : Z) : memory :=
  fun x => if (dst <=? x) && (x <? dst + n) then m (src + (x - dst)) else m x.

(** ** Allocator state

    The process-global variables of [mm.c] ([prologue], [epilogue],
    [free_lists], the [static int init] of [malloc_init]), [errno], the
    memory, and the program break with the bounds the operating system
    keeps it in. *)

Record state : Type := mkState {
  mem : memory;
  brk : Z;
  brk_lo : Z;
  brk_hi : Z;
  errno : Z;
  init : Z;
  free_lists : Z;
  prologue : Z;
  epilogue : Z
}.

Definition set_mem (m : memory) (st : state) : state :=
  mkState m (brk st) (brk_lo st) (brk_hi st) (errno st) (init st)
          (free_lists st) (prologue st) (epilogue st).
Definition set_brk (b : Z) (st : state) : state :=
  mkState (mem st) b (brk_lo st) (brk_hi st) (errno st) (init st)
          (free_lists st) (prologue st) (epilogue st).
Definition set_errno (e : Z) (st : state) : state :=
  mkState (mem st) (brk st) (brk_lo st) (brk_hi st) e (init st)
          (free_lists st) (prologue st) (epilogue st).
Definition set_init (i : Z) (st : state) : state :=
  mkState (mem st) (brk st) (brk_lo st) (brk_hi st) (errno st) i
          (free_lists st) (prologue st) (epilogue st).
Definition set_free_lists (p : Z) (st : state) : state :=
  mkState (mem st) (brk st) (brk_lo st) (brk_hi st) (errno st) (init st)
          p (prologue st) (epilogue st).
Definition set_prologue (p : Z) (st : state) : state :=
  mkState (mem st) (brk st) (brk_lo st) (brk_hi st) (errno st) (init st)
          (free_lists st) p (epilogue st).
Definition set_epilogue (p : Z) (st : state) : state :=
  mkState (mem st) (brk st) (brk_lo st) (brk_hi st) (errno st) (init st)
          (free_lists st) (prologue st) p.

(** Word read and write at an address. *)
Definition rd (st : state) (a : Z) : Z := load (mem st) a.
Definition wr (a v : Z) (st : state) : state := set_mem (store (mem st) a v) st.

(** [sbrk(increment)]: moves the break by the signed increment and returns
    the previous break; fails, leaving the break where it is and setting
    [errno], when the new break would leave the range the system allows. *)
Definition sbrk (increment : Z) (st : state) : Z * state :=
  let nb := brk st + to_intptr increment in
  if (brk_lo st <=? nb) && (nb <=? brk_hi st)
  then (brk st, set_brk nb st)
  else (SBRK_FAILED, set_errno ENOMEM st).

(** [memset(p, c, n)] in a process: the [n] bytes have to lie below the
    break.  A call that reaches the break, or the end of the address space,
    writes outside the memory of the process and has no result. *)
Definition memset (p c n : Z) (st : state) : option state :=
  if (0 <=? p) && (p + n <=? brk st)
  then Some (set_mem (memset_bytes (mem st) p c n) st)
  else None.

(** ** Constants and helper macros *)

Definition WSIZE : Z := 8.                    (* sizeof(BTAG_T) *)
Definition DSIZE : Z := 2 * WSIZE.
Definition ALIGNMENT : Z := DSIZE.
Definition SIZEOF_BLOCK : Z := 24.            (* sizeof(Block) *)
Definition MINBLOCK : Z := SIZEOF_BLOCK + WSIZE.
Definition MAXSMALL : Z := 504.
Definition LISTCOUNT : Z := 75.

(** Field offsets of [struct block]. *)
Definition OFF_NEXT : Z := 8.
Definition OFF_PREV : Z := 16.

Definition ALIGN (size : Z) : Z := Z.land (wrap (size + (ALIGNMENT - 1))) NOT7.

Definition USERTOBLOCK (u : Z) : Z := wrap (u - WSIZE).
Definition BLOCKTOUSER (b : Z) : Z := wrap (b + WSIZE).

Definition SIZE (st : state) (b : Z) : Z := Z.land (rd st b) NOT7.
Definition USERSIZE (st : state) (b : Z) : Z := wrap (SIZE st b - DSIZE).
Definition BLOCKSIZE (u : Z) : Z := wrap (u + DSIZE).

Definition ISALLOC (st : state) (b : Z) : Z := Z.land (rd st b) 1.
Definition ISQUICK (st : state) (b : Z) : Z := Z.land (rd st b) 2.

Definition MARKQUICK (b : Z) (st : state) : state :=
  wr b (Z.lor (rd st b) 2) st.
Definition MARKUNQUICK (b : Z) (st : state) : state :=
  wr b (Z.land (rd st b) NOT2) st.
Definition MARKALLOC (b : Z) (st : state) : state :=
  wr b (Z.lor (Z.land (rd st b) NOT2) 1) st.
Definition MARKFREE (b : Z) (st : state) : state :=
  wr b (Z.land (rd st b) NOT1) st.

Definition SETSIZEHDR (b s : Z) (st : state) : state :=
  wr b (Z.lor (Z.land (rd st b) 7) s) st.
Definition BOUNDINIT (b : Z) (st : state) : state :=
  SETSIZEHDR b 0 (MARKALLOC b st).
Definition GETFTR (st : state) (b : Z) : Z := wrap (b + SIZE st b - WSIZE).
Definition HDRTOFTR (b : Z) (st : state) : state :=
  wr (GETFTR st b) (rd st b) st.
Definition SETSIZE (b s : Z) (st : state) : state :=
  HDRTOFTR b (SETSIZEHDR b s st).

Definition PREVFTR (b : Z) : Z := wrap (b - WSIZE).
Definition PREVRAW (st : state) (b : Z) : Z := wrap (b - SIZE st (PREVFTR b)).
Definition PREVUNCOAL (st : state) (b : Z) : Z := Z.land (rd st (PREVFTR b)) 3.
Definition NEXTRAW (st : state) (b : Z) : Z := wrap (b + SIZE st b).
Definition NEXTUNCOAL (st : state) (b : Z) : Z :=
  Z.land (rd st (NEXTRAW st b)) 3.

(** The fields [next] and [prev] of a block, and the slot [&free_lists[i]]. *)
Definition next_of (st : state) (b : Z) : Z := rd st (wrap (b + OFF_NEXT)).
Definition prev_of (st : state) (b : Z) : Z := rd st (wrap (b + OFF_PREV)).
Definition set_next (b v : Z) (st : state) : state := wr (wrap (b + OFF_NEXT)) v st.
Definition set_prev (b v : Z) (st : state) : state := wr (wrap (b + OFF_PREV)) v st.
Definition list_slot (st : state) (i : Z) : Z := wrap (free_lists st + WSIZE * i).

(** ** Internal functions *)

(** The [while (s)] loop of [find_list_index]: it counts the shifts that
    bring [s] to zero.  Sixty-four rounds exhaust any [size_t]. *)
Fixpoint shift_count (fuel : nat) (s l : Z) : Z :=
  match fuel with
  | O => l
  | S fuel' => if s =? 0 then l else shift_count fuel' (Z.shiftr s 1) (l + 1)
  end.

Definition find_list_index (s : Z) : Z :=
  if s <? 512 then to_int (wrap (Z.shiftr s 3 - 1))
  else
    let l := shift_count 64 (Z.shiftr s 10) 0 in
    if l <? 12 then 63 + l else LISTCOUNT - 1.

Definition free_list_insert (new_block : Z) (unsorted : bool) (st : state) : state :=
  let head :=
    if unsorted then list_slot st 0
    else list_slot st (find_list_index (SIZE st new_block)) in
  let st := MARKFREE new_block st in
  let st := MARKUNQUICK new_block st in
  let st := HDRTOFTR new_block st in
  if rd st head =? NULL then
    let st := wr head new_block st in
    let st := set_next new_block NULL st in
    set_prev new_block NULL st
  else
    let st := set_next new_block (rd st head) st in
    let st := set_prev (rd st head) new_block st in
    let st := wr head new_block st in
    set_prev new_block NULL st.

Definition free_list_remove (b : Z) (st : state) : state :=
  let size_head := list_slot st (find_list_index (SIZE st b)) in
  let unsorted_head := list_slot st 0 in
  let st :=
    if (b =? rd st size_head) || (b =? rd st unsorted_head) then
      let head := if b =? rd st size_head then size_head else unsorted_head in
      let st := wr head (next_of st b) st in
      if rd st head =? NULL then st else set_prev (rd st head) NULL st
    else
      set_next (prev_of st b) (next_of st b) st in
  let st :=
    if next_of st b =? NULL then st
    else set_prev (next_of st b) (prev_of st b) st in
  let st := MARKALLOC b st in
  HDRTOFTR b st.

Definition coalesce (b : Z) (st : state) : Z * state :=
  let new_size := SIZE st b in
  let local_block := b in
  let '(new_size, local_block, st) :=
    if PREVUNCOAL st b =? 0 then
      let prev := PREVRAW st b in
      let st := free_list_remove prev st in
      (wrap (new_size + SIZE st prev), prev, st)
    else (new_size, local_block, st) in
  let '(new_size, st) :=
    if NEXTUNCOAL st b =? 0 then
      let next := NEXTRAW st b in
      let st := free_list_remove next st in
      (wrap (new_size + SIZE st next), st)
    else (new_size, st) in
  let st :=
    if new_size =? SIZE st b then st
    else
      let st := if ISALLOC st b =? 0 then free_list_remove b st else st in
      SETSIZE local_block new_size st in
  (local_block, st).

Definition extend_heap (size : Z) (st : state) : Z * state :=
  let '(r, st) := sbrk size st in
  if r =? SBRK_FAILED then (NULL, set_errno ENOMEM st)
  else
    let new_block := epilogue st in
    let st := MARKALLOC new_block st in
    let st := SETSIZE new_block size st in
    let st := set_epilogue (wrap (epilogue st + size)) st in
    let st := BOUNDINIT (epilogue st) st in
    (new_block, st).

Definition split (b size : Z) (st : state) : state :=
  let new_size := wrap (SIZE st b - size) in
  if new_size >=? MINBLOCK then
    let st := SETSIZE b size st in
    let new_block := NEXTRAW st b in
    let st := SETSIZE new_block new_size st in
    free_list_insert new_block true st
  else st.

(** The loops that follow links stored in memory take a bound on the number
    of iterations; [None] means the bound was reached (or, for [calloc],
    that [memset] was sent outside the memory of the process). *)

Fixpoint find_in_list_loop (fuel : nat) (st : state) (curr size : Z) : option Z :=
  match fuel with
  | O => None
  | S fuel' =>
      if curr =? NULL then Some NULL
      else if SIZE st curr >=? size then Some curr
      else find_in_list_loop fuel' st (next_of st curr) size
  end.

Definition find_in_list (fuel : nat) (st : state) (list size : Z) : option Z :=
  if size <=? MAXSMALL then Some list
  else find_in_list_loop fuel st list size.

(** First loop of [find_block]: the sweep of the unsorted list.  The result
    is the block found, or [NULL] when the list has been emptied. *)
Fixpoint sweep_unsorted (fuel : nat) (size : Z) (st : state) : option (Z * state) :=
  match fuel with
  | O => None
  | S fuel' =>
      let found_block := rd st (list_slot st 0) in
      if found_block =? NULL then Some (NULL, st)
      else
        let '(found_block, st) := coalesce found_block st in
        let st :=
          if ISALLOC st found_block =? 0 then free_list_remove found_block st
          else st in
        if SIZE st found_block >=? size then Some (found_block, st)
        else sweep_unsorted fuel' size (free_list_insert found_block false st)
  end.

(** Second loop of [find_block]: the scan of the lists from [list_index]
    up to [LISTCOUNT - 1]; [n] is the number of indices left. *)
Fixpoint scan_lists (n : nat) (fuel : nat) (st : state) (list_index size : Z)
  : option Z :=
  match n with
  | O => Some NULL
  | S n' =>
      match find_in_list fuel st (rd st (list_slot st list_index)) size with
      | None => None
      | Some found_block =>
          if found_block =? NULL
          then scan_lists n' fuel st (list_index + 1) size
          else Some found_block
      end
  end.

Definition find_block (fuel : nat) (size : Z) (st : state) : option (Z * state) :=
  match sweep_unsorted fuel size st with
  | None => None
  | Some (found_block, st) =>
      if found_block =? NULL then
        let list_index := find_list_index size in
        match scan_lists (Z.to_nat (LISTCOUNT - list_index)) fuel st list_index size with
        | None => None
        | Some found_block => Some (found_block, st)
        end
      else Some (found_block, st)
  end.

(** ** Initialisation and the public entry points *)

(** The [memset] of [malloc_init] clears the 600 bytes that [sbrk] has just
    returned, which end at the break (lemma [malloc_init_memset]). *)
Definition malloc_init (st : state) : Z * state :=
  if init st >? 0 then (0, st)
  else
    let '(r, st) := sbrk (WSIZE * LISTCOUNT) st in
    let st := set_free_lists r st in
    if r =? SBRK_FAILED then (-1, set_errno ENOMEM st)
    else
      let st := set_mem (memset_bytes (mem st) (free_lists st) 0 (WSIZE * LISTCOUNT)) st in
      let '(old_brk, st) := sbrk 0 st in
      if old_brk =? SBRK_FAILED then (-1, set_errno ENOMEM st)
      else
        let pad_bytes := wrap (ALIGN old_brk - old_brk) in
        let req_bytes := ALIGN (wrap (pad_bytes + WSIZE + SIZEOF_BLOCK)) in
        let '(r, st) := sbrk req_bytes st in
        if r =? SBRK_FAILED then (-1, set_errno ENOMEM st)
        else
          let st := set_prologue (wrap (old_brk + pad_bytes)) st in
          let st := set_epilogue (wrap (prologue st + WSIZE)) st in
          let st := BOUNDINIT (prologue st) st in
          let st := BOUNDINIT (epilogue st) st in
          (0, set_init 1 st).

(** The end of [malloc], from [if (!ISALLOC(found_block))] on. *)
Definition malloc_finish (found_block size : Z) (st : state) : Z * state :=
  let st :=
    if ISALLOC st found_block =? 0 then free_list_remove found_block st
    else st in
  let st := split found_block size st in
  (BLOCKTOUSER found_block, st).

(** The body of [malloc] once the request has been turned into the block
    size [size]: search, heap extension, removal from the list, split. *)
Definition malloc_block (fuel : nat) (size : Z) (st : state) : option (Z * state) :=
  match find_block fuel size st with
  | None => None
  | Some (found_block, st) =>
      if found_block =? NULL then
        let last_in_heap := PREVRAW st (epilogue st) in
        if ISALLOC st last_in_heap =? 0 then
          let found_block := last_in_heap in
          let '(r, st) := extend_heap (wrap (size - SIZE st found_block)) st in
          if r =? NULL then Some (NULL, st)
          else
            let st := free_list_remove found_block st in
            let st := SETSIZE found_block size st in
            Some (malloc_finish found_block size st)
        else
          let '(found_block, st) := extend_heap size st in
          if found_block =? NULL then Some (NULL, st)
          else Some (malloc_finish found_block size st)
      else Some (malloc_finish found_block size st)
  end.

Definition malloc (fuel : nat) (size : Z) (st : state) : option (Z * state) :=
  let '(r, st) := malloc_init st in
  if r <? 0 then Some (NULL, st)
  else if size =? 0 then Some (NULL, st)
  else if size >? ALIGN (BLOCKSIZE size) then Some (NULL, set_errno ENOMEM st)
  else malloc_block fuel (ALIGN (BLOCKSIZE size)) st.

Definition free (ptr : Z) (st : state) : state :=
  if ptr =? NULL then st
  else
    let '(b, st) := coalesce (USERTOBLOCK ptr) st in
    free_list_insert b true st.

Definition calloc (fuel : nat) (nmemb size : Z) (st : state) : option (Z * state) :=
  let total_size := wrap (nmemb * size) in
  if negb (size =? 0) && (nmemb >? SIZE_MAX / size)
  then Some (NULL, set_errno ENOMEM st)
  else
    match malloc fuel total_size st with
    | None => None
    | Some (userptr, st) =>
        if userptr =? NULL then Some (NULL, st)
        else
          match memset userptr 0 total_size st with
          | None => None
          | Some st => Some (userptr, st)
          end
    end.

(** The [do ... while] loop of [realloc]. *)
Fixpoint coalesce_loop (fuel : nat) (b : Z) (st : state) : option (Z * state) :=
  match fuel with
  | O => None
  | S fuel' =>
      let old_size := SIZE st b in
      let '(b, st) := coalesce b st in
      if SIZE st b >? old_size then coalesce_loop fuel' b st
      else Some (b, st)
  end.

(** The end of the growing branch of [realloc]: copy, then release the old
    block when it lies below the new one. *)
Definition realloc_moved (new ptr original_size : Z) (st : state) : Z * state :=
  let st :=
    if new =? ptr then st
    else set_mem (memmove_bytes (mem st) new ptr original_size) st in
  let st := if ptr <? new then free ptr st else st in
  (new, st).

Definition realloc (fuel : nat) (ptr size : Z) (st : state) : option (Z * state) :=
  if ptr =? NULL then malloc fuel size st
  else
    let st := if size =? 0 then free ptr st else st in
    let size := ALIGN (BLOCKSIZE size) in
    let b := USERTOBLOCK ptr in
    let original_size := USERSIZE st b in
    match (if size >? SIZE st b then coalesce_loop fuel b st else Some (b, st)) with
    | None => None
    | Some (b, st) =>
        if SIZE st b <? size then
          if NEXTRAW st b =? epilogue st then
            let '(r, st) := extend_heap (wrap (size - SIZE st b)) st in
            if r =? NULL then Some (NULL, st)
            else
              let st := SETSIZE b size st in
              let new := BLOCKTOUSER b in
              let st :=
                if ISALLOC st b =? 0 then HDRTOFTR b (MARKALLOC b st) else st in
              Some (realloc_moved new ptr original_size st)
          else
            match malloc fuel size st with
            | None => None
            | Some (new, st) =>
                if new =? NULL then Some (NULL, set_errno ENOMEM st)
                else Some (realloc_moved new ptr original_size st)
            end
        else
          let new := BLOCKTOUSER b in
          let new_size := if original_size <? size then original_size else size in
          let st := if ISALLOC st b =? 0 then free_list_remove b st else st in
          let st :=
            if new =? ptr then st
            else set_mem (memmove_bytes (mem st) new ptr new_size) st in
          let st := split b size st in
          Some (new, st)
    end.

(** ** Notions used to state the properties *)

(** One-indexed position of the highest set bit of [t]; [0] for [0]. *)
Definition bit_length (t : Z) : Z := if t =? 0 then 0 else Z.log2 t + 1.

(** The rounding of the specification, [align]: the least multiple of the
    alignment [A = 2 * W] that is not below [n]. *)
Definition spec_align (n : Z) : Z := (n + (ALIGNMENT - 1)) / ALIGNMENT * ALIGNMENT.

(** A process that has not called the allocator yet: the globals are zero
    and so is [errno]. *)
Definition fresh_state (m : memory) (b hi : Z) : state :=
  mkState m b b hi 0 0 0 0 0.

(** A concrete fresh process: break at 4096, sixty-four kilobytes allowed. *)
Definition boot : state := fresh_state (fun _ => 0) 4096 (4096 + 65536).


(** Sequencing of calls that may run out of iterations, and the property
    that a sequence of calls ends in a state where [P] holds. *)
Definition and_then {A : Type} (r : option (Z * state)) (k : Z -> state -> option A)
  : option A :=
  match r with
  | None => None
  | Some (p, st) => k p st
  end.

Definition holds (r : option Prop) : Prop :=
  match r with
  | None => False
  | Some P => P
  end.

(** The concrete process after its first, successful, initialisation. *)
Definition booted : state := snd (malloc_init boot).

(** The pointer and the state a call returns ([boot] when it does not). *)
Definition value_of (r : option (Z * state)) : Z :=
  match r with Some (p, _) => p | None => 0 end.
Definition state_of (r : option (Z * state)) : state :=
  match r with Some (_, st) => st | None => boot end.
Definition returned (r : option (Z * state)) : bool :=
  match r with Some _ => true | None => false end.

(** ** The heap invariant

    The invariant relates a state to a description of the heap: the blocks
    between the two sentinels in address order, each with its size and its
    three flag bits, and the contents of the [LISTCOUNT] free lists. *)

Record blk : Type := mkBlk { b_addr : Z; b_size : Z; b_tag : Z }.

Definition b_hdr (b : blk) : Z := b_size b + b_tag b.
Definition b_end (b : blk) : Z := b_addr b + b_size b.

(** The blocks [bl] tile the addresses from [a] to [e]. *)
Fixpoint chain (bl : list blk) (a e : Z) : Prop :=
  match bl with
  | [] => a = e
  | b :: l =>
      b_addr b = a /\ MINBLOCK <= b_size b /\ b_size b mod 8 = 0
      /\ 0 <= b_tag b < 8 /\ chain l (a + b_size b) e
  end.

(** Header of a sentinel: size zero, allocated, not marked quick.  Nothing
    reads the size bits of the epilogue, so [base] only asks its header to
    say allocated and not quick. *)
Definition sentinel (h : Z) : Prop := h = 1 \/ h = 5.

(** Globals, layout and boundary tags. *)
Record base (bl : list blk) (st : state) : Prop := mkBase {
  base_init : 0 < init st;
  base_table : 0 <= free_lists st /\ free_lists st + WSIZE * LISTCOUNT <= prologue st;
  base_chain : chain bl (prologue st + WSIZE) (epilogue st);
  base_brk : epilogue st + WSIZE <= brk st /\ brk_lo st <= brk st
             /\ brk st <= brk_hi st /\ brk_hi st < SIZE_MAX;
  base_pro : sentinel (rd st (prologue st));
  base_epi : rd st (epilogue st) mod 4 = 1;
  base_tags : forall b, In b bl ->
      rd st (b_addr b) = b_hdr b /\ rd st (b_end b - WSIZE) = b_hdr b
}.

(** A doubly-linked segment: the blocks of [l] in order, the first one with
    back link [p], the last one with forward link [n]. *)
Fixpoint lseg (st : state) (p : Z) (l : list Z) (n : Z) : Prop :=
  match l with
  | [] => True
  | a :: l' =>
      rd st (a + OFF_PREV) = p /\ rd st (a + OFF_NEXT) = hd n l' /\ lseg st a l' n
  end.

(** The free lists in memory: [fl i] is the list at index [i]. *)
Record lmem (fl : Z -> list Z) (st : state) : Prop := mkLmem {
  lm_heads : forall i, 0 <= i < LISTCOUNT ->
      rd st (free_lists st + WSIZE * i) = hd NULL (fl i);
  lm_links : forall i, 0 <= i < LISTCOUNT -> lseg st NULL (fl i) NULL
}.

(** The free lists and the blocks: a block is on a list exactly when its
    flags say free; it is on one list, once; a list other than the unsorted
    one holds blocks of its size class.  The block at [pd], if any, is in
    transit: it is on no list and its flags are not constrained. *)
Record lpure (pd : Z) (bl : list blk) (fl : Z -> list Z) : Prop := mkLpure {
  lp_nodup : forall i, 0 <= i < LISTCOUNT -> NoDup (fl i);
  lp_uniq : forall i j a, 0 <= i < LISTCOUNT -> 0 <= j < LISTCOUNT ->
      In a (fl i) -> In a (fl j) -> i = j;
  lp_listed : forall i a, 0 <= i < LISTCOUNT -> In a (fl i) ->
      exists b, In b bl /\ b_addr b = a /\ b_tag b mod 4 = 0 /\ a <> pd
                /\ (i <> 0 -> find_list_index (b_size b) = i);
  lp_free : forall b, In b bl -> b_addr b <> pd ->
      b_tag b mod 4 <= 1
      /\ (b_tag b mod 4 = 0 -> exists i, 0 <= i < LISTCOUNT /\ In (b_addr b) (fl i))
}.

Definition rep (pd : Z) (bl : list blk) (fl : Z -> list Z) (st : state) : Prop :=
  base bl st /\ lmem fl st /\ lpure pd bl fl.

(** Replacement of the list at index [i]. *)
Definition upd (fl : Z -> list Z) (i : Z) (l : list Z) : Z -> list Z :=
  fun j => if j =? i then l else fl j.

(** Replacement of the flags of the block at [a]. *)
Definition retag (a t : Z) (bl : list blk) : list blk :=
  map (fun b => if b_addr b =? a then mkBlk (b_addr b) (b_size b) t else b) bl.

(** A word that is neither a boundary tag nor a sentinel: a slot of the
    table, or a word strictly inside a block. *)
Definition soft (bl : list blk) (st : state) (c : Z) : Prop :=
  (free_lists st <= c /\ c + 8 <= free_lists st + WSIZE * LISTCOUNT)
  \/ (exists b, In b bl /\ b_addr b + 8 <= c /\ c + 16 <= b_end b).

(** A word that is neither in the table nor a link of a listed block. *)
Definition hard (bl : list blk) (fl : Z -> list Z) (st : state) (c : Z) : Prop :=
  free_lists st + WSIZE * LISTCOUNT <= c
  /\ forall i a, 0 <= i < LISTCOUNT -> In a (fl i) -> c <= a \/ a + 24 <= c.

(** The first half of [free_list_remove]: the block leaves its list. *)
Definition unlink (b : Z) (st : state) : state :=
  let size_head := list_slot st (find_list_index (SIZE st b)) in
  let unsorted_head := list_slot st 0 in
  let st :=
    if (b =? rd st size_head) || (b =? rd st unsorted_head) then
      let head := if b =? rd st size_head then size_head else unsorted_head in
      let st := wr head (next_of st b) st in
      if rd st head =? NULL then st else set_prev (rd st head) NULL st
    else
      set_next (prev_of st b) (next_of st b) st in
  if next_of st b =? NULL then st
  else set_prev (next_of st b) (prev_of st b) st.

(** The state [unlink] leaves when the list is [l1 ++ a :: l2]. *)
Definition unlinked (slot a : Z) (l1 l2 : list Z) (st : state) : state :=
  let st1 :=
    match l1 with
    | [] => wr slot (hd NULL l2) st
    | _ => wr (last l1 NULL + OFF_NEXT) (hd NULL l2) st
    end in
  match l2 with
  | [] => st1
  | n :: _ =>
      wr (n + OFF_PREV) (last l1 NULL)
         match l1 with [] => wr (n + OFF_PREV) NULL st1 | _ => st1 end
  end.

(** [st'] differs from [st] in memory only, and only in the words at the
    addresses [cs]. *)
Definition agree_off (cs : list Z) (st st' : state) : Prop :=
  brk st' = brk st /\ brk_lo st' = brk_lo st /\ brk_hi st' = brk_hi st
  /\ errno st' = errno st /\ init st' = init st /\ free_lists st' = free_lists st
  /\ prologue st' = prologue st /\ epilogue st' = epilogue st
  /\ forall x, (forall c, In c cs -> x < c \/ c + 8 <= x) -> mem st' x = mem st x.

(** The block at [a] is on no list. *)
Definition unlisted (fl : Z -> list Z) (a : Z) : Prop :=
  forall i, 0 <= i < LISTCOUNT -> ~ In a (fl i).

(** The second half of [free_list_insert]: the block joins the list whose
    slot is [head]. *)
Definition insert_links (head new_block : Z) (st : state) : state :=
  if rd st head =? NULL then
    let st := wr head new_block st in
    let st := set_next new_block NULL st in
    set_prev new_block NULL st
  else
    let st := set_next new_block (rd st head) st in
    let st := set_prev (rd st head) new_block st in
    let st := wr head new_block st in
    set_prev new_block NULL st.

(** Removal of the block at [a] from the lists. *)
Definition fl_remove (fl : Z -> list Z) (a : Z) : Z -> list Z :=
  fun j => remove Z.eq_dec a (fl j).

(** The allocated version of a free block, the sum of the sizes of a run of
    blocks, and the removal of a run of blocks from the lists. *)
Definition mark (x : blk) : blk := mkBlk (b_addr x) (b_size x) (b_tag x + 1).

Definition sizes (q : list blk) : Z := fold_right (fun x n => b_size x + n) 0 q.

Definition fl_remove_all (fl : Z -> list Z) (q : list blk) : Z -> list Z :=
  fold_left (fun f x => fl_remove f (b_addr x)) q fl.

(** The last block of [l], if any, is allocated; so is the first. *)
Definition tail_alloc (l : list blk) : Prop :=
  forall l' x, l = l' ++ [x] -> b_tag x mod 4 = 1.
Definition head_alloc (l : list blk) : Prop :=
  forall x l', l = x :: l' -> b_tag x mod 4 = 1.

(** At most one block, free. *)
Definition free_run (q : list blk) : Prop :=
  q = [] \/ exists x, q = [x] /\ b_tag x mod 4 = 0.

(** No two blocks next to each other are both free and coalescable. *)
Fixpoint no_adj (bl : list blk) : Prop :=
  match bl with
  | [] => True
  | x :: l =>
      match l with
      | [] => True
      | y :: _ => ~ (b_tag x mod 4 = 0 /\ b_tag y mod 4 = 0)
      end /\ no_adj l
  end.

Definition last_free (l : list blk) : Prop :=
  exists l' x, l = l' ++ [x] /\ b_tag x mod 4 = 0.
Definition head_free (l : list blk) : Prop :=
  exists x l', l = x :: l' /\ b_tag x mod 4 = 0.

(** The heap is well formed, and it has no two adjacent free blocks. *)
Definition heap_ok (st : state) : Prop :=
  exists bl fl, rep 0 bl fl st.
Definition heap_coalesced (st : state) : Prop :=
  exists bl fl, rep 0 bl fl st /\ no_adj bl.

(** [p] is the payload pointer of an allocated block of the heap. *)
Definition live_pointer (st : state) (p : Z) : Prop :=
  exists bl fl b, rep 0 bl fl st /\ In b bl /\ b_tag b mod 4 = 1 /\ p = b_addr b + WSIZE.

(** The blocks on the two sides of a block: no two adjacent free blocks on
    either side, and no free block next to the block in the middle. *)
Definition sealed (l1 l2 : list blk) : Prop :=
  no_adj l1 /\ no_adj l2 /\ ~ last_free l1 /\ ~ head_free l2.

(** ** Adjacent free blocks, read from memory

    A block is free and coalescable when the two low bits of its header
    are clear: this is what [coalesce] tests of a neighbour, through
    [PREVUNCOAL] and [NEXTUNCOAL]. *)
Definition coalescable (st : state) (b : Z) : bool := Z.land (rd st b) 3 =? 0.

(** The block at [b] and the block behind it are both free and
    coalescable. *)
Definition adjacent_free (st : state) (b : Z) : bool :=
  coalescable st b && coalescable st (NEXTRAW st b).

(** The first [fuel] blocks met from [b] on the way to the epilogue. *)
Fixpoint blocks_from (fuel : nat) (st : state) (b : Z) : list Z :=
  match fuel with
  | O => []
  | S fuel' =>
      if b <? epilogue st then b :: blocks_from fuel' st (NEXTRAW st b) else []
  end.

Definition heap_blocks (fuel : nat) (st : state) : list Z :=
  blocks_from fuel st (prologue st + WSIZE).

(** No two physically adjacent blocks are both free and coalescable. *)
Definition no_adjacent_free (st : state) : Prop :=
  forall fuel b, In b (heap_blocks fuel st) -> adjacent_free st b = false.

(** A process in which the allocator has not been initialised yet. *)
Definition unborn (st : state) : Prop :=
  init st <= 0 /\ prologue st = 0 /\ epilogue st = 0
  /\ 0 <= brk st /\ brk_lo st <= brk st /\ brk_hi st < SIZE_MAX.

(** The states the public operations are meant to run in: before the first
    call, or with a well-formed heap without adjacent free blocks. *)
Definition tidy (st : state) : Prop := unborn st \/ heap_coalesced st.

(** ** Example heaps

    Two allocated blocks of 128 bytes, with payloads at 4720 and 4848, in
    the concrete process [booted]; the same heap once the first block, or
    the second, has been freed. *)
Definition two_blocks : state :=
  state_of (and_then (malloc 5 100 booted) (fun _ st1 => malloc 5 100 st1)).

Definition first_block_freed : state := free 4720 two_blocks.

Definition second_block_freed : state := free 4848 two_blocks.

(** [realloc(4720, 10)] while the block behind is free. *)
Definition shrink_first_block : option (Z * state) :=
  realloc 5 4720 10 second_block_freed.

(** [realloc(4848, 100000)], which asks for more than the system allows,
    while the block before is free. *)
Definition failed_growth : option (Z * state) :=
  realloc 5 4848 100000 first_block_freed.

(** The numbers [0], ..., [n - 1]. *)
Definition seq_Z (n : nat) : list Z := map Z.of_nat (seq 0 n).

(** [free(4848)] after that call has failed. *)
Definition freed_after_failure : state := free 4848 (state_of failed_growth).


(** A request that the free block cannot serve: the search moves the block
    from the unsorted list to the list of its size, and a new block is
    taken from the system. *)
Definition free_block_sorted : state :=
  state_of (malloc 5 200 first_block_freed).

(** * Properties *)

(** ** Machine arithmetic *)

Lemma wrap_range z : 0 <= wrap z < 18446744073709551616.
Proof. unfold wrap. apply Z.mod_pos_bound. lia. Qed.

Lemma wrap_small z : 0 <= z < 18446744073709551616 -> wrap z = z.
Proof. intros. unfold wrap. apply Z.mod_small. lia. Qed.

(** Masking with the complement of a low mask [2^k - 1]. *)
Lemma land_split x k :
  0 <= k <= 64 -> 0 <= x < 18446744073709551616 ->
  Z.land x (18446744073709551616 - 2 ^ k) = x - x mod 2 ^ k.
Proof.
  intros Hk Hx.
  assert (Hc : Z.lor (18446744073709551616 - 2 ^ k) (Z.ones k) = Z.ones 64
               /\ Z.land (18446744073709551616 - 2 ^ k) (Z.ones k) = 0).
  { replace (18446744073709551616 - 2 ^ k) with (Z.shiftl (Z.ones (64 - k)) k).
    2:{ rewrite Z.shiftl_mul_pow2, Z.ones_equiv by lia.
        replace 18446744073709551616 with (2 ^ (64 - k) * 2 ^ k).
        - unfold Z.pred. ring.
        - rewrite <- Z.pow_add_r by lia. replace (64 - k + k) with 64 by lia. reflexivity. }
    split; apply Z.bits_inj'; intros n Hn.
    - rewrite Z.lor_spec, Z.shiftl_spec by lia.
      destruct (Z.ltb_spec n k).
      + rewrite Z.testbit_neg_r by lia. rewrite !Z.ones_spec_low by lia. reflexivity.
      + rewrite (Z.ones_spec_high k) by lia. rewrite orb_false_r.
        destruct (Z.ltb_spec n 64).
        * rewrite !Z.ones_spec_low by lia. reflexivity.
        * rewrite !Z.ones_spec_high by lia. reflexivity.
    - rewrite Z.land_spec, Z.shiftl_spec, Z.bits_0 by lia.
      destruct (Z.ltb_spec n k).
      + rewrite Z.testbit_neg_r by lia. reflexivity.
      + rewrite (Z.ones_spec_high k) by lia. apply andb_false_r. }
  destruct Hc as [Hor Hand].
  assert (E : x = Z.land x (18446744073709551616 - 2 ^ k) + Z.land x (Z.ones k)).
  { rewrite Z.add_nocarry_lxor, Z.lxor_lor.
    - rewrite <- Z.land_lor_distr_r, Hor, Z.land_ones by lia.
      symmetry. apply Z.mod_small. change (2 ^ 64) with 18446744073709551616. lia.
    - rewrite Z.land_assoc, <- (Z.land_assoc x _ x), (Z.land_comm _ x), Z.land_assoc, Z.land_diag.
      rewrite <- Z.land_assoc, Hand. apply Z.land_0_r.
    - rewrite Z.land_assoc, <- (Z.land_assoc x _ x), (Z.land_comm _ x), Z.land_assoc, Z.land_diag.
      rewrite <- Z.land_assoc, Hand. apply Z.land_0_r. }
  rewrite Z.land_ones in E by lia. lia.
Qed.

Lemma land_NOT7 x : 0 <= x < 18446744073709551616 -> Z.land x NOT7 = x - x mod 8.
Proof. intros. apply (land_split x 3); lia. Qed.
Lemma land_NOT1 x : 0 <= x < 18446744073709551616 -> Z.land x NOT1 = x - x mod 2.
Proof. intros. apply (land_split x 1); lia. Qed.

(** ** The size classes of [find_list_index] *)

Lemma bit_length_half t : 0 < t -> bit_length t = bit_length (Z.shiftr t 1) + 1.
Proof.
  intros Ht. unfold bit_length.
  destruct (Z.eqb_spec t 0); [lia|].
  destruct (Z.eqb_spec (Z.shiftr t 1) 0) as [E|E].
  - pose proof (Z.log2_nonneg t). apply Z.shiftr_eq_0_iff in E. destruct E as [E|[_ E]]; lia.
  - rewrite Z.log2_shiftr by lia.
    assert (Z.log2 t <> 0).
    { intro E0. apply E. apply Z.shiftr_eq_0; lia. }
    pose proof (Z.log2_nonneg t). lia.
Qed.

Lemma shift_count_spec fuel : forall s l,
  0 <= s < 2 ^ Z.of_nat fuel -> shift_count fuel s l = l + bit_length s.
Proof.
  induction fuel as [|fuel IH]; intros s l Hs.
  - simpl in *. assert (s = 0) by lia. subst. unfold bit_length. simpl. lia.
  - cbn [shift_count]. destruct (Z.eqb_spec s 0) as [->|Hne].
    + unfold bit_length. simpl. lia.
    + rewrite IH.
      * rewrite (bit_length_half s) by lia. lia.
      * rewrite Z.shiftr_div_pow2 by lia. rewrite Nat2Z.inj_succ, Z.pow_succ_r in Hs by lia.
        change (2 ^ 1) with 2. split.
        -- apply Z.div_pos; lia.
        -- apply Z.div_lt_upper_bound; lia.
Qed.

Lemma bit_length_bounds t : 0 < t -> 2 ^ (bit_length t - 1) <= t < 2 ^ bit_length t.
Proof.
  intros Ht. unfold bit_length. destruct (Z.eqb_spec t 0); [lia|].
  replace (Z.log2 t + 1 - 1) with (Z.log2 t) by lia.
  pose proof (Z.log2_spec t Ht). unfold Z.succ in *. lia.
Qed.

Lemma bit_length_unique t k : 1 <= k -> 2 ^ (k - 1) <= t < 2 ^ k -> bit_length t = k.
Proof.
  intros Hk Ht. unfold bit_length.
  assert (0 < 2 ^ (k - 1)) by (apply Z.pow_pos_nonneg; lia).
  destruct (Z.eqb_spec t 0); [lia|].
  rewrite (Z.log2_unique t (k - 1)); try lia.
  unfold Z.succ. replace (k - 1 + 1) with k by lia. lia.
Qed.

Lemma bit_length_mono a b : 0 <= a <= b -> bit_length a <= bit_length b.
Proof.
  intros H. unfold bit_length.
  destruct (Z.eqb_spec a 0), (Z.eqb_spec b 0); try lia.
  - pose proof (Z.log2_nonneg b). lia.
  - pose proof (Z.log2_le_mono a b). lia.
Qed.

Lemma bit_length_nonneg t : 0 <= bit_length t.
Proof. unfold bit_length. destruct (t =? 0); pose proof (Z.log2_nonneg t); lia. Qed.

Lemma find_list_index_small s : 0 <= s < 512 -> find_list_index s = s / 8 - 1.
Proof.
  intros Hs. unfold find_list_index.
  destruct (Z.ltb_spec s 512); [|lia].
  rewrite Z.shiftr_div_pow2 by lia. change (2 ^ 3) with 8.
  assert (0 <= s / 8 < 64).
  { split; [apply Z.div_pos; lia | apply Z.div_lt_upper_bound; lia]. }
  destruct (Z.eq_dec (s / 8) 0) as [E|E].
  - rewrite E. reflexivity.
  - rewrite wrap_small by lia. unfold to_int.
    rewrite Z.mod_small by lia.
    destruct (Z.ltb_spec (s / 8 - 1) 2147483648); lia.
Qed.

Lemma find_list_index_large s :
  512 <= s < 18446744073709551616 ->
  find_list_index s = Z.min (63 + bit_length (Z.shiftr s 10)) (LISTCOUNT - 1).
Proof.
  intros Hs. unfold find_list_index.
  destruct (Z.ltb_spec s 512); [lia|].
  rewrite shift_count_spec.
  - simpl (0 + _). change (LISTCOUNT - 1) with 74.
    destruct (Z.ltb_spec (bit_length (Z.shiftr s 10)) 12); lia.
  - rewrite Z.shiftr_div_pow2 by lia. split.
    + apply Z.div_pos; lia.
    + apply Z.div_lt_upper_bound; lia.
Qed.

(** Monotonicity of [find_list_index], by the position of the two sizes
    with respect to 512. *)
Lemma find_list_index_le_small s1 s2 :
  0 <= s1 -> s1 <= s2 -> s2 < 512 -> find_list_index s1 <= find_list_index s2.
Proof.
  intros H0 H12 H2. rewrite !find_list_index_small by lia.
  pose proof (Z.div_le_mono s1 s2 8). lia.
Qed.

Lemma find_list_index_le_across s1 s2 :
  0 <= s1 < 512 -> 512 <= s2 < 18446744073709551616 ->
  find_list_index s1 <= find_list_index s2.
Proof.
  intros H1 H2. rewrite find_list_index_small, find_list_index_large by lia.
  pose proof (bit_length_nonneg (Z.shiftr s2 10)).
  assert (s1 / 8 < 64) by (apply Z.div_lt_upper_bound; lia).
  change (LISTCOUNT - 1) with 74. lia.
Qed.

Lemma find_list_index_le_large s1 s2 :
  512 <= s1 -> s1 <= s2 -> s2 < 18446744073709551616 ->
  find_list_index s1 <= find_list_index s2.
Proof.
  intros H1 H12 H2. rewrite !find_list_index_large by lia.
  assert (bit_length (Z.shiftr s1 10) <= bit_length (Z.shiftr s2 10)).
  { apply bit_length_mono. rewrite !Z.shiftr_div_pow2 by lia. split.
    - apply Z.div_pos; lia.
    - apply Z.div_le_mono; lia. }
  lia.
Qed.

Lemma find_list_index_le s1 s2 :
  0 <= s1 -> s1 <= s2 -> s2 < 18446744073709551616 ->
  find_list_index s1 <= find_list_index s2.
Proof.
  intros H0 H12 H2.
  destruct (Z.lt_ge_cases s1 512) as [L1|L1]; destruct (Z.lt_ge_cases s2 512) as [L2|L2];
    try lia.
  - apply find_list_index_le_small; lia.
  - apply find_list_index_le_across; lia.
  - apply find_list_index_le_large; lia.
Qed.

Lemma shiftr10_bounds s k :
  0 <= s -> 1 <= k ->
  (2 ^ (k - 1) <= Z.shiftr s 10 < 2 ^ k <-> 2 ^ (k + 9) <= s < 2 ^ (k + 10)).
Proof.
  intros Hs Hk. rewrite Z.shiftr_div_pow2 by lia. change (2 ^ 10) with 1024.
  replace (k + 9) with ((k - 1) + 10) by lia.
  replace (k + 10) with ((k - 1) + 1 + 10) by lia.
  replace k with ((k - 1) + 1) at 2 by lia.
  rewrite !Z.pow_add_r by lia. change (2 ^ 10) with 1024. change (2 ^ 1) with 2.
  assert (0 < 2 ^ (k - 1)) by (apply Z.pow_pos_nonneg; lia).
  generalize dependent (2 ^ (k - 1)). intros P HP.
  pose proof (Z.div_mod s 1024). pose proof (Z.mod_pos_bound s 1024).
  split; intros; nia.
Qed.

(** ** Request sizes *)

Ltac zmod := Z.div_mod_to_equations; lia.

Lemma ALIGN_val x : ALIGN x = wrap (x + 15) - wrap (x + 15) mod 8.
Proof. unfold ALIGN. change (ALIGNMENT - 1) with 15. apply land_NOT7. apply wrap_range. Qed.

Lemma ALIGN_overflow u :
  0 < u < 18446744073709551616 ->
  (ALIGN (BLOCKSIZE u) < u + 2 * WSIZE <-> u > ALIGN (BLOCKSIZE u)).
Proof.
  intros Hu. rewrite ALIGN_val. unfold BLOCKSIZE, wrap, DSIZE, WSIZE. zmod.
Qed.

Lemma ALIGN_exact u :
  0 <= u -> u + 31 < 18446744073709551616 ->
  ALIGN (BLOCKSIZE u) = u + 31 - (u + 31) mod 8.
Proof.
  intros. rewrite ALIGN_val. unfold BLOCKSIZE, wrap, DSIZE, WSIZE. zmod.
Qed.

(** ** Initialisation *)

Lemma sbrk_errno_ok n st r st' :
  sbrk n st = (r, st') -> r <> SBRK_FAILED -> errno st' = errno st.
Proof.
  unfold sbrk. destruct (_ && _); intros E; inversion E; subst; cbn; congruence.
Qed.

(** The [memset] of [malloc_init] writes below the break. *)
Lemma malloc_init_memset st r st1 :
  0 <= brk st -> sbrk (WSIZE * LISTCOUNT) st = (r, st1) -> r <> SBRK_FAILED ->
  memset r 0 (WSIZE * LISTCOUNT) st1
  = Some (set_mem (memset_bytes (mem st1) r 0 (WSIZE * LISTCOUNT)) st1).
Proof.
  intros H0 E Hr. revert E. unfold sbrk. change (to_intptr (WSIZE * LISTCOUNT)) with 600.
  change (WSIZE * LISTCOUNT) with 600.
  destruct (_ && _); intros E; inversion E; subst; [|contradiction].
  unfold memset. cbn [brk set_brk mem].
  destruct (Z.leb_spec 0 (brk st)); [|lia].
  destruct (Z.leb_spec (brk st + 600) (brk st + 600)); [|lia]. reflexivity.
Qed.

Lemma malloc_init_done st : 0 < init st -> malloc_init st = (0, st).
Proof.
  intros H. unfold malloc_init. destruct (Z.gtb_spec (init st) 0); [reflexivity|lia].
Qed.

Lemma malloc_init_result st :
  (fst (malloc_init st) = 0 /\ errno (snd (malloc_init st)) = errno st)
  \/ (fst (malloc_init st) = -1 /\ errno (snd (malloc_init st)) = ENOMEM).
Proof.
  unfold malloc_init. destruct (init st >? 0); [left; split; reflexivity|].
  destruct (sbrk (WSIZE * LISTCOUNT) st) as [r1 st1] eqn:E1.
  destruct (Z.eqb_spec r1 SBRK_FAILED); [right; split; reflexivity|].
  match goal with |- context [sbrk 0 ?s] => destruct (sbrk 0 s) as [r2 st2] eqn:E2 end.
  destruct (Z.eqb_spec r2 SBRK_FAILED); [right; split; reflexivity|].
  match goal with |- context [sbrk ?x st2] => destruct (sbrk x st2) as [r3 st3] eqn:E3 end.
  destruct (Z.eqb_spec r3 SBRK_FAILED); [right; split; reflexivity|].
  left. split; [reflexivity|]. cbn.
  apply sbrk_errno_ok in E1, E2, E3; try assumption. cbn in *. congruence.
Qed.

Lemma malloc_init_failed_errno st :
  fst (malloc_init st) < 0 ->
  snd (malloc_init st) = set_errno ENOMEM (snd (malloc_init st)).
Proof.
  unfold malloc_init. destruct (init st >? 0); [cbn; lia|].
  destruct (sbrk (WSIZE * LISTCOUNT) st) as [r1 st1].
  destruct (r1 =? SBRK_FAILED); [reflexivity|].
  match goal with |- context [sbrk 0 ?s] => destruct (sbrk 0 s) as [r2 st2] end.
  destruct (r2 =? SBRK_FAILED); [reflexivity|].
  match goal with |- context [sbrk ?x st2] => destruct (sbrk x st2) as [r3 st3] end.
  destruct (r3 =? SBRK_FAILED); [reflexivity|]. cbn. lia.
Qed.

(** ** Memory reads after writes *)

Lemma load_bytes_ext n : forall m1 m2 a,
  (forall i, 0 <= i < Z.of_nat n -> m1 (a + i) = m2 (a + i)) ->
  load_bytes n m1 a = load_bytes n m2 a.
Proof.
  induction n as [|n IH]; intros m1 m2 a H; [reflexivity|].
  cbn [load_bytes]. unfold byte_at.
  rewrite <- (Z.add_0_r a) at 1 3. rewrite (H 0) by lia.
  rewrite (IH m1 m2 (a + 1)); [reflexivity|].
  intros i Hi. rewrite <- !Z.add_assoc. apply H. lia.
Qed.

Lemma load_bytes_range n : forall m a, 0 <= load_bytes n m a < 2 ^ (8 * Z.of_nat n).
Proof.
  induction n as [|n IH]; intros m a.
  - simpl. lia.
  - cbn [load_bytes]. specialize (IH m (a + 1)).
    replace (8 * Z.of_nat (S n)) with (8 + 8 * Z.of_nat n) by lia.
    rewrite Z.pow_add_r by lia. change (2 ^ 8) with 256.
    unfold byte_at. pose proof (Z.mod_pos_bound (m a) 256). nia.
Qed.

Lemma load_range m a : 0 <= load m a < 18446744073709551616.
Proof. apply (load_bytes_range 8). Qed.

Lemma load_bytes_store n : forall m a v k,
  0 <= k -> k + Z.of_nat n <= 8 ->
  load_bytes n (store m a v) (a + k) = (v / 2 ^ (8 * k)) mod 2 ^ (8 * Z.of_nat n).
Proof.
  induction n as [|n IH]; intros m a v k Hk Hn.
  - simpl. rewrite Z.mod_1_r. reflexivity.
  - cbn [load_bytes]. rewrite <- Z.add_assoc, IH by lia.
    unfold byte_at, store.
    destruct (Z.leb_spec a (a + k)); [|lia].
    destruct (Z.ltb_spec (a + k) (a + 8)); [|lia]. cbn [andb].
    replace (a + k - a) with k by lia.
    rewrite Z.mod_mod by lia.
    replace (8 * Z.of_nat (S n)) with (8 + 8 * Z.of_nat n) by lia.
    rewrite (Z.pow_add_r 2 8) by lia. change (2 ^ 8) with 256.
    rewrite Z.rem_mul_r by (try lia; apply Z.pow_nonzero; lia).
    replace (8 * (k + 1)) with (8 * k + 8) by lia.
    rewrite (Z.pow_add_r 2 (8 * k)) by lia. change (2 ^ 8) with 256.
    rewrite Z.div_div by (try lia; apply Z.pow_pos_nonneg; lia).
    reflexivity.
Qed.

Lemma load_store_same m a v :
  0 <= v < 18446744073709551616 -> load (store m a v) a = v.
Proof.
  intros Hv. unfold load. rewrite <- (Z.add_0_r a) at 2.
  rewrite load_bytes_store by lia. simpl (2 ^ (8 * 0)). rewrite Z.div_1_r.
  apply Z.mod_small. exact Hv.
Qed.

Lemma load_store_other m a v a' :
  a' + 8 <= a \/ a + 8 <= a' -> load (store m a v) a' = load m a'.
Proof.
  intros H. unfold load. apply load_bytes_ext. intros i Hi. unfold store.
  destruct (Z.leb_spec a (a' + i)); destruct (Z.ltb_spec (a' + i) (a + 8)); cbn [andb]; try reflexivity.
  lia.
Qed.

Lemma load_bytes_zero n : forall m a,
  (forall i, 0 <= i < Z.of_nat n -> m (a + i) = 0) -> load_bytes n m a = 0.
Proof.
  induction n as [|n IH]; intros m a H; [reflexivity|].
  cbn [load_bytes]. unfold byte_at. rewrite <- (Z.add_0_r a) at 1.
  rewrite (H 0) by lia. rewrite IH; [reflexivity|].
  intros i Hi. rewrite <- Z.add_assoc. apply H. lia.
Qed.

Lemma load_memset_zero m p n a :
  p <= a -> a + 8 <= p + n -> load (memset_bytes m p 0 n) a = 0.
Proof.
  intros H1 H2. unfold load. apply load_bytes_zero. intros i Hi. unfold memset_bytes.
  destruct (Z.leb_spec p (a + i)); destruct (Z.ltb_spec (a + i) (p + n)); cbn [andb]; try reflexivity; lia.
Qed.

Lemma load_memset_other m p c n a :
  a + 8 <= p \/ p + n <= a -> load (memset_bytes m p c n) a = load m a.
Proof.
  intros H. unfold load. apply load_bytes_ext. intros i Hi. unfold memset_bytes.
  destruct (Z.leb_spec p (a + i)); destruct (Z.ltb_spec (a + i) (p + n)); cbn [andb]; try reflexivity.
  lia.
Qed.

(** ** Bit operations on headers, as arithmetic *)

Lemma land_1 x : Z.land x 1 = x mod 2.
Proof. apply (Z.land_ones x 1). lia. Qed.

Lemma land_3 x : Z.land x 3 = x mod 4.
Proof. apply (Z.land_ones x 2). lia. Qed.

Lemma land_7 x : Z.land x 7 = x mod 8.
Proof. apply (Z.land_ones x 3). lia. Qed.

Lemma land_NOT2 x :
  0 <= x < 18446744073709551616 -> Z.land x NOT2 = x - x mod 4 + x mod 2.
Proof.
  intros Hx. change NOT2 with (Z.lor (18446744073709551616 - 2 ^ 2) 1).
  rewrite Z.land_lor_distr_r.
  assert (D : Z.land (Z.land x (18446744073709551616 - 2 ^ 2)) (Z.land x 1) = 0).
  { rewrite Z.land_assoc, <- (Z.land_assoc x _ x), (Z.land_comm _ x), Z.land_assoc, Z.land_diag.
    rewrite <- Z.land_assoc. change (Z.land (18446744073709551616 - 2 ^ 2) 1) with 0.
    apply Z.land_0_r. }
  pose proof (Z.add_lor_land (Z.land x (18446744073709551616 - 2 ^ 2)) (Z.land x 1)) as E.
  rewrite D, land_split, land_1 in E by lia.
  rewrite land_split, land_1 by lia. change (2 ^ 2) with 4 in *. lia.
Qed.

Lemma lor_1 y : Z.lor y 1 = y + 1 - y mod 2.
Proof. pose proof (Z.add_lor_land y 1) as E. rewrite land_1 in E. lia. Qed.

Lemma lor_low t s : 0 <= t < 8 -> s mod 8 = 0 -> Z.lor t s = t + s.
Proof.
  intros Ht Hs. pose proof (Z.add_lor_land t s) as E.
  assert (Z.land t s = 0).
  { replace t with (Z.land t 7) by (rewrite land_7; apply Z.mod_small; lia).
    rewrite <- Z.land_assoc, (Z.land_comm 7 s), land_7, Hs. apply Z.land_0_r. }
  lia.
Qed.

(** A header [s + t]: the size [s], a multiple of eight, and the three
    flag bits [t]. *)
Section Header.
Variables s t : Z.
Hypothesis Hs : 0 <= s.
Hypothesis Hs8 : s mod 8 = 0.
Hypothesis Ht : 0 <= t < 8.
Hypothesis Hmax : s + t < 18446744073709551616.

Lemma hdr_size : Z.land (s + t) NOT7 = s.
Proof. rewrite land_NOT7 by lia. zmod. Qed.

Lemma hdr_alloc : Z.land (s + t) 1 = t mod 2.
Proof. rewrite land_1. zmod. Qed.

Lemma hdr_uncoal : Z.land (s + t) 3 = t mod 4.
Proof. rewrite land_3. zmod. Qed.

Lemma hdr_markalloc :
  Z.lor (Z.land (s + t) NOT2) 1 = s + (t - t mod 4 + 1).
Proof. rewrite land_NOT2, lor_1 by lia. zmod. Qed.

Lemma hdr_markfree : Z.land (s + t) NOT1 = s + (t - t mod 2).
Proof. rewrite land_NOT1 by lia. zmod. Qed.

Lemma hdr_markunquick :
  Z.land (s + t) NOT2 = s + (t - t mod 4 + t mod 2).
Proof. rewrite land_NOT2 by lia. zmod. Qed.
End Header.

(** ** Reads and writes of the state *)

Lemma rd_range st a : 0 <= rd st a < 18446744073709551616.
Proof. apply load_range. Qed.

Lemma rd_wr_eq c v st : 0 <= v < 18446744073709551616 -> rd (wr c v st) c = v.
Proof. intros H. unfold rd, wr. cbn. apply load_store_same. exact H. Qed.

Lemma rd_wr_ne c v st c' :
  c' + 8 <= c \/ c + 8 <= c' -> rd (wr c v st) c' = rd st c'.
Proof. intros H. unfold rd, wr. cbn. apply load_store_other. exact H. Qed.

(** ** Layout of the blocks *)

Lemma chain_app l1 : forall l2 a e,
  chain (l1 ++ l2) a e <-> exists m, chain l1 a m /\ chain l2 m e.
Proof.
  induction l1 as [|b l1 IH]; intros l2 a e; cbn [app chain].
  - split.
    + intros H. exists a. split; [reflexivity|exact H].
    + intros [m [-> H]]. exact H.
  - rewrite IH. split.
    + intros (H1 & H2 & H3 & H4 & m & H5 & H6). exists m. tauto.
    + intros (m & (H1 & H2 & H3 & H4 & H5) & H6). repeat split; try tauto. exists m. tauto.
Qed.

Lemma chain_le bl : forall a e, chain bl a e -> a <= e.
Proof.
  induction bl as [|b bl IH]; intros a e; cbn [chain].
  - lia.
  - intros (H1 & H2 & H3 & H4 & H5). apply IH in H5. unfold MINBLOCK, SIZEOF_BLOCK, WSIZE in *. lia.
Qed.

Lemma chain_end l : forall a e, chain l a e -> e = a + fold_right (fun b n => b_size b + n) 0 l.
Proof.
  induction l as [|b l IH]; intros a e; cbn [chain fold_right].
  - lia.
  - intros (H1 & H2 & H3 & H4 & H5). apply IH in H5. lia.
Qed.

Lemma chain_fun l : forall a e e', chain l a e -> chain l a e' -> e = e'.
Proof. intros a e e' H1 H2. apply chain_end in H1, H2. lia. Qed.

Lemma chain_in bl : forall a e b,
  chain bl a e -> In b bl ->
  a <= b_addr b /\ b_end b <= e /\ MINBLOCK <= b_size b /\ b_size b mod 8 = 0
  /\ 0 <= b_tag b < 8.
Proof.
  induction bl as [|b0 bl IH]; intros a e b Hc Hin; [contradiction|].
  cbn [chain] in Hc. destruct Hc as (H1 & H2 & H3 & H4 & H5).
  pose proof (chain_le _ _ _ H5) as Hle.
  destruct Hin as [->|Hin].
  - unfold b_end. unfold MINBLOCK, SIZEOF_BLOCK, WSIZE in *. lia.
  - destruct (IH _ _ _ H5 Hin) as (I1 & I2 & I3). unfold MINBLOCK, SIZEOF_BLOCK, WSIZE in *. lia.
Qed.

Lemma chain_apart bl : forall a e b1 b2,
  chain bl a e -> In b1 bl -> In b2 bl ->
  b1 = b2 \/ b_end b1 <= b_addr b2 \/ b_end b2 <= b_addr b1.
Proof.
  induction bl as [|b0 bl IH]; intros a e b1 b2 Hc H1 H2; [contradiction|].
  cbn [chain] in Hc. destruct Hc as (C1 & C2 & C3 & C4 & C5).
  destruct H1 as [->|H1], H2 as [->|H2].
  - left. reflexivity.
  - right. left. destruct (chain_in _ _ _ _ C5 H2) as (I1 & _). unfold b_end. lia.
  - right. right. destruct (chain_in _ _ _ _ C5 H1) as (I1 & _). unfold b_end. lia.
  - eapply IH; eassumption.
Qed.

Lemma chain_addr_inj bl a e b1 b2 :
  chain bl a e -> In b1 bl -> In b2 bl -> b_addr b1 = b_addr b2 -> b1 = b2.
Proof.
  intros Hc H1 H2 E.
  destruct (chain_apart _ _ _ _ _ Hc H1 H2) as [H|H]; [exact H|].
  destruct (chain_in _ _ _ _ Hc H1) as (_ & _ & S1 & _).
  destruct (chain_in _ _ _ _ Hc H2) as (_ & _ & S2 & _).
  unfold b_end, MINBLOCK, SIZEOF_BLOCK, WSIZE in *. lia.
Qed.

Lemma chain_retag a t bl : forall s e,
  0 <= t < 8 -> chain bl s e -> chain (retag a t bl) s e.
Proof.
  induction bl as [|b bl IH]; intros s e Ht; cbn [retag map chain]; [tauto|].
  intros (H1 & H2 & H3 & H4 & H5). fold (retag a t bl).
  destruct (b_addr b =? a); cbn [b_addr b_size b_tag]; repeat split; try tauto; try lia; apply IH; assumption.
Qed.

Lemma in_retag a t bl b' :
  In b' (retag a t bl) ->
  exists b, In b bl /\ b_addr b' = b_addr b /\ b_size b' = b_size b
            /\ (b_addr b = a -> b_tag b' = t) /\ (b_addr b <> a -> b' = b).
Proof.
  unfold retag. rewrite in_map_iff. intros [b [E Hin]]. exists b. split; [exact Hin|].
  destruct (Z.eqb_spec (b_addr b) a); subst b'; cbn; repeat split; try tauto; try congruence.
Qed.

Lemma retag_in a t bl b :
  In b bl -> In (if b_addr b =? a then mkBlk (b_addr b) (b_size b) t else b) (retag a t bl).
Proof. intros H. unfold retag. apply in_map_iff. exists b. split; [reflexivity|exact H]. Qed.

Lemma chain_mid l1 b l2 s e :
  chain (l1 ++ b :: l2) s e ->
  chain l1 s (b_addr b) /\ chain l2 (b_end b) e
  /\ MINBLOCK <= b_size b /\ b_size b mod 8 = 0 /\ 0 <= b_tag b < 8.
Proof.
  intros H. apply chain_app in H. destruct H as (m & H1 & H2).
  cbn [chain] in H2. destruct H2 as (E & H2 & H3 & H4 & H5). subst m.
  unfold b_end. tauto.
Qed.

Lemma chain_last l p s e : chain (l ++ [p]) s e -> b_end p = e.
Proof.
  intros H. apply chain_app in H. destruct H as (m & H1 & H2).
  cbn [chain] in H2. unfold b_end. lia.
Qed.

(** What [base] says of one block, in the form arithmetic needs. *)
Lemma base_block bl st b :
  base bl st -> In b bl ->
  0 <= free_lists st /\ free_lists st + 600 <= prologue st
  /\ prologue st + 8 <= b_addr b /\ b_end b <= epilogue st
  /\ epilogue st + 8 <= brk_hi st /\ brk_hi st < 18446744073709551616
  /\ 32 <= b_size b /\ b_size b mod 8 = 0 /\ 0 <= b_tag b < 8
  /\ b_end b = b_addr b + b_size b
  /\ rd st (b_addr b) = b_size b + b_tag b
  /\ rd st (b_addr b + b_size b - 8) = b_size b + b_tag b.
Proof.
  intros B Hin. destruct B as [_ [T1 T2] C [K1 [K2 [K3 K4]]] _ _ Tg].
  destruct (chain_in _ _ _ _ C Hin) as (I1 & I2 & I3 & I4 & I5).
  destruct (Tg b Hin) as [G1 G2].
  unfold b_hdr, b_end, MINBLOCK, SIZEOF_BLOCK, WSIZE, LISTCOUNT, SIZE_MAX in *.
  repeat split; try lia; assumption.
Qed.

Lemma base_bounds bl st :
  base bl st ->
  0 <= free_lists st /\ free_lists st + 600 <= prologue st
  /\ prologue st + 8 <= epilogue st
  /\ epilogue st + 8 <= brk st /\ brk st <= brk_hi st
  /\ brk_hi st < 18446744073709551616.
Proof.
  intros B. destruct B as [_ [T1 T2] C [K1 [K2 [K3 K4]]] _ _ _].
  apply chain_le in C. unfold WSIZE, LISTCOUNT, SIZE_MAX in *. lia.
Qed.

(** The macros on a block of the heap. *)
Section Macros.
Variables (bl : list blk) (st : state) (b : blk).
Hypothesis B : base bl st.
Hypothesis Hin : In b bl.

Lemma SIZE_blk : SIZE st (b_addr b) = b_size b.
Proof.
  destruct (base_block _ _ _ B Hin) as (? & ? & ? & ? & ? & ? & ? & ? & ? & E & H1 & H2).
  unfold SIZE. rewrite H1. apply hdr_size; unfold b_end in *; lia.
Qed.

Lemma ISALLOC_blk : ISALLOC st (b_addr b) = b_tag b mod 2.
Proof.
  destruct (base_block _ _ _ B Hin) as (? & ? & ? & ? & ? & ? & ? & ? & ? & E & H1 & H2).
  unfold ISALLOC. rewrite H1. apply hdr_alloc; unfold b_end in *; lia.
Qed.

Lemma NEXTRAW_blk : NEXTRAW st (b_addr b) = b_end b.
Proof.
  destruct (base_block _ _ _ B Hin) as (? & ? & ? & ? & ? & ? & ? & ? & ? & E & H1 & H2).
  unfold NEXTRAW. rewrite SIZE_blk. unfold b_end in *. apply wrap_small. lia.
Qed.

Lemma uncoal_blk : Z.land (rd st (b_addr b)) 3 = b_tag b mod 4.
Proof.
  destruct (base_block _ _ _ B Hin) as (? & ? & ? & ? & ? & ? & ? & ? & ? & E & H1 & H2).
  rewrite H1. apply hdr_uncoal; unfold b_end in *; lia.
Qed.

Lemma uncoal_ftr : Z.land (rd st (b_end b - 8)) 3 = b_tag b mod 4.
Proof.
  destruct (base_block _ _ _ B Hin) as (? & ? & ? & ? & ? & ? & ? & ? & ? & E & H1 & H2).
  rewrite E, H2. apply hdr_uncoal; unfold b_end in *; lia.
Qed.

Lemma SIZE_ftr : SIZE st (b_end b - 8) = b_size b.
Proof.
  destruct (base_block _ _ _ B Hin) as (? & ? & ? & ? & ? & ? & ? & ? & ? & E & H1 & H2).
  unfold SIZE. rewrite E, H2. apply hdr_size; unfold b_end in *; lia.
Qed.
End Macros.

Lemma sentinel_facts h :
  sentinel h -> Z.land h 3 = 1 /\ Z.land h 1 = 1 /\ Z.land h NOT7 = 0.
Proof. intros [->| ->]; repeat split. Qed.

(** Projections of the globals through memory writes. *)
Ltac wr_simpl :=
  repeat match goal with
  | |- context [brk (wr ?c ?v ?s)] => change (brk (wr c v s)) with (brk s)
  | |- context [brk_lo (wr ?c ?v ?s)] => change (brk_lo (wr c v s)) with (brk_lo s)
  | |- context [brk_hi (wr ?c ?v ?s)] => change (brk_hi (wr c v s)) with (brk_hi s)
  | |- context [errno (wr ?c ?v ?s)] => change (errno (wr c v s)) with (errno s)
  | |- context [init (wr ?c ?v ?s)] => change (init (wr c v s)) with (init s)
  | |- context [free_lists (wr ?c ?v ?s)] =>
      change (free_lists (wr c v s)) with (free_lists s)
  | |- context [prologue (wr ?c ?v ?s)] => change (prologue (wr c v s)) with (prologue s)
  | |- context [epilogue (wr ?c ?v ?s)] => change (epilogue (wr c v s)) with (epilogue s)
  end.

(** Writes that keep the layout and the tags. *)
Lemma base_wr_soft bl st c v :
  base bl st -> soft bl st c -> base bl (wr c v st).
Proof.
  intros B S. pose proof (base_bounds _ _ B) as Hb.
  assert (Hc : c + 8 <= prologue st
               \/ exists b0, In b0 bl /\ b_addr b0 + 8 <= c /\ c + 16 <= b_end b0).
  { destruct S as [S|S]; [left; unfold WSIZE, LISTCOUNT in S; lia|right; exact S]. }
  destruct B as [B1 B2 B3 B4 B5 B6 B7]. constructor; wr_simpl; try assumption.
  - rewrite rd_wr_ne; [exact B5|].
    destruct Hc as [Hc|(b0 & I0 & H1 & H2)]; [lia|].
    destruct (chain_in _ _ _ _ B3 I0) as (? & ? & ?). unfold WSIZE in *. lia.
  - rewrite rd_wr_ne; [exact B6|].
    destruct Hc as [Hc|(b0 & I0 & H1 & H2)]; [lia|].
    destruct (chain_in _ _ _ _ B3 I0) as (? & ? & ?). lia.
  - intros b Hin. destruct (B7 b Hin) as [G1 G2].
    destruct (chain_in _ _ _ _ B3 Hin) as (? & ? & ? & ? & ?).
    unfold b_end, MINBLOCK, SIZEOF_BLOCK, WSIZE in *.
    rewrite !rd_wr_ne; [split; assumption| |].
    + destruct Hc as [Hc|(b0 & I0 & H1' & H2')]; [lia|].
      destruct (chain_apart _ _ _ _ _ B3 Hin I0) as [->|D]; unfold b_end in *; lia.
    + destruct Hc as [Hc|(b0 & I0 & H1' & H2')]; [lia|].
      destruct (chain_apart _ _ _ _ _ B3 Hin I0) as [->|D]; unfold b_end in *; lia.
Qed.

(** Writes that keep the lists. *)
Lemma lseg_frame st st' l : forall p n,
  (forall a, In a l -> rd st' (a + OFF_PREV) = rd st (a + OFF_PREV)
                       /\ rd st' (a + OFF_NEXT) = rd st (a + OFF_NEXT)) ->
  lseg st p l n -> lseg st' p l n.
Proof.
  induction l as [|a l IH]; intros p n F; cbn [lseg]; [tauto|].
  intros (H1 & H2 & H3). destruct (F a (or_introl eq_refl)) as [F1 F2].
  rewrite F1, F2. repeat split; try assumption.
  apply IH; [|exact H3]. intros a' Ha'. apply F. right. exact Ha'.
Qed.

(** ** Doubly-linked segments *)

Lemma last_cons {A : Type} (a : A) l d : last (a :: l) d = last l a.
Proof.
  revert a d. induction l as [|x l IH]; intros a d; [reflexivity|].
  change (last (a :: x :: l) d) with (last (x :: l) d).
  rewrite (IH x d). symmetry. apply (IH x a).
Qed.

Lemma hd_app {A : Type} (l1 l2 : list A) d : hd d (l1 ++ l2) = hd (hd d l2) l1.
Proof. destruct l1; reflexivity. Qed.

Lemma hd_in {A : Type} (l : list A) d : l <> [] -> In (hd d l) l.
Proof. destruct l; [congruence|]. intros _. left. reflexivity. Qed.

Lemma last_in {A : Type} (l : list A) d : l <> [] -> In (last l d) l.
Proof.
  intros H. destruct (exists_last H) as (l' & x & ->).
  rewrite last_last. apply in_or_app. right. left. reflexivity.
Qed.

Lemma lseg_app st l1 : forall p l2 n,
  lseg st p (l1 ++ l2) n <-> lseg st p l1 (hd n l2) /\ lseg st (last l1 p) l2 n.
Proof.
  induction l1 as [|a l1 IH]; intros p l2 n.
  - cbn. tauto.
  - cbn [app lseg]. rewrite IH, hd_app, last_cons. tauto.
Qed.

(** Redirecting the forward link of the last block of a segment. *)
Lemma lseg_relast st st' l : forall p n n',
  lseg st p l n -> NoDup l ->
  (forall x, In x l -> rd st' (x + OFF_PREV) = rd st (x + OFF_PREV)) ->
  (forall x, In x l -> x <> last l p -> rd st' (x + OFF_NEXT) = rd st (x + OFF_NEXT)) ->
  (l <> [] -> rd st' (last l p + OFF_NEXT) = n') ->
  lseg st' p l n'.
Proof.
  induction l as [|x l IH]; intros p n n' H ND F1 F2 F3; [exact I|].
  cbn [lseg] in *. destruct H as (H1 & H2 & H3).
  apply NoDup_cons_iff in ND. destruct ND as [Nx ND].
  rewrite last_cons in F2, F3.
  split; [|split].
  - rewrite F1 by (left; reflexivity). exact H1.
  - destruct l as [|y l].
    + cbn in *. apply F3. discriminate.
    + cbn [hd] in *. rewrite F2; [exact H2|left; reflexivity|].
      intros E. apply Nx. rewrite E. apply last_in. discriminate.
  - apply (IH x n n'); try assumption.
    + intros y Hy. apply F1. right. exact Hy.
    + intros y Hy Hne. apply F2; [right; exact Hy|exact Hne].
    + intros Hl. apply F3. discriminate.
Qed.

(** Redirecting the back link of the first block of a segment. *)
Lemma lseg_rehead st st' l p q n :
  lseg st p l n -> NoDup l ->
  (forall x, In x l -> rd st' (x + OFF_NEXT) = rd st (x + OFF_NEXT)) ->
  (forall x, In x l -> x <> hd 0 l -> rd st' (x + OFF_PREV) = rd st (x + OFF_PREV)) ->
  (l <> [] -> rd st' (hd 0 l + OFF_PREV) = q) ->
  lseg st' q l n.
Proof.
  destruct l as [|x l]; intros H ND F1 F2 F3; [exact I|].
  cbn [lseg hd] in *. destruct H as (H1 & H2 & H3).
  apply NoDup_cons_iff in ND. destruct ND as [Nx ND].
  split; [|split].
  - apply F3. discriminate.
  - rewrite F1 by (left; reflexivity). exact H2.
  - apply (lseg_frame st); [|exact H3].
    intros y Hy. split.
    + apply F2; [right; exact Hy|]. intros ->. contradiction.
    + apply F1. right. exact Hy.
Qed.

(** The lists after the replacement of one of them. *)
Lemma lmem_upd fl st st' i l' :
  lmem fl st -> 0 <= i < LISTCOUNT -> free_lists st' = free_lists st ->
  rd st' (free_lists st + WSIZE * i) = hd NULL l' ->
  lseg st' NULL l' NULL ->
  (forall j, 0 <= j < LISTCOUNT -> j <> i ->
     rd st' (free_lists st + WSIZE * j) = rd st (free_lists st + WSIZE * j)) ->
  (forall j x, 0 <= j < LISTCOUNT -> j <> i -> In x (fl j) ->
     rd st' (x + OFF_PREV) = rd st (x + OFF_PREV)
     /\ rd st' (x + OFF_NEXT) = rd st (x + OFF_NEXT)) ->
  lmem (upd fl i l') st'.
Proof.
  intros [L1 L2] Hi Hf Hh Hl F1 F2. constructor; rewrite ?Hf; intros j Hj; unfold upd.
  - destruct (Z.eqb_spec j i) as [->|Hne]; [exact Hh|].
    rewrite F1 by assumption. apply L1. exact Hj.
  - destruct (Z.eqb_spec j i) as [->|Hne]; [exact Hl|].
    apply (lseg_frame st); [|apply L2; exact Hj].
    intros x Hx. apply (F2 j); assumption.
Qed.

(** ** Blocks on the lists *)

Lemma find_list_index_range s :
  32 <= s < 18446744073709551616 -> 3 <= find_list_index s < LISTCOUNT.
Proof.
  intros Hs. destruct (Z.lt_ge_cases s 512).
  - rewrite find_list_index_small by lia. unfold LISTCOUNT. zmod.
  - rewrite find_list_index_large by lia.
    pose proof (bit_length_nonneg (Z.shiftr s 10)). unfold LISTCOUNT. lia.
Qed.

Lemma listed_block pd bl fl st i a :
  base bl st -> lpure pd bl fl -> 0 <= i < LISTCOUNT -> In a (fl i) ->
  exists b, In b bl /\ b_addr b = a /\ b_tag b mod 4 = 0 /\ a <> pd
    /\ (i <> 0 -> find_list_index (b_size b) = i)
    /\ 3 <= find_list_index (b_size b) < 75
    /\ free_lists st + 600 <= prologue st /\ 0 <= free_lists st
    /\ prologue st + 8 <= a /\ a + b_size b <= epilogue st
    /\ 32 <= b_size b
    /\ epilogue st + 8 <= brk_hi st /\ brk_hi st < 18446744073709551616.
Proof.
  intros B P Hi Ha. destruct (lp_listed _ _ _ P i a Hi Ha) as (b & I & E & T & N & X).
  exists b. destruct (base_block _ _ _ B I) as (? & ? & ? & ? & ? & ? & ? & ? & ? & Ee & ? & ?).
  pose proof (find_list_index_range (b_size b)) as R. unfold LISTCOUNT in R.
  subst a. unfold b_end in *. repeat split; try assumption; try lia.
Qed.

Lemma listed_apart pd bl fl st i j x y :
  base bl st -> lpure pd bl fl -> 0 <= i < LISTCOUNT -> 0 <= j < LISTCOUNT ->
  In x (fl i) -> In y (fl j) -> x <> y -> x + 32 <= y \/ y + 32 <= x.
Proof.
  intros B P Hi Hj Hx Hy Hne.
  destruct (lp_listed _ _ _ P i x Hi Hx) as (bx & Ix & Ex & _).
  destruct (lp_listed _ _ _ P j y Hj Hy) as (by' & Iy & Ey & _).
  destruct (base_block _ _ _ B Ix) as (? & ? & ? & ? & ? & ? & ? & ? & ? & Eex & ? & ?).
  destruct (base_block _ _ _ B Iy) as (? & ? & ? & ? & ? & ? & ? & ? & ? & Eey & ? & ?).
  destruct (chain_apart _ _ _ _ _ (base_chain _ _ B) Ix Iy) as [E|D].
  - subst. contradiction.
  - unfold b_end in *. lia.
Qed.

(** ** Removal from a free list *)

Ltac rdwr1 :=
  match goal with
  | |- context [rd (wr ?c ?v ?s) ?c] =>
      rewrite (rd_wr_eq c v s) by first [lia | unfold NULL; lia]
  | |- context [rd (wr ?c ?v ?s) ?c'] => rewrite (rd_wr_ne c v s c') by lia
  | |- context [wrap ?z] => rewrite (wrap_small z) by lia
  end.
Ltac rdwr := repeat rdwr1.

Lemma free_list_remove_unlink b st :
  free_list_remove b st = HDRTOFTR b (MARKALLOC b (unlink b st)).
Proof. reflexivity. Qed.

Lemma list_slot_eq bl st i :
  base bl st -> 0 <= i < LISTCOUNT -> list_slot st i = free_lists st + WSIZE * i.
Proof.
  intros B Hi. pose proof (base_bounds _ _ B). unfold list_slot, WSIZE, LISTCOUNT in *.
  apply wrap_small. lia.
Qed.

Lemma lseg_mid st l1 a l2 :
  lseg st NULL (l1 ++ a :: l2) NULL ->
  rd st (a + OFF_PREV) = last l1 NULL /\ rd st (a + OFF_NEXT) = hd NULL l2.
Proof.
  intros H. apply lseg_app in H. destruct H as [_ H]. cbn [lseg] in H. tauto.
Qed.

Lemma unlink_eval bl fl st i a l1 l2 :
  rep 0 bl fl st -> 0 <= i < LISTCOUNT -> fl i = l1 ++ a :: l2 ->
  unlink a st = unlinked (free_lists st + WSIZE * i) a l1 l2 st.
Proof.
  intros (B & M & P) Hi Hfl.
  assert (Ha : In a (fl i)) by (rewrite Hfl; apply in_or_app; right; left; reflexivity).
  destruct (listed_block _ _ _ _ _ _ B P Hi Ha) as (b & Ib & Eb & Tb & _ & Xb & Rb & F1 & F2 & F3 & F4 & F5 & F6 & F7).
  pose proof (lp_nodup _ _ _ P i Hi) as ND. rewrite Hfl in ND.
  pose proof (NoDup_remove_2 _ _ _ ND) as Na.
  pose proof (lm_links _ _ M i Hi) as L. rewrite Hfl in L.
  destruct (lseg_mid _ _ _ _ L) as [Lp Ln]. unfold OFF_PREV, OFF_NEXT in Lp, Ln.
  assert (Hi' : i = 0 \/ i = find_list_index (b_size b)).
  { destruct (Z.eq_dec i 0); [left; assumption|right; symmetry; apply Xb; assumption]. }
  set (idx := find_list_index (b_size b)) in *.
  assert (Hidx : 0 <= idx < LISTCOUNT) by (unfold LISTCOUNT; lia).
  assert (H0 : 0 <= 0 < LISTCOUNT) by (unfold LISTCOUNT; lia).
  assert (Hnext : next_of st a = hd NULL l2).
  { unfold next_of, OFF_NEXT. rewrite wrap_small by lia. exact Ln. }
  assert (Hprev : prev_of st a = last l1 NULL).
  { unfold prev_of, OFF_PREV. rewrite wrap_small by lia. exact Lp. }
  (* the head of a list that holds [a] at its head is the list [i] *)
  assert (Hhd : forall k, 0 <= k < LISTCOUNT -> a = hd NULL (fl k) -> k = i /\ l1 = []).
  { intros k Hk E. assert (Ik : In a (fl k)).
    { rewrite E. apply hd_in. intros Ek. rewrite Ek in E. cbn in E. unfold NULL in E. lia. }
    assert (k = i) by (eapply lp_uniq; eassumption). subst k. split; [reflexivity|].
    rewrite Hfl in E. destruct l1 as [|x l1]; [reflexivity|]. cbn in E. subst x.
    exfalso. apply Na. left. reflexivity. }
  assert (Hsz : SIZE st a = b_size b) by (rewrite <- Eb; apply (SIZE_blk bl); assumption).
  unfold unlink. rewrite Hsz. fold idx.
  rewrite !(list_slot_eq bl) by assumption.
  rewrite (lm_heads _ _ M idx Hidx), (lm_heads _ _ M 0 H0). unfold WSIZE.
  rewrite Hnext, Hprev.
  destruct l1 as [|x l1'].
  - (* [a] is the head of its list *)
    assert (Eh : hd NULL (fl i) = a) by (rewrite Hfl; reflexivity).
    assert (Hsel : (if a =? hd NULL (fl idx) then free_lists st + 8 * idx else free_lists st + 8 * 0)
                   = free_lists st + 8 * i).
    { destruct (Z.eqb_spec a (hd NULL (fl idx))) as [E|E].
      - destruct (Hhd idx Hidx E) as [-> _]. reflexivity.
      - destruct Hi' as [->| ->]; [lia|]. fold idx in Eh. congruence. }
    assert (Hc : ((a =? hd NULL (fl idx)) || (a =? hd NULL (fl 0))) = true).
    { apply orb_true_iff. destruct Hi' as [->| ->].
      - right. apply Z.eqb_eq. congruence.
      - left. apply Z.eqb_eq. fold idx in Eh. congruence. }
    rewrite Hc, Hsel. unfold unlinked. cbn [last].
    destruct l2 as [|n l2'].
    + cbn [hd]. rewrite rd_wr_eq by (unfold NULL; lia). cbn [Z.eqb NULL].
      unfold next_of, OFF_NEXT. rewrite wrap_small by lia.
      unfold LISTCOUNT in *. rdwr. rewrite Ln. reflexivity.
    + cbn [hd] in *.
      assert (In n (fl i)) by (rewrite Hfl; right; left; reflexivity).
      destruct (listed_block _ _ _ _ _ _ B P Hi H) as (bn & _ & _ & _ & _ & _ & _ & _ & _ & N3 & N4 & N5 & _).
      assert (n <> a) by (intros ->; apply Na; left; reflexivity).
      pose proof (listed_apart _ _ _ _ _ _ _ _ B P Hi Hi H Ha H1) as Hap.
      rewrite rd_wr_eq by lia.
      destruct (Z.eqb_spec n NULL) as [E|_]; [unfold NULL in E; lia|].
      unfold set_prev, next_of, prev_of, OFF_NEXT, OFF_PREV.
      rewrite !wrap_small by lia. unfold LISTCOUNT in *. rdwr. rewrite Ln. rdwr. rewrite Lp.
      destruct (Z.eqb_spec n NULL) as [E|_]; [unfold NULL in E; lia|]. reflexivity.
  - (* [a] has a predecessor *)
    assert (Hc : ((a =? hd NULL (fl idx)) || (a =? hd NULL (fl 0))) = false).
    { apply orb_false_iff. split; apply Z.eqb_neq; intros E.
      - destruct (Hhd idx Hidx E) as [_ E']. discriminate.
      - destruct (Hhd 0 H0 E) as [_ E']. discriminate. }
    rewrite Hc. unfold unlinked.
    set (p := last (x :: l1') NULL) in *.
    assert (Ip : In p (fl i)).
    { rewrite Hfl. apply in_or_app. left. apply last_in. discriminate. }
    destruct (listed_block _ _ _ _ _ _ B P Hi Ip) as (bp & _ & _ & _ & _ & _ & _ & _ & _ & P3 & P4 & P5 & _).
    assert (Hpa : p <> a).
    { intros E. apply Na. apply in_or_app. left. rewrite <- E. apply last_in. discriminate. }
    pose proof (listed_apart _ _ _ _ _ _ _ _ B P Hi Hi Ip Ha Hpa) as Hap.
    unfold set_next, OFF_NEXT. rewrite (wrap_small (p + 8)) by lia.
    destruct l2 as [|n l2'].
    + cbn [hd] in *. unfold next_of, OFF_NEXT. rewrite wrap_small by lia. rdwr.
      rewrite Ln. reflexivity.
    + cbn [hd] in *.
      assert (In n (fl i)) by (rewrite Hfl; apply in_or_app; right; right; left; reflexivity).
      destruct (listed_block _ _ _ _ _ _ B P Hi H) as (bn & _ & _ & _ & _ & _ & _ & _ & _ & N3 & N4 & N5 & _).
      unfold set_prev, next_of, prev_of, OFF_NEXT, OFF_PREV.
      rewrite !wrap_small by lia. rdwr. rewrite Ln. rdwr. rewrite Lp.
      destruct (Z.eqb_spec n NULL) as [E|_]; [unfold NULL in E; lia|]. reflexivity.
Qed.

Lemma unlinked_globals slot a l1 l2 st :
  free_lists (unlinked slot a l1 l2 st) = free_lists st.
Proof. destruct l1, l2; reflexivity. Qed.

Lemma unlinked_frame slot a l1 l2 st c :
  (c + 8 <= slot \/ slot + 8 <= c) ->
  (l1 <> [] -> c + 8 <= last l1 NULL + 8 \/ last l1 NULL + 16 <= c) ->
  (l2 <> [] -> c + 8 <= hd NULL l2 + 16 \/ hd NULL l2 + 24 <= c) ->
  rd (unlinked slot a l1 l2 st) c = rd st c.
Proof.
  intros H1 H2 H3. unfold unlinked, OFF_NEXT, OFF_PREV.
  destruct l1 as [|x l1]; destruct l2 as [|n l2]; cbn [hd] in *.
  - rdwr. reflexivity.
  - specialize (H3 ltac:(discriminate)). rdwr. reflexivity.
  - specialize (H2 ltac:(discriminate)). rdwr. reflexivity.
  - specialize (H2 ltac:(discriminate)). specialize (H3 ltac:(discriminate)). rdwr. reflexivity.
Qed.

Lemma base_unlinked bl fl st i a l1 l2 :
  rep 0 bl fl st -> 0 <= i < LISTCOUNT -> fl i = l1 ++ a :: l2 ->
  base bl (unlinked (free_lists st + WSIZE * i) a l1 l2 st).
Proof.
  intros (B & M & P) Hi Hfl.
  assert (S1 : forall v st1, base bl st1 -> free_lists st1 = free_lists st ->
               base bl (wr (free_lists st + WSIZE * i) v st1)).
  { intros v st1 B1 E. apply base_wr_soft; [exact B1|]. left. rewrite E.
    unfold WSIZE, LISTCOUNT in *. lia. }
  assert (S2 : forall x k v st1, In x (fl i) -> 8 <= k <= 16 -> base bl st1 ->
               base bl (wr (x + k) v st1)).
  { intros x k v st1 Hx Hk B1. apply base_wr_soft; [exact B1|]. right.
    destruct (lp_listed _ _ _ P i x Hi Hx) as (b & Ib & Eb & _).
    exists b. split; [exact Ib|].
    destruct (base_block _ _ _ B Ib) as (? & ? & ? & ? & ? & ? & ? & ? & ? & Ee & ? & ?).
    lia. }
  unfold unlinked, OFF_NEXT, OFF_PREV.
  destruct l1 as [|x l1]; destruct l2 as [|n l2]; cbn [hd].
  - apply S1; [exact B|reflexivity].
  - assert (In n (fl i)) by (rewrite Hfl; right; left; reflexivity).
    apply S2; [assumption|lia|]. apply S2; [assumption|lia|]. apply S1; [exact B|reflexivity].
  - apply S2; [|lia|exact B]. rewrite Hfl. apply in_or_app. left. apply last_in. discriminate.
  - assert (In n (fl i)) by (rewrite Hfl; apply in_or_app; right; right; left; reflexivity).
    apply S2; [assumption|lia|]. apply S2; [|lia|exact B].
    rewrite Hfl. apply in_or_app. left. apply last_in. discriminate.
Qed.

Lemma block_addr_pos bl st b : base bl st -> In b bl -> b_addr b <> 0.
Proof.
  intros B Ib. destruct (base_block _ _ _ B Ib) as (? & ? & ? & _). lia.
Qed.

Lemma lpure_unlink bl fl st i a l1 l2 :
  base bl st -> lpure 0 bl fl -> 0 <= i < LISTCOUNT -> fl i = l1 ++ a :: l2 ->
  lpure a bl (upd fl i (l1 ++ l2)).
Proof.
  intros B P Hi Hfl.
  pose proof (lp_nodup _ _ _ P i Hi) as ND. rewrite Hfl in ND.
  pose proof (NoDup_remove_1 _ _ _ ND) as ND'.
  pose proof (NoDup_remove_2 _ _ _ ND) as Na.
  assert (Ha : In a (fl i)) by (rewrite Hfl; apply in_or_app; right; left; reflexivity).
  assert (Sub : forall j x, 0 <= j < LISTCOUNT -> In x (upd fl i (l1 ++ l2) j) ->
                In x (fl j) /\ x <> a).
  { intros j x Hj. unfold upd. destruct (Z.eqb_spec j i) as [->|Hne]; intros Hx.
    - rewrite Hfl. split.
      + apply in_app_or in Hx. apply in_or_app. destruct Hx; [left|right; right]; assumption.
      + intros ->. contradiction.
    - split; [exact Hx|]. intros ->. apply Hne. eapply lp_uniq; eassumption. }
  constructor.
  - intros j Hj. unfold upd. destruct (Z.eqb_spec j i); [exact ND'|]. apply (lp_nodup _ _ _ P); exact Hj.
  - intros j k x Hj Hk Hx Hy.
    destruct (Sub j x Hj Hx) as [Hx' _]. destruct (Sub k x Hk Hy) as [Hy' _].
    exact (lp_uniq _ _ _ P j k x Hj Hk Hx' Hy').
  - intros j x Hj Hx. destruct (Sub j x Hj Hx) as [Hx' Hne].
    destruct (lp_listed _ _ _ P j x Hj Hx') as (b & I1 & I2 & I3 & _ & I5).
    exists b. repeat split; assumption.
  - intros b Ib Hne. destruct (lp_free _ _ _ P b Ib (block_addr_pos _ _ _ B Ib)) as [T1 T2].
    split; [exact T1|]. intros T. destruct (T2 T) as (j & Hj & Hx). exists j. split; [exact Hj|].
    unfold upd. destruct (Z.eqb_spec j i) as [->|_]; [|exact Hx].
    rewrite Hfl in Hx. apply in_app_or in Hx. apply in_or_app.
    destruct Hx as [Hx|[Hx|Hx]]; [left; exact Hx|congruence|right; exact Hx].
Qed.

Lemma nodup_app_disj (l1 l2 : list Z) :
  NoDup (l1 ++ l2) -> forall x, In x l1 -> In x l2 -> False.
Proof.
  intros ND x H1 H2. apply in_split in H1. destruct H1 as (u & w & ->).
  rewrite <- app_assoc in ND. cbn [app] in ND.
  apply (NoDup_remove_2 _ _ _ ND). apply in_or_app. right. apply in_or_app. right. exact H2.
Qed.

Lemma lmem_unlinked bl fl st i a l1 l2 :
  rep 0 bl fl st -> 0 <= i < LISTCOUNT -> fl i = l1 ++ a :: l2 ->
  lmem (upd fl i (l1 ++ l2)) (unlinked (free_lists st + WSIZE * i) a l1 l2 st).
Proof.
  intros (B & M & P) Hi Hfl.
  pose proof (lp_nodup _ _ _ P i Hi) as ND. rewrite Hfl in ND.
  pose proof (NoDup_remove_1 _ _ _ ND) as ND'.
  pose proof (NoDup_remove_2 _ _ _ ND) as Na.
  pose proof (lm_links _ _ M i Hi) as L. rewrite Hfl in L.
  apply lseg_app in L. destruct L as [L1 L2]. cbn [hd lseg] in L1, L2.
  destruct L2 as (Lp & Ln & L2).
  assert (Ha : In a (fl i)) by (rewrite Hfl; apply in_or_app; right; left; reflexivity).
  assert (In1 : forall x, In x l1 -> In x (fl i)).
  { intros x Hx. rewrite Hfl. apply in_or_app. left. exact Hx. }
  assert (In2 : forall x, In x l2 -> In x (fl i)).
  { intros x Hx. rewrite Hfl. apply in_or_app. right. right. exact Hx. }
  (* a listed block against the two blocks whose links are rewritten *)
  assert (Ap : forall j x, 0 <= j < LISTCOUNT -> In x (fl j) ->
            free_lists st + 600 <= x < 18446744073709551616 - 32 /\
            (l1 <> [] -> x = last l1 NULL \/ x + 32 <= last l1 NULL \/ last l1 NULL + 32 <= x)
            /\ (l2 <> [] -> x = hd NULL l2 \/ x + 32 <= hd NULL l2 \/ hd NULL l2 + 32 <= x)).
  { intros j x Hj Hx.
    destruct (listed_block _ _ _ _ _ _ B P Hj Hx) as (b & _ & _ & _ & _ & _ & _ & F1 & F2 & F3 & F4 & F5 & F6 & F7).
    split; [lia|split]; intros Hl.
    - destruct (Z.eq_dec x (last l1 NULL)) as [E|E]; [left; exact E|right].
      apply (listed_apart _ _ _ _ j i _ _ B P Hj Hi Hx); [|exact E].
      apply In1. apply last_in. exact Hl.
    - destruct (Z.eq_dec x (hd NULL l2)) as [E|E]; [left; exact E|right].
      apply (listed_apart _ _ _ _ j i _ _ B P Hj Hi Hx); [|exact E].
      apply In2. apply hd_in. exact Hl. }
  pose proof (base_bounds _ _ B) as Hbb.
  pose proof (nodup_app_disj _ _ ND') as Dj.
  set (slot := free_lists st + WSIZE * i).
  set (st' := unlinked slot a l1 l2 st).
  assert (Fr : forall j x k, 0 <= j < LISTCOUNT -> In x (fl j) -> (k = 8 \/ k = 16) ->
            (k = 8 -> l1 <> [] -> x <> last l1 NULL) ->
            (k = 16 -> l2 <> [] -> x <> hd NULL l2) ->
            rd st' (x + k) = rd st (x + k)).
  { intros j x k Hj Hx Hk N1 N2. destruct (Ap j x Hj Hx) as (A0 & A1 & A2).
    unfold st'. apply unlinked_frame.
    - unfold slot, WSIZE, LISTCOUNT in *. lia.
    - intros Hl. specialize (A1 Hl). destruct Hk as [-> | ->]; [specialize (N1 eq_refl Hl)|]; lia.
    - intros Hl. specialize (A2 Hl). destruct Hk as [-> | ->]; [|specialize (N2 eq_refl Hl)]; lia. }
  apply (lmem_upd fl st); try assumption.
  - apply unlinked_globals.
  - fold slot. fold st'. rewrite hd_app. unfold st', unlinked, OFF_NEXT, OFF_PREV.
    destruct l1 as [|x l1]; cbn [hd].
    + destruct l2 as [|n l2]; cbn [hd].
      * rdwr. reflexivity.
      * destruct (Ap i n Hi (In2 n (or_introl eq_refl))) as (A0 & _).
        unfold slot, WSIZE, LISTCOUNT in *. rdwr. reflexivity.
    + pose proof (lm_heads _ _ M i Hi) as Hh. rewrite Hfl in Hh. cbn [app hd] in Hh.
      assert (Il : In (last (x :: l1) NULL) (fl i)) by (apply In1; apply last_in; discriminate).
      destruct (Ap i _ Hi Il) as (A0 & _).
      destruct l2 as [|n l2].
      * unfold slot, WSIZE, LISTCOUNT in *. rdwr. exact Hh.
      * destruct (Ap i n Hi (In2 n (or_introl eq_refl))) as (A0' & _).
        unfold slot, WSIZE, LISTCOUNT in *. rdwr. exact Hh.
  - fold slot. fold st'. apply lseg_app. split.
    + apply (lseg_relast st st' l1 NULL a).
      * exact L1.
      * apply NoDup_app_remove_r in ND. exact ND.
      * intros x Hx. apply (Fr i x 16); [exact Hi|apply In1; exact Hx|right; reflexivity|lia|].
        intros _ Hl E. subst x. apply (Dj (hd NULL l2)); [exact Hx|apply hd_in; exact Hl].
      * intros x Hx Hne. apply (Fr i x 8); [exact Hi|apply In1; exact Hx|left; reflexivity| |lia].
        intros _ _. exact Hne.
      * intros Hl.
        assert (Il : In (last l1 NULL) l1) by (apply last_in; exact Hl).
        destruct (Ap i _ Hi (In1 _ Il)) as (A0 & _ & A2).
        unfold st', unlinked, OFF_NEXT, OFF_PREV.
        destruct l1 as [|x l1]; [congruence|].
        destruct l2 as [|n l2]; cbn [hd].
        -- rdwr. reflexivity.
        -- specialize (A2 ltac:(discriminate)). cbn [hd] in A2.
           destruct (Ap i n Hi (In2 n (or_introl eq_refl))) as (A0' & _).
           assert (last (x :: l1) NULL <> n).
           { intros E. apply (Dj n); [rewrite <- E; exact Il|left; reflexivity]. }
           rdwr. reflexivity.
    + apply (lseg_rehead st st' l2 a (last l1 NULL) NULL).
      * exact L2.
      * apply NoDup_app_remove_l in ND. apply NoDup_cons_iff in ND. tauto.
      * intros x Hx. apply (Fr i x 8); [exact Hi|apply In2; exact Hx|left; reflexivity| |lia].
        intros _ Hl E. subst x. apply (Dj (last l1 NULL)); [apply last_in; exact Hl|exact Hx].
      * intros x Hx Hne. apply (Fr i x 16); [exact Hi|apply In2; exact Hx|right; reflexivity|lia|].
        intros _ _. exact Hne.
      * intros Hl. destruct l2 as [|n l2]; [congruence|]. cbn [hd].
        destruct (Ap i n Hi (In2 n (or_introl eq_refl))) as (A0' & A1 & _).
        unfold st', unlinked, OFF_NEXT, OFF_PREV.
        destruct l1 as [|x l1].
        -- cbn [last hd]. rdwr. reflexivity.
        -- specialize (A1 ltac:(discriminate)).
           assert (Il : In (last (x :: l1) NULL) (x :: l1)) by (apply last_in; discriminate).
           destruct (Ap i _ Hi (In1 _ Il)) as (A0 & _).
           rdwr. reflexivity.
  - intros j Hj Hne. unfold st'. apply unlinked_frame.
    + unfold slot, WSIZE. lia.
    + intros Hl. destruct (Ap i _ Hi (In1 _ (last_in l1 NULL Hl))) as (A0 & _).
      unfold WSIZE, LISTCOUNT in *. lia.
    + intros Hl. destruct (Ap i _ Hi (In2 _ (hd_in l2 NULL Hl))) as (A0 & _).
      unfold WSIZE, LISTCOUNT in *. lia.
  - intros j x Hj Hne Hx. 
    assert (Nx : forall y, In y (fl i) -> x <> y).
    { intros y Hy E. subst y. apply Hne. eapply lp_uniq; eassumption. }
    unfold OFF_PREV, OFF_NEXT. split.
    + apply (Fr j x 16); [exact Hj|exact Hx|right; reflexivity|lia|].
      intros _ Hl. apply Nx. apply In2. apply hd_in. exact Hl.
    + apply (Fr j x 8); [exact Hj|exact Hx|left; reflexivity| |lia].
      intros _ Hl. apply Nx. apply In1. apply last_in. exact Hl.
Qed.

Lemma unlink_spec bl fl st i a l1 l2 :
  rep 0 bl fl st -> 0 <= i < LISTCOUNT -> fl i = l1 ++ a :: l2 ->
  rep a bl (upd fl i (l1 ++ l2)) (unlink a st).
Proof.
  intros R Hi Hfl. rewrite (unlink_eval _ _ _ _ _ _ _ R Hi Hfl).
  split; [|split].
  - eapply base_unlinked; eassumption.
  - eapply lmem_unlinked; eassumption.
  - destruct R as (B & _ & P). eapply lpure_unlink; eassumption.
Qed.

(** ** Changes confined to a few words *)

Lemma agree_off_refl cs st : agree_off cs st st.
Proof. unfold agree_off. tauto. Qed.

Lemma agree_off_wr cs st st' c v :
  agree_off cs st st' -> In c cs -> agree_off cs st (wr c v st').
Proof.
  intros (H1 & H2 & H3 & H4 & H5 & H6 & H7 & H8 & H9) Hc.
  unfold agree_off. wr_simpl. repeat split; try assumption.
  intros x Hx. rewrite <- (H9 x Hx). unfold wr. cbn. unfold store.
  destruct (Hx c Hc).
  - destruct (Z.leb_spec c x); [lia|]. reflexivity.
  - destruct (Z.ltb_spec x (c + 8)); [lia|]. rewrite andb_false_r. reflexivity.
Qed.

Lemma agree_off_rd cs st st' a :
  agree_off cs st st' -> (forall c, In c cs -> a + 8 <= c \/ c + 8 <= a) ->
  rd st' a = rd st a.
Proof.
  intros (_ & _ & _ & _ & _ & _ & _ & _ & H9) Ha.
  unfold rd, load. apply load_bytes_ext. intros i Hi. apply H9.
  intros c Hc. specialize (Ha c Hc). lia.
Qed.

Lemma lmem_agree bl fl st st' cs :
  lmem fl st -> agree_off cs st st' -> (forall c, In c cs -> hard bl fl st c) ->
  lmem fl st'.
Proof.
  intros [L1 L2] A Hc. pose proof A as (A1 & A2 & A3 & A4 & A5 & A6 & A7 & A8 & A9).
  constructor; rewrite ?A6; intros i Hi.
  - rewrite (agree_off_rd _ _ _ _ A); [apply L1; exact Hi|].
    intros c Hcc. destruct (Hc c Hcc) as [H _]. unfold WSIZE, LISTCOUNT in *. lia.
  - apply (lseg_frame st); [|apply L2; exact Hi].
    intros a Ha. unfold OFF_PREV, OFF_NEXT.
    split; apply (agree_off_rd _ _ _ _ A); intros c Hcc;
      destruct (Hc c Hcc) as [_ H]; specialize (H i a Hi Ha); lia.
Qed.

(** ** Boundary tags *)

Lemma unlisted_pending pd bl fl st b :
  base bl st -> lpure pd bl fl -> In b bl ->
  pd = b_addr b \/ b_tag b mod 4 <> 0 -> unlisted fl (b_addr b).
Proof.
  intros B P Ib H i Hi Hin.
  destruct (lp_listed _ _ _ P i _ Hi Hin) as (b' & Ib' & E & T & N & _).
  destruct H as [H|H]; [congruence|].
  apply (chain_addr_inj _ _ _ _ _ (base_chain _ _ B) Ib' Ib) in E. subst b'. contradiction.
Qed.

(** The header and the footer of any block are hard. *)
Lemma hard_tag pd bl fl st b c :
  base bl st -> lpure pd bl fl -> In b bl ->
  c = b_addr b \/ c = b_end b - 8 -> hard bl fl st c.
Proof.
  intros B P Ib Hc.
  destruct (base_block _ _ _ B Ib) as (? & ? & ? & ? & ? & ? & ? & ? & ? & Ee & ? & ?).
  split; [unfold WSIZE, LISTCOUNT; lia|].
  intros i a Hi Ha.
  destruct (lp_listed _ _ _ P i a Hi Ha) as (b' & Ib' & E' & _).
  destruct (base_block _ _ _ B Ib') as (? & ? & ? & ? & ? & ? & ? & ? & ? & Ee' & ? & ?).
  destruct (chain_apart _ _ _ _ _ (base_chain _ _ B) Ib Ib') as [E|D].
  - subst b'. subst a. lia.
  - subst a. lia.
Qed.

Lemma base_retag bl st st' b t :
  base bl st -> In b bl -> 0 <= t < 8 ->
  agree_off [b_addr b; b_end b - 8] st st' ->
  rd st' (b_addr b) = b_size b + t -> rd st' (b_end b - 8) = b_size b + t ->
  base (retag (b_addr b) t bl) st'.
Proof.
  intros B Ib Ht A H1 H2.
  destruct (base_block _ _ _ B Ib) as (? & ? & ? & ? & ? & ? & ? & ? & ? & Ee & ? & ?).
  pose proof A as (A1 & A2 & A3 & A4 & A5 & A6 & A7 & A8 & A9).
  pose proof B as [B1 B2 B3 B4 B5 B6 B7].
  constructor; rewrite ?A1, ?A2, ?A3, ?A4, ?A5, ?A6, ?A7, ?A8; try assumption.
  - apply chain_retag; assumption.
  - rewrite (agree_off_rd _ _ _ _ A); [exact B5|]. cbn [In]. intros c [<-|[<-|[]]]; lia.
  - rewrite (agree_off_rd _ _ _ _ A); [exact B6|]. cbn [In]. intros c [<-|[<-|[]]]; lia.
  - intros b' Ib'. apply in_retag in Ib'. destruct Ib' as (b0 & I0 & E1 & E2 & E3 & E4).
    unfold b_hdr, b_end, WSIZE. rewrite E1, E2.
    destruct (Z.eq_dec (b_addr b0) (b_addr b)) as [E|E].
    + apply (chain_addr_inj _ _ _ _ _ B3 I0 Ib) in E. subst b0.
      rewrite (E3 eq_refl). unfold b_end in *. split; assumption.
    + rewrite (E4 E).
      destruct (base_block _ _ _ B I0) as (? & ? & ? & ? & ? & ? & ? & ? & ? & Ee0 & G1 & G2).
      destruct (chain_apart _ _ _ _ _ B3 I0 Ib) as [E0|D]; [subst; contradiction|].
      unfold b_end in *.
      rewrite !(agree_off_rd _ _ _ _ A); [split; assumption| |];
        cbn [In]; intros c [<-|[<-|[]]]; lia.
Qed.

Lemma lpure_retag pd pd' bl fl st b t :
  base bl st -> lpure pd bl fl -> In b bl ->
  pd = b_addr b \/ (pd = 0 /\ b_tag b mod 4 <> 0) ->
  pd' = b_addr b \/ (pd' = 0 /\ t mod 4 = 1) ->
  lpure pd' (retag (b_addr b) t bl) fl.
Proof.
  intros B P Ib Hpd Hpd'.
  assert (U : unlisted fl (b_addr b)).
  { eapply unlisted_pending; try eassumption. tauto. }
  constructor.
  - apply (lp_nodup _ _ _ P).
  - apply (lp_uniq _ _ _ P).
  - intros i a Hi Ha. destruct (lp_listed _ _ _ P i a Hi Ha) as (b0 & I0 & E0 & T0 & N0 & X0).
    assert (Hne : b_addr b0 <> b_addr b).
    { intros E. apply (U i Hi). rewrite <- E, E0. exact Ha. }
    exists b0. repeat split; try assumption.
    + pose proof (retag_in (b_addr b) t bl b0 I0) as R.
      destruct (Z.eqb_spec (b_addr b0) (b_addr b)); [contradiction|exact R].
    + destruct Hpd' as [->|[-> _]]; [congruence|].
      rewrite <- E0. eapply block_addr_pos; eassumption.
  - intros b' Ib' Hne. apply in_retag in Ib'. destruct Ib' as (b0 & I0 & E1 & E2 & E3 & E4).
    destruct (Z.eq_dec (b_addr b0) (b_addr b)) as [E|E].
    + rewrite (E3 E). destruct Hpd' as [->|[-> Ht]]; [congruence|].
      split; [lia|]. intros Hz. lia.
    + rewrite (E4 E). apply (lp_free _ _ _ P b0 I0).
      destruct Hpd as [->|[-> _]]; [exact E|]. eapply block_addr_pos; eassumption.
Qed.

(** ** Marking a block allocated or free *)

Section Marks.
Variables (pd : Z) (bl : list blk) (fl : Z -> list Z) (st : state) (b : blk).
Hypothesis R : rep pd bl fl st.
Hypothesis Ib : In b bl.
Hypothesis Hpd : pd = b_addr b \/ (pd = 0 /\ b_tag b mod 4 <> 0).

Local Abbreviation a := (b_addr b).
Local Abbreviation s := (b_size b).
Local Abbreviation t := (b_tag b).

Lemma retag_state t' :
  0 <= t' < 8 -> forall pd', pd' = a \/ (pd' = 0 /\ t' mod 4 = 1) ->
  forall st1, agree_off [a; a + s - 8] st st1 -> rd st1 a = s + t' ->
  rep pd' (retag a t' bl) fl (wr (a + s - 8) (s + t') st1).
Proof.
  intros Ht' pd' Hpd' st1 A H1. destruct R as (B & M & P).
  destruct (base_block _ _ _ B Ib) as (? & ? & ? & ? & ? & ? & ? & ? & ? & Ee & G1 & G2).
  unfold b_end in *.
  assert (A' : agree_off [a; a + s - 8] st (wr (a + s - 8) (s + t') st1)).
  { apply agree_off_wr; [exact A|]. right. left. reflexivity. }
  split; [|split].
  - apply (base_retag bl st); try assumption; unfold b_end.
    + rdwr. exact H1.
    + rdwr. reflexivity.
  - apply (lmem_agree bl fl st _ _ M A').
    intros c Hc. apply (hard_tag pd bl fl st b); try assumption.
    unfold b_end. cbn [In] in Hc. destruct Hc as [<-|[<-|[]]]; [left|right]; reflexivity.
  - eapply lpure_retag; eassumption.
Qed.

Lemma mark_alloc_state :
  HDRTOFTR a (MARKALLOC a st) = wr (a + s - 8) (s + (t - t mod 4 + 1)) (wr a (s + (t - t mod 4 + 1)) st).
Proof.
  destruct R as (B & M & P).
  destruct (base_block _ _ _ B Ib) as (? & ? & ? & ? & ? & ? & ? & ? & ? & Ee & G1 & G2).
  unfold b_end in *.
  assert (Ht' : 0 <= t - t mod 4 + 1 < 8) by zmod.
  unfold HDRTOFTR, MARKALLOC, GETFTR, SIZE. rewrite G1.
  rewrite hdr_markalloc by lia. rdwr.
  rewrite hdr_size by lia. unfold WSIZE. rdwr. reflexivity.
Qed.

Lemma mark_alloc_spec :
  rep 0 (retag a (t - t mod 4 + 1) bl) fl (HDRTOFTR a (MARKALLOC a st)).
Proof.
  rewrite mark_alloc_state.
  destruct R as (B & M & P).
  destruct (base_block _ _ _ B Ib) as (? & ? & ? & ? & ? & ? & ? & ? & ? & Ee & G1 & G2).
  unfold b_end in *.
  assert (Ht' : 0 <= t - t mod 4 + 1 < 8) by zmod.
  apply retag_state; [exact Ht'|right; split; [reflexivity|zmod]| |].
  - apply agree_off_wr; [apply agree_off_refl|left; reflexivity].
  - rdwr. reflexivity.
Qed.

Lemma mark_free_state :
  HDRTOFTR a (MARKUNQUICK a (MARKFREE a st))
  = wr (a + s - 8) (s + (t - t mod 4)) (wr a (s + (t - t mod 4)) (wr a (s + (t - t mod 2)) st)).
Proof.
  destruct R as (B & M & P).
  destruct (base_block _ _ _ B Ib) as (? & ? & ? & ? & ? & ? & ? & ? & ? & Ee & G1 & G2).
  unfold b_end in *.
  assert (Ht1 : 0 <= t - t mod 2 < 8) by zmod.
  assert (Ht2 : 0 <= t - t mod 4 < 8) by zmod.
  unfold HDRTOFTR, MARKUNQUICK, MARKFREE, GETFTR, SIZE. rewrite G1.
  rewrite hdr_markfree by lia. rdwr.
  rewrite hdr_markunquick by lia.
  replace (t - t mod 2 - (t - t mod 2) mod 4 + (t - t mod 2) mod 2) with (t - t mod 4) by zmod.
  rdwr. rewrite hdr_size by lia. unfold WSIZE. rdwr. reflexivity.
Qed.

Lemma mark_free_spec :
  rep a (retag a (t - t mod 4) bl) fl (HDRTOFTR a (MARKUNQUICK a (MARKFREE a st))).
Proof.
  rewrite mark_free_state.
  destruct R as (B & M & P).
  destruct (base_block _ _ _ B Ib) as (? & ? & ? & ? & ? & ? & ? & ? & ? & Ee & G1 & G2).
  unfold b_end in *.
  assert (Ht1 : 0 <= t - t mod 2 < 8) by zmod.
  assert (Ht2 : 0 <= t - t mod 4 < 8) by zmod.
  apply retag_state; [exact Ht2|left; reflexivity| |].
  - apply agree_off_wr; [|left; reflexivity].
    apply agree_off_wr; [apply agree_off_refl|left; reflexivity].
  - rdwr. reflexivity.
Qed.
End Marks.

(** ** [free_list_remove] and [free_list_insert] *)

Lemma free_list_remove_spec bl fl st i a l1 l2 :
  rep 0 bl fl st -> 0 <= i < LISTCOUNT -> fl i = l1 ++ a :: l2 ->
  exists b, In b bl /\ b_addr b = a /\ b_tag b mod 4 = 0
    /\ rep 0 (retag a (b_tag b + 1) bl) (upd fl i (l1 ++ l2)) (free_list_remove a st).
Proof.
  intros R Hi Hfl. pose proof (unlink_spec _ _ _ _ _ _ _ R Hi Hfl) as R1.
  destruct R as (B & M & P).
  assert (Ha : In a (fl i)) by (rewrite Hfl; apply in_or_app; right; left; reflexivity).
  destruct (lp_listed _ _ _ P i a Hi Ha) as (b & Ib & Eb & Tb & _).
  exists b. split; [exact Ib|split; [exact Eb|split; [exact Tb|]]].
  rewrite free_list_remove_unlink. subst a.
  replace (b_tag b + 1) with (b_tag b - b_tag b mod 4 + 1) by lia.
  apply (mark_alloc_spec (b_addr b)); [exact R1|exact Ib|left; reflexivity].
Qed.

Lemma free_list_insert_links new_block unsorted st :
  free_list_insert new_block unsorted st
  = insert_links
      (if unsorted then list_slot st 0
       else list_slot st (find_list_index (SIZE st new_block)))
      new_block (HDRTOFTR new_block (MARKUNQUICK new_block (MARKFREE new_block st))).
Proof. reflexivity. Qed.

Lemma lpure_insert bl fl st b i :
  base bl st -> lpure (b_addr b) bl fl -> In b bl -> b_tag b mod 4 = 0 ->
  0 <= i < LISTCOUNT -> (i <> 0 -> find_list_index (b_size b) = i) ->
  lpure 0 bl (upd fl i (b_addr b :: fl i)).
Proof.
  intros B P Ib Tb Hi Hidx.
  assert (U : unlisted fl (b_addr b)).
  { eapply unlisted_pending; try eassumption. left. reflexivity. }
  assert (Sub : forall j x, 0 <= j < LISTCOUNT -> In x (upd fl i (b_addr b :: fl i) j) ->
                (j = i /\ x = b_addr b) \/ In x (fl j)).
  { intros j x Hj. unfold upd. destruct (Z.eqb_spec j i) as [->|Hne]; intros Hx.
    - destruct Hx as [<-|Hx]; [left; split; reflexivity|right; exact Hx].
    - right. exact Hx. }
  constructor.
  - intros j Hj. unfold upd. destruct (Z.eqb_spec j i) as [->|_].
    + constructor; [apply U; exact Hi|apply (lp_nodup _ _ _ P); exact Hi].
    + apply (lp_nodup _ _ _ P); exact Hj.
  - intros j k x Hj Hk Hx Hy.
    destruct (Sub j x Hj Hx) as [[Ej Ex]|Hx']; destruct (Sub k x Hk Hy) as [[Ek Ex']|Hy'].
    + congruence.
    + exfalso. apply (U k Hk). rewrite <- Ex. exact Hy'.
    + exfalso. apply (U j Hj). rewrite <- Ex'. exact Hx'.
    + exact (lp_uniq _ _ _ P j k x Hj Hk Hx' Hy').
  - intros j x Hj Hx. destruct (Sub j x Hj Hx) as [[-> ->]|Hx'].
    + exists b. repeat split; try assumption. eapply block_addr_pos; eassumption.
    + destruct (lp_listed _ _ _ P j x Hj Hx') as (b0 & I1 & I2 & I3 & _ & I5).
      exists b0. repeat split; try assumption.
      rewrite <- I2. eapply block_addr_pos; eassumption.
  - intros b0 I0 _. destruct (Z.eq_dec (b_addr b0) (b_addr b)) as [E|E].
    + apply (chain_addr_inj _ _ _ _ _ (base_chain _ _ B) I0 Ib) in E. subst b0.
      split; [lia|]. intros _. exists i. split; [exact Hi|].
      unfold upd. rewrite Z.eqb_refl. left. reflexivity.
    + destruct (lp_free _ _ _ P b0 I0 E) as [T1 T2]. split; [exact T1|].
      intros T. destruct (T2 T) as (j & Hj & Hx). exists j. split; [exact Hj|].
      unfold upd. destruct (Z.eqb_spec j i) as [->|_]; [right|]; exact Hx.
Qed.

Lemma lseg_cons_intro st p x l n :
  rd st (x + OFF_PREV) = p -> rd st (x + OFF_NEXT) = hd n l -> lseg st x l n ->
  lseg st p (x :: l) n.
Proof. intros H1 H2 H3. cbn [lseg]. repeat split; assumption. Qed.

Lemma insert_links_spec bl fl st b i :
  rep (b_addr b) bl fl st -> In b bl -> b_tag b mod 4 = 0 ->
  0 <= i < LISTCOUNT -> (i <> 0 -> find_list_index (b_size b) = i) ->
  rep 0 bl (upd fl i (b_addr b :: fl i))
      (insert_links (free_lists st + WSIZE * i) (b_addr b) st).
Proof.
  intros (B & M & P) Ib Tb Hi Hidx.
  assert (U : unlisted fl (b_addr b)).
  { eapply unlisted_pending; try eassumption. left. reflexivity. }
  destruct (base_block _ _ _ B Ib) as (F1 & F2 & F3 & F4 & F5 & F6 & F7 & F8 & F9 & Ee & G1 & G2).
  unfold b_end in *. set (a := b_addr b) in *. set (slot := free_lists st + WSIZE * i).
  pose proof (lm_heads _ _ M i Hi) as Hh. fold slot in Hh.
  pose proof (lm_links _ _ M i Hi) as Hl.
  assert (Hslot : free_lists st <= slot /\ slot + 8 <= free_lists st + 600).
  { unfold slot, WSIZE, LISTCOUNT in *. lia. }
  assert (Ap : forall j x, 0 <= j < LISTCOUNT -> In x (fl j) ->
            prologue st + 8 <= x < 18446744073709551616 - 32
            /\ (x + 32 <= a \/ a + 32 <= x)).
  { intros j x Hj Hx.
    destruct (listed_block _ _ _ _ _ _ B P Hj Hx) as (bx & Ix & Ex & _ & _ & _ & _ & X1 & X2 & X3 & X4 & X5 & X6 & X7).
    split; [lia|].
    destruct (chain_apart _ _ _ _ _ (base_chain _ _ B) Ix Ib) as [E|D].
    - subst bx. exfalso. apply (U j Hj). unfold a. rewrite Ex. exact Hx.
    - unfold b_end in D. fold a in D. rewrite Ex in D.
      destruct (base_block _ _ _ B Ix) as (_ & _ & _ & _ & _ & _ & Y7 & _).
      lia. }
  (* the writes, whichever the branch *)
  assert (S1 : forall v st1, base bl st1 -> free_lists st1 = free_lists st ->
               base bl (wr slot v st1)).
  { intros v st1 B1 E. apply base_wr_soft; [exact B1|]. left. rewrite E.
    unfold WSIZE, LISTCOUNT. lia. }
  assert (S2 : forall k v st1, 8 <= k <= 16 -> base bl st1 -> base bl (wr (a + k) v st1)).
  { intros k v st1 Hk B1. apply base_wr_soft; [exact B1|]. right. exists b.
    split; [exact Ib|]. unfold b_end. fold a. lia. }
  assert (S3 : forall x v st1, In x (fl i) -> base bl st1 -> base bl (wr (x + 16) v st1)).
  { intros x v st1 Hx B1. apply base_wr_soft; [exact B1|]. right.
    destruct (lp_listed _ _ _ P i x Hi Hx) as (bx & Ix & Ex & _).
    exists bx. split; [exact Ix|].
    destruct (base_block _ _ _ B Ix) as (? & ? & ? & ? & ? & ? & ? & ? & ? & Eex & ? & ?). lia. }
  unfold insert_links. rewrite Hh. unfold set_next, set_prev, OFF_NEXT, OFF_PREV.
  assert (Hcase : fl i = [] \/ exists h l, fl i = h :: l).
  { destruct (fl i) as [|h l]; [left; reflexivity|right; exists h, l; reflexivity]. }
  destruct Hcase as [Hfl|(h & l & Hfl)]; rewrite Hfl in Hh, Hl |- *; cbn [hd] in *.
  - (* empty list *)
    cbn [Z.eqb NULL]. rdwr.
    split; [|split].
    + apply S2; [lia|]. apply S2; [lia|]. apply S1; [exact B|reflexivity].
    + rewrite <- Hfl. apply (lmem_upd fl st); try assumption.
      * reflexivity.
      * fold slot. cbn [hd]. rdwr. reflexivity.
      * rewrite Hfl. cbn [lseg hd]. unfold OFF_PREV, OFF_NEXT. rdwr. repeat split; reflexivity.
      * intros j Hj Hne. unfold slot in *. unfold WSIZE, LISTCOUNT in *. rdwr. reflexivity.
      * intros j x Hj Hne Hx. destruct (Ap j x Hj Hx) as [A1 A2].
        unfold OFF_PREV, OFF_NEXT. rdwr. split; reflexivity.
    + rewrite <- Hfl. eapply lpure_insert; eassumption.
  - (* the list has a head *)
    assert (Ih : In h (fl i)) by (rewrite Hfl; left; reflexivity).
    destruct (Ap i h Hi Ih) as [A1 A2].
    destruct (Z.eqb_spec h NULL) as [E|_]; [unfold NULL in E; lia|].
    rdwr. rewrite Hh. rdwr.
    split; [|split].
    + apply S2; [lia|]. apply S1; [|reflexivity]. apply S3; [exact Ih|]. apply S2; [lia|exact B].
    + rewrite <- Hfl. apply (lmem_upd fl st); try assumption.
      * reflexivity.
      * fold slot. cbn [hd]. rdwr. reflexivity.
      * rewrite Hfl. apply lseg_cons_intro; unfold OFF_PREV, OFF_NEXT; cbn [hd].
        { rdwr. reflexivity. }
        { rdwr. reflexivity. }
        apply (lseg_rehead st _ (h :: l) NULL a NULL Hl).
        -- rewrite <- Hfl. apply (lp_nodup _ _ _ P). exact Hi.
        -- intros x Hx. rewrite <- Hfl in Hx. destruct (Ap i x Hi Hx) as [X1 X2].
           unfold OFF_NEXT. destruct (Z.eq_dec x h) as [->|Hxh].
           ++ rdwr. reflexivity.
           ++ pose proof (listed_apart _ _ _ _ _ _ _ _ B P Hi Hi Hx Ih Hxh).
              rdwr. reflexivity.
        -- intros x Hx Hne. rewrite <- Hfl in Hx. destruct (Ap i x Hi Hx) as [X1 X2].
           cbn [hd] in Hne.
           pose proof (listed_apart _ _ _ _ _ _ _ _ B P Hi Hi Hx Ih Hne).
           unfold OFF_PREV. rdwr. reflexivity.
        -- intros _. cbn [hd]. unfold OFF_PREV. rdwr. reflexivity.
      * intros j Hj Hne. unfold slot in *. unfold WSIZE, LISTCOUNT in *. rdwr. reflexivity.
      * intros j x Hj Hne Hx. destruct (Ap j x Hj Hx) as [X1 X2].
        assert (x <> h) by (intros ->; apply Hne; eapply lp_uniq; eassumption).
        pose proof (listed_apart _ _ _ _ _ _ _ _ B P Hj Hi Hx Ih H).
        unfold OFF_PREV, OFF_NEXT. rdwr. split; reflexivity.
    + rewrite <- Hfl. eapply lpure_insert; eassumption.
Qed.

Lemma free_list_insert_spec pd bl fl st b (unsorted : bool) :
  rep pd bl fl st -> In b bl ->
  pd = b_addr b \/ (pd = 0 /\ b_tag b mod 4 <> 0) ->
  rep 0 (retag (b_addr b) (b_tag b - b_tag b mod 4) bl)
      (upd fl (if unsorted then 0 else find_list_index (b_size b))
           (b_addr b :: fl (if unsorted then 0 else find_list_index (b_size b))))
      (free_list_insert (b_addr b) unsorted st).
Proof.
  intros R Ib Hpd. pose proof (mark_free_spec _ _ _ _ _ R Ib Hpd) as R1.
  pose proof (mark_free_state _ _ _ _ _ R Ib) as E1.
  destruct R as (B & M & P).
  destruct (base_block _ _ _ B Ib) as (F1 & F2 & F3 & F4 & F5 & F6 & F7 & F8 & F9 & Ee & G1 & G2).
  pose proof (find_list_index_range (b_size b)) as Hr. unfold b_end in *.
  set (i := if unsorted then 0 else find_list_index (b_size b)).
  assert (Hi : 0 <= i < LISTCOUNT).
  { unfold i. destruct unsorted; unfold LISTCOUNT in *; lia. }
  rewrite free_list_insert_links.
  replace (if unsorted then list_slot st 0
           else list_slot st (find_list_index (SIZE st (b_addr b))))
    with (free_lists st + WSIZE * i).
  2:{ unfold i. rewrite (SIZE_blk bl st b B Ib).
      destruct unsorted; symmetry; apply (list_slot_eq bl); try assumption;
        unfold LISTCOUNT in *; lia. }
  set (st1 := HDRTOFTR (b_addr b) (MARKUNQUICK (b_addr b) (MARKFREE (b_addr b) st))) in *.
  assert (Ef : free_lists st1 = free_lists st) by (rewrite E1; reflexivity).
  rewrite <- Ef.
  set (b' := mkBlk (b_addr b) (b_size b) (b_tag b - b_tag b mod 4)).
  assert (Ib' : In b' (retag (b_addr b) (b_tag b - b_tag b mod 4) bl)).
  { pose proof (retag_in (b_addr b) (b_tag b - b_tag b mod 4) bl b Ib) as H.
    rewrite Z.eqb_refl in H. exact H. }
  apply (insert_links_spec (retag (b_addr b) (b_tag b - b_tag b mod 4) bl) fl st1 b' i);
    try assumption.
  - cbn. zmod.
  - intros Hne. unfold i in *. destruct unsorted; [congruence|reflexivity].
Qed.

(** ** Changes of the layout *)

Lemma rep_ext pd bl fl fl' st :
  (forall i, 0 <= i < LISTCOUNT -> fl' i = fl i) -> rep pd bl fl st -> rep pd bl fl' st.
Proof.
  intros E (B & [M1 M2] & [P1 P2 P3 P4]). split; [exact B|split]; constructor.
  - intros i Hi. rewrite E by exact Hi. apply M1. exact Hi.
  - intros i Hi. rewrite E by exact Hi. apply M2. exact Hi.
  - intros i Hi. rewrite E by exact Hi. apply P1. exact Hi.
  - intros i j a Hi Hj. rewrite !E by assumption. apply P2; assumption.
  - intros i a Hi. rewrite E by exact Hi. apply P3. exact Hi.
  - intros b Ib Hne. destruct (P4 b Ib Hne) as [T1 T2]. split; [exact T1|].
    intros T. destruct (T2 T) as (i & Hi & Hx). exists i. split; [exact Hi|].
    rewrite E by exact Hi. exact Hx.
Qed.

Lemma remove_notin (a : Z) l : ~ In a l -> remove Z.eq_dec a l = l.
Proof. apply notin_remove. Qed.

Lemma remove_mid (a : Z) l1 l2 :
  NoDup (l1 ++ a :: l2) -> remove Z.eq_dec a (l1 ++ a :: l2) = l1 ++ l2.
Proof.
  intros ND. pose proof (NoDup_remove_2 _ _ _ ND) as Na.
  rewrite remove_app. cbn [remove]. destruct (Z.eq_dec a a); [|congruence].
  rewrite !remove_notin; [reflexivity| |]; intros H; apply Na; apply in_or_app; tauto.
Qed.

(** The blocks [old], all allocated, are replaced by the blocks [new], which
    tile the same addresses, or more of them when [old] ends the heap. *)
Lemma rep_restructure pd' l1 old new l2 fl st st' s e' :
  rep 0 (l1 ++ old ++ l2) fl st ->
  init st' = init st -> free_lists st' = free_lists st -> prologue st' = prologue st ->
  epilogue st' + WSIZE <= brk st' -> brk_lo st' <= brk st' -> brk st' <= brk_hi st' ->
  brk_hi st' < SIZE_MAX ->
  (forall x, In x old -> b_tag x mod 4 = 1) ->
  chain l1 (prologue st + WSIZE) s -> chain new s e' -> chain l2 e' (epilogue st') ->
  (forall c, c + 8 <= s -> rd st' c = rd st c) ->
  (forall b c, In b l2 -> b_addr b <= c -> rd st' c = rd st c) ->
  rd st' (epilogue st') mod 4 = 1 ->
  (forall x, In x new -> rd st' (b_addr x) = b_hdr x /\ rd st' (b_end x - WSIZE) = b_hdr x) ->
  (forall x, In x new -> b_addr x <> pd' -> b_tag x mod 4 = 1) ->
  (pd' = 0 \/ s <= pd' < e') ->
  rep pd' (l1 ++ new ++ l2) fl st'.
Proof.
  intros (B & M & P) Ei Ef Ep K1 K2 K3 K4 Hold C1 Cn C2 Flo Fhi Hepi Hnew Htag Hpd.
  pose proof (base_chain _ _ B) as C.
  apply chain_app in C. destruct C as (s0 & C1' & C). 
  pose proof (chain_fun _ _ _ _ C1 C1'). subst s0.
  apply chain_app in C. destruct C as (e & Co & C2').
  pose proof (base_bounds _ _ B) as (Q1 & Q2 & Q3 & Q4 & Q5 & Q6).
  pose proof (chain_le _ _ _ C1) as Ls. pose proof (chain_le _ _ _ Cn) as Ln.
  pose proof (chain_le _ _ _ C2) as L2. pose proof (chain_le _ _ _ Co) as Lo.
  pose proof (chain_le _ _ _ C2') as L2'. unfold WSIZE in *.
  (* a listed block is in [l1] or in [l2] *)
  assert (Hl : forall i a, 0 <= i < LISTCOUNT -> In a (fl i) ->
            exists b, (In b l1 \/ In b l2) /\ b_addr b = a /\ b_tag b mod 4 = 0
                      /\ (i <> 0 -> find_list_index (b_size b) = i)).
  { intros i a Hi Ha. destruct (lp_listed _ _ _ P i a Hi Ha) as (b & Ib & Eb & Tb & _ & Xb).
    exists b. repeat split; try assumption.
    apply in_app_or in Ib. destruct Ib as [Ib|Ib]; [left; exact Ib|].
    apply in_app_or in Ib. destruct Ib as [Ib|Ib]; [|right; exact Ib].
    specialize (Hold b Ib). lia. }
  assert (B' : base (l1 ++ new ++ l2) st').
  { constructor.
    - rewrite Ei. apply (base_init _ _ B).
    - rewrite Ef, Ep. apply (base_table _ _ B).
    - rewrite Ep. apply chain_app. exists s. split; [exact C1|].
      apply chain_app. exists e'. split; assumption.
    - unfold WSIZE. lia.
    - rewrite Ep, Flo by lia. apply (base_pro _ _ B).
    - exact Hepi.
    - intros b Ib. apply in_app_or in Ib. destruct Ib as [Ib|Ib].
      + destruct (chain_in _ _ _ _ C1 Ib) as (I1 & I2 & I3 & I4 & I5).
        destruct (base_tags _ _ B b) as [G1 G2]; [apply in_or_app; left; exact Ib|].
        unfold b_end, MINBLOCK, SIZEOF_BLOCK, WSIZE in *.
        rewrite !Flo by lia. split; assumption.
      + apply in_app_or in Ib. destruct Ib as [Ib|Ib]; [apply Hnew; exact Ib|].
        destruct (chain_in _ _ _ _ C2 Ib) as (I1 & I2 & I3 & I4 & I5).
        destruct (base_tags _ _ B b) as [G1 G2].
        { apply in_or_app; right. apply in_or_app. right. exact Ib. }
        unfold b_end, MINBLOCK, SIZEOF_BLOCK, WSIZE in *.
        rewrite !(Fhi b) by (try assumption; lia). split; assumption. }
  split; [exact B'|split].
  - destruct M as [M1 M2]. constructor; rewrite ?Ef.
    + intros i Hi. rewrite Flo; [apply M1; exact Hi|]. unfold WSIZE, LISTCOUNT in *. lia.
    + intros i Hi. apply (lseg_frame st); [|apply M2; exact Hi].
      intros a Ha. destruct (Hl i a Hi Ha) as (b & [Ib|Ib] & Eb & _).
      * destruct (chain_in _ _ _ _ C1 Ib) as (I1 & I2 & I3 & I4 & I5).
        unfold b_end, MINBLOCK, SIZEOF_BLOCK, WSIZE, OFF_PREV, OFF_NEXT in *.
        rewrite !Flo by lia. split; reflexivity.
      * unfold OFF_PREV, OFF_NEXT. rewrite !(Fhi b) by (try assumption; lia).
        split; reflexivity.
  - constructor.
    + apply (lp_nodup _ _ _ P).
    + apply (lp_uniq _ _ _ P).
    + intros i a Hi Ha. destruct (Hl i a Hi Ha) as (b & Ib & Eb & Tb & Xb).
      exists b. repeat split; try assumption.
      * apply in_or_app. destruct Ib as [Ib|Ib]; [left; exact Ib|right].
        apply in_or_app. right. exact Ib.
      * destruct Ib as [Ib|Ib].
        -- destruct (chain_in _ _ _ _ C1 Ib) as (I1 & I2 & I3 & I4 & I5).
           unfold b_end, MINBLOCK, SIZEOF_BLOCK, WSIZE in *. lia.
        -- destruct (chain_in _ _ _ _ C2 Ib) as (I1 & I2 & I3 & I4 & I5).
           unfold b_end, MINBLOCK, SIZEOF_BLOCK, WSIZE in *. lia.
    + intros b Ib Hne.
      assert (Hpos : b_addr b <> 0).
      { destruct (base_block _ _ _ B' Ib) as (? & ? & ? & _). lia. }
      apply in_app_or in Ib. destruct Ib as [Ib|Ib].
      * apply (lp_free _ _ _ P b); [apply in_or_app; left; exact Ib|exact Hpos].
      * apply in_app_or in Ib. destruct Ib as [Ib|Ib].
        -- rewrite (Htag b Ib Hne). split; [lia|]. intros H. lia.
        -- apply (lp_free _ _ _ P b); [|exact Hpos].
           apply in_or_app. right. apply in_or_app. right. exact Ib.
Qed.

Lemma SETSIZE_eval st a n :
  0 <= n -> n mod 8 = 0 -> n + 8 <= 18446744073709551616 ->
  0 <= a + n - 8 < 18446744073709551616 ->
  SETSIZE a n st
  = wr (a + n - 8) (n + rd st a mod 8) (wr a (n + rd st a mod 8) st).
Proof.
  intros H1 H2 H3 H4. pose proof (rd_range st a) as Hr.
  unfold SETSIZE, HDRTOFTR, SETSIZEHDR, GETFTR, SIZE.
  rewrite land_7, lor_low by zmod.
  assert (0 <= n + rd st a mod 8 < 18446744073709551616) by zmod.
  rewrite (Z.add_comm (rd st a mod 8) n). rdwr.
  rewrite (hdr_size n (rd st a mod 8)) by zmod.
  unfold WSIZE. rdwr. reflexivity.
Qed.

Lemma chain_mid3 l1 mid l2 p e :
  chain (l1 ++ mid ++ l2) p e ->
  exists s m, chain l1 p s /\ chain mid s m /\ chain l2 m e.
Proof.
  intros C. apply chain_app in C. destruct C as (s & C1 & C).
  apply chain_app in C. destruct C as (m & C2 & C3). exists s, m. tauto.
Qed.

Lemma chain_mod8 l : forall a e, chain l a e -> (e - a) mod 8 = 0.
Proof.
  induction l as [|x l IH]; intros a e Hc; cbn [chain] in Hc.
  - subst. replace (e - e) with 0 by lia. reflexivity.
  - destruct Hc as (_ & _ & X & _ & Hc). apply IH in Hc. zmod.
Qed.

(** [SETSIZE] on the first of a run of allocated blocks makes one block of
    the run. *)
Lemma setsize_merge l1 b0 mid l2 fl st n :
  rep 0 (l1 ++ (b0 :: mid) ++ l2) fl st ->
  (forall x, In x (b0 :: mid) -> b_tag x mod 4 = 1) ->
  chain (b0 :: mid) (b_addr b0) (b_addr b0 + n) ->
  rep 0 (l1 ++ [mkBlk (b_addr b0) n (b_tag b0)] ++ l2) fl (SETSIZE (b_addr b0) n st).
Proof.
  intros R Hold Cm. pose proof R as (B & M & P).
  pose proof (base_chain _ _ B) as C. apply chain_mid3 in C.
  destruct C as (s & m & C1 & C2 & C3).
  assert (Es : s = b_addr b0) by (cbn [chain] in C2; lia). subst s.
  pose proof (chain_fun _ _ _ _ C2 Cm). subst m.
  pose proof (base_bounds _ _ B) as (Q1 & Q2 & Q3 & Q4 & Q5 & Q6).
  destruct B as [B1 B2 B3 B4 B5 B6 B7].
  assert (I0 : In b0 (l1 ++ (b0 :: mid) ++ l2)).
  { apply in_or_app. right. left. reflexivity. }
  destruct (B7 b0 I0) as [G1 _]. unfold b_hdr in G1.
  pose proof (chain_le _ _ _ C1) as L1. pose proof (chain_le _ _ _ C3) as L3.
  assert (Hn : b_size b0 <= n).
  { cbn [chain] in Cm. destruct Cm as (_ & _ & _ & _ & Cm). apply chain_le in Cm. lia. }
  cbn [chain] in C2. destruct C2 as (_ & S1 & S2 & S3 & C2).
  assert (Hn8 : n mod 8 = 0).
  { apply chain_mod8 in C2. zmod. }
  unfold MINBLOCK, SIZEOF_BLOCK, WSIZE in *.
  assert (Et : rd st (b_addr b0) mod 8 = b_tag b0) by (rewrite G1; zmod).
  rewrite SETSIZE_eval by lia. rewrite Et.
  apply (rep_restructure 0 l1 (b0 :: mid) _ l2 fl st _ (b_addr b0) (b_addr b0 + n));
    wr_simpl; try assumption; try reflexivity; try lia.
  - cbn [chain b_addr b_size b_tag]. unfold MINBLOCK, SIZEOF_BLOCK, WSIZE. repeat split; try lia.
  - intros c Hc. rdwr. reflexivity.
  - intros b c Ib Hc. destruct (chain_in _ _ _ _ C3 Ib) as (I1 & _). rdwr. reflexivity.
  - rdwr. exact B6.
  - intros x [<-|[]]. unfold b_hdr, b_end, WSIZE. cbn [b_addr b_size b_tag]. rdwr. split; reflexivity.
  - intros x [<-|[]] _. cbn [b_tag]. apply Hold. left. reflexivity.
Qed.

Lemma retag_mid l1 x l2 p e t :
  chain (l1 ++ x :: l2) p e ->
  retag (b_addr x) t (l1 ++ x :: l2) = l1 ++ mkBlk (b_addr x) (b_size x) t :: l2.
Proof.
  intros C. destruct (chain_mid _ _ _ _ _ C) as (C1 & C2 & S1 & _).
  unfold retag. rewrite map_app. cbn [map]. rewrite Z.eqb_refl. f_equal; [|f_equal].
  - rewrite <- (map_id l1) at 2. apply map_ext_in. intros y Hy.
    destruct (chain_in _ _ _ _ C1 Hy) as (_ & I2 & I3 & _).
    unfold b_end, MINBLOCK, SIZEOF_BLOCK, WSIZE in *.
    destruct (Z.eqb_spec (b_addr y) (b_addr x)); [lia|reflexivity].
  - rewrite <- (map_id l2) at 2. apply map_ext_in. intros y Hy.
    destruct (chain_in _ _ _ _ C2 Hy) as (I1 & _).
    unfold b_end, MINBLOCK, SIZEOF_BLOCK, WSIZE in *.
    destruct (Z.eqb_spec (b_addr y) (b_addr x)); [lia|reflexivity].
Qed.

(** The two [SETSIZE] of [split] cut an allocated block in two; the second
    part is in transit. *)
Lemma split_layout l1 b l2 fl st size :
  rep 0 (l1 ++ [b] ++ l2) fl st -> b_tag b mod 4 = 1 ->
  32 <= size -> size mod 8 = 0 -> size + 32 <= b_size b ->
  rep (b_addr b + size)
      (l1 ++ [mkBlk (b_addr b) size (b_tag b);
              mkBlk (b_addr b + size) (b_size b - size) (rd st (b_addr b + size) mod 8)]
          ++ l2) fl
      (SETSIZE (b_addr b + size) (b_size b - size) (SETSIZE (b_addr b) size st)).
Proof.
  intros R Tb Hs Hs8 Hsz. pose proof R as (B & M & P).
  pose proof (base_chain _ _ B) as C. apply chain_mid3 in C.
  destruct C as (s & m & C1 & C2 & C3).
  cbn [chain] in C2. destruct C2 as (Es & S1 & S2 & S3 & Em). subst s m.
  pose proof (base_bounds _ _ B) as (Q1 & Q2 & Q3 & Q4 & Q5 & Q6).
  destruct B as [B1 B2 B3 B4 B5 B6 B7].
  assert (I0 : In b (l1 ++ [b] ++ l2)).
  { apply in_or_app. right. left. reflexivity. }
  destruct (B7 b I0) as [G1 _]. unfold b_hdr in G1.
  pose proof (chain_le _ _ _ C1) as L1. pose proof (chain_le _ _ _ C3) as L3.
  unfold MINBLOCK, SIZEOF_BLOCK, WSIZE in *.
  assert (Et : rd st (b_addr b) mod 8 = b_tag b) by (rewrite G1; zmod).
  set (a := b_addr b) in *. set (S := b_size b) in *. set (t := b_tag b) in *.
  rewrite (SETSIZE_eval st a size) by lia. rewrite Et.
  set (st1 := wr (a + size - 8) (size + t) (wr a (size + t) st)).
  assert (S8 : (S - size) mod 8 = 0) by zmod.
  rewrite (SETSIZE_eval st1 (a + size) (S - size)) by lia.
  assert (E1 : rd st1 (a + size) = rd st (a + size)) by (unfold st1; rdwr; reflexivity).
  rewrite E1. set (t' := rd st (a + size) mod 8).
  assert (Ht' : 0 <= t' < 8) by (unfold t'; zmod).
  replace (a + size + (S - size) - 8) with (a + S - 8) by lia.
  apply (rep_restructure (a + size) l1 [b] _ l2 fl st _ a (a + S));
    unfold st1; wr_simpl; try assumption; try reflexivity; try lia.
  - intros x [<-|[]]. exact Tb.
  - cbn [chain b_addr b_size b_tag]. unfold MINBLOCK, SIZEOF_BLOCK, WSIZE.
    repeat split; try lia.
  - intros c Hc. rdwr. reflexivity.
  - intros x c Ix Hc. destruct (chain_in _ _ _ _ C3 Ix) as (I1 & _). rdwr. reflexivity.
  - rdwr. exact B6.
  - intros x [<-|[<-|[]]]; unfold b_hdr, b_end, WSIZE; cbn [b_addr b_size b_tag].
    + rdwr. split; reflexivity.
    + replace (a + size + (S - size) - 8) with (a + S - 8) by lia. rdwr. split; reflexivity.
  - intros x [<-|[<-|[]]]; cbn [b_addr b_tag]; [intros _; exact Tb|congruence].
Qed.

Lemma split_spec l1 b l2 fl st size :
  rep 0 (l1 ++ [b] ++ l2) fl st -> b_tag b mod 4 = 1 ->
  32 <= size <= b_size b -> size mod 8 = 0 ->
  (b_size b - size < 32 -> split (b_addr b) size st = st)
  /\ (32 <= b_size b - size ->
      exists tf, 0 <= tf < 8 /\ tf mod 4 = 0 /\
        rep 0 (l1 ++ [mkBlk (b_addr b) size (b_tag b);
                      mkBlk (b_addr b + size) (b_size b - size) tf] ++ l2)
            (upd fl 0 ((b_addr b + size) :: fl 0))
            (split (b_addr b) size st)).
Proof.
  intros R Tb Hs Hs8. pose proof R as (B & M & P).
  assert (I0 : In b (l1 ++ [b] ++ l2)).
  { apply in_or_app. right. left. reflexivity. }
  destruct (base_block _ _ _ B I0) as (F1 & F2 & F3 & F4 & F5 & F6 & F7 & F8 & F9 & Ee & G1 & G2).
  unfold split. rewrite (SIZE_blk _ _ _ B I0).
  rewrite wrap_small by lia. unfold MINBLOCK, SIZEOF_BLOCK, WSIZE. change (24 + 8) with 32.
  split; intros H.
  - destruct (Z.geb_spec (b_size b - size) 32); [lia|reflexivity].
  - destruct (Z.geb_spec (b_size b - size) 32); [|lia].
    assert (Hs32 : 32 <= size) by lia. assert (Hfit : size + 32 <= b_size b) by lia.
    pose proof (split_layout l1 b l2 fl st size R Tb Hs32 Hs8 Hfit) as R2.
    assert (En : NEXTRAW (SETSIZE (b_addr b) size st) (b_addr b) = b_addr b + size).
    { rewrite SETSIZE_eval by (unfold b_end in *; lia).
      rewrite G1. replace ((b_size b + b_tag b) mod 8) with (b_tag b) by zmod.
      unfold NEXTRAW, SIZE. unfold b_end in *. rdwr.
      rewrite hdr_size by lia. rdwr. reflexivity. }
    rewrite En.
    set (t' := rd st (b_addr b + size) mod 8) in *.
    assert (Ht' : 0 <= t' < 8) by (unfold t'; zmod).
    set (nb := mkBlk (b_addr b + size) (b_size b - size) t') in *.
    set (b1 := mkBlk (b_addr b) size (b_tag b)) in *.
    exists (t' - t' mod 4). split; [zmod|split; [zmod|]].
    assert (Inb : In nb (l1 ++ [b1; nb] ++ l2)).
    { apply in_or_app. right. right. left. reflexivity. }
    pose proof (free_list_insert_spec _ _ _ _ nb true R2 Inb (or_introl eq_refl)) as R3.
    cbn [b_addr b_size b_tag nb] in R3.
    change (l1 ++ [b1; nb] ++ l2) with (l1 ++ [b1] ++ nb :: l2) in R3.
    rewrite app_assoc in R3.
    change (b_addr b + size) with (b_addr nb) in R3 at 1.
    erewrite retag_mid in R3.
    + rewrite <- app_assoc in R3. exact R3.
    + destruct R2 as (B2 & _). pose proof (base_chain _ _ B2) as C2.
      change (l1 ++ [b1; nb] ++ l2) with (l1 ++ [b1] ++ nb :: l2) in C2.
      rewrite app_assoc in C2. exact C2.
Qed.

(** ** Physical neighbours *)

Lemma PREVFTR_eq bl st b :
  base bl st -> In b bl -> PREVFTR (b_addr b) = b_addr b - 8.
Proof.
  intros B Ib.
  destruct (base_block _ _ _ B Ib) as (? & ? & ? & ? & ? & ? & ? & ? & ? & Ee & _).
  unfold PREVFTR, WSIZE. apply wrap_small. lia.
Qed.

Lemma PREV_blk bl st p b :
  base bl st -> In p bl -> In b bl -> b_end p = b_addr b ->
  PREVUNCOAL st (b_addr b) = b_tag p mod 4 /\ PREVRAW st (b_addr b) = b_addr p.
Proof.
  intros B Ip Ib E. unfold PREVUNCOAL, PREVRAW. rewrite (PREVFTR_eq _ _ _ B Ib), <- E.
  rewrite (uncoal_ftr _ _ _ B Ip), (SIZE_ftr _ _ _ B Ip).
  destruct (base_block _ _ _ B Ip) as (? & ? & ? & ? & ? & ? & ? & ? & ? & Ee & _).
  split; [reflexivity|]. rewrite wrap_small by lia. lia.
Qed.

Lemma PREV_first bl st b :
  base bl st -> In b bl -> b_addr b = prologue st + 8 ->
  PREVUNCOAL st (b_addr b) = 1.
Proof.
  intros B Ib E. unfold PREVUNCOAL. rewrite (PREVFTR_eq _ _ _ B Ib), E.
  replace (prologue st + 8 - 8) with (prologue st) by lia.
  destruct (sentinel_facts _ (base_pro _ _ B)) as (H & _). exact H.
Qed.

Lemma NEXT_blk bl st b n :
  base bl st -> In b bl -> In n bl -> b_addr n = b_end b ->
  NEXTUNCOAL st (b_addr b) = b_tag n mod 4.
Proof.
  intros B Ib In' E. unfold NEXTUNCOAL. rewrite (NEXTRAW_blk _ _ _ B Ib), <- E.
  apply (uncoal_blk _ _ _ B In').
Qed.

Lemma NEXT_last bl st b :
  base bl st -> In b bl -> b_end b = epilogue st -> NEXTUNCOAL st (b_addr b) = 1.
Proof.
  intros B Ib E. unfold NEXTUNCOAL. rewrite (NEXTRAW_blk _ _ _ B Ib), E, land_3.
  apply (base_epi _ _ B).
Qed.

(** The footer of the block before [b], by the position of [b]. *)
Lemma PREV_at l1 b l2 st :
  base (l1 ++ b :: l2) st ->
  (l1 = [] -> PREVUNCOAL st (b_addr b) = 1)
  /\ (forall l1' p, l1 = l1' ++ [p] ->
        PREVUNCOAL st (b_addr b) = b_tag p mod 4 /\ PREVRAW st (b_addr b) = b_addr p).
Proof.
  intros B. pose proof (base_chain _ _ B) as C.
  assert (Ib : In b (l1 ++ b :: l2)) by (apply in_or_app; right; left; reflexivity).
  split.
  - intros ->. cbn [app chain] in C. apply (PREV_first _ _ _ B Ib). unfold WSIZE in C. lia.
  - intros l1' p ->. apply (PREV_blk _ _ _ _ B); [|exact Ib|].
    + apply in_or_app. left. apply in_or_app. right. left. reflexivity.
    + destruct (chain_mid _ _ _ _ _ C) as (C1 & _). apply chain_last in C1. exact C1.
Qed.

Lemma NEXT_at l1 b l2 st :
  base (l1 ++ b :: l2) st ->
  (l2 = [] -> NEXTUNCOAL st (b_addr b) = 1)
  /\ (forall n l2', l2 = n :: l2' ->
        NEXTUNCOAL st (b_addr b) = b_tag n mod 4 /\ NEXTRAW st (b_addr b) = b_addr n).
Proof.
  intros B. pose proof (base_chain _ _ B) as C.
  assert (Ib : In b (l1 ++ b :: l2)) by (apply in_or_app; right; left; reflexivity).
  destruct (chain_mid _ _ _ _ _ C) as (_ & C2 & _).
  split.
  - intros ->. cbn [chain] in C2. apply (NEXT_last _ _ _ B Ib). exact C2.
  - intros n l2' ->. cbn [chain] in C2. destruct C2 as (E & _).
    rewrite (NEXTRAW_blk _ _ _ B Ib). split; [|symmetry; exact E].
    apply (NEXT_blk _ _ _ _ B Ib); [|exact E].
    apply in_or_app. right. right. left. reflexivity.
Qed.

(** ** Removal of a free block at a known place *)

Lemma free_list_remove_at l1 x l2 fl st :
  rep 0 (l1 ++ x :: l2) fl st -> b_tag x mod 4 = 0 ->
  rep 0 (l1 ++ mark x :: l2) (fl_remove fl (b_addr x)) (free_list_remove (b_addr x) st).
Proof.
  intros R Tx. pose proof R as (B & M & P).
  assert (Ix : In x (l1 ++ x :: l2)) by (apply in_or_app; right; left; reflexivity).
  destruct (lp_free _ _ _ P x Ix (block_addr_pos _ _ _ B Ix)) as [_ Hl].
  destruct (Hl Tx) as (i & Hi & Hin).
  destruct (in_split _ _ Hin) as (u & w & Hfl).
  destruct (free_list_remove_spec _ _ _ _ _ _ _ R Hi Hfl) as (b & Ib & Eb & Tb & R').
  apply (chain_addr_inj _ _ _ _ _ (base_chain _ _ B) Ib Ix) in Eb. subst b.
  rewrite (retag_mid _ _ _ _ _ _ (base_chain _ _ B)) in R'.
  apply (rep_ext _ _ (upd fl i (u ++ w))); [|exact R'].
  intros j Hj. unfold fl_remove, upd. destruct (Z.eqb_spec j i) as [->|Hne].
  - rewrite Hfl. apply remove_mid. rewrite <- Hfl. apply (lp_nodup _ _ _ P). exact Hi.
  - apply remove_notin. intros H. apply Hne. eapply lp_uniq; eassumption.
Qed.

(** ** [coalesce] *)

Lemma coalesce_prev_none l1 b rest fl st :
  rep 0 (l1 ++ b :: rest) fl st -> tail_alloc l1 ->
  (PREVUNCOAL st (b_addr b) =? 0) = false.
Proof.
  intros (B & _ & _) Ht. destruct (PREV_at _ _ _ _ B) as [H1 H2].
  destruct (list_eq_dec (fun x y : blk => ltac:(decide equality; apply Z.eq_dec)) l1 [])
    as [E|E].
  - rewrite (H1 E). reflexivity.
  - destruct (exists_last E) as (l1' & p & E'). destruct (H2 _ _ E') as [-> _].
    rewrite (Ht _ _ E'). reflexivity.
Qed.

Lemma coalesce_prev_some l1 p b rest fl st :
  rep 0 (l1 ++ p :: b :: rest) fl st -> b_tag p mod 4 = 0 ->
  (PREVUNCOAL st (b_addr b) =? 0) = true
  /\ PREVRAW st (b_addr b) = b_addr p
  /\ rep 0 (l1 ++ mark p :: b :: rest) (fl_remove fl (b_addr p))
         (free_list_remove (b_addr p) st).
Proof.
  intros R Tp. pose proof R as (B & _ & _).
  assert (B' : base ((l1 ++ [p]) ++ b :: rest) st) by (rewrite <- app_assoc; exact B).
  destruct (PREV_at _ _ _ _ B') as [_ H2]. destruct (H2 l1 p eq_refl) as [E1 E2].
  rewrite E1, E2, Tp. split; [reflexivity|split; [reflexivity|]].
  apply free_list_remove_at; assumption.
Qed.

Lemma coalesce_next_none l1 b l2 fl st :
  rep 0 (l1 ++ b :: l2) fl st -> head_alloc l2 ->
  (NEXTUNCOAL st (b_addr b) =? 0) = false.
Proof.
  intros (B & _ & _) Ht. destruct (NEXT_at _ _ _ _ B) as [H1 H2].
  destruct l2 as [|n l2'].
  - rewrite (H1 eq_refl). reflexivity.
  - destruct (H2 _ _ eq_refl) as [-> _]. rewrite (Ht _ _ eq_refl). reflexivity.
Qed.

Lemma coalesce_next_some l1 b n l2 fl st :
  rep 0 (l1 ++ b :: n :: l2) fl st -> b_tag n mod 4 = 0 ->
  (NEXTUNCOAL st (b_addr b) =? 0) = true
  /\ NEXTRAW st (b_addr b) = b_addr n
  /\ rep 0 (l1 ++ b :: mark n :: l2) (fl_remove fl (b_addr n))
         (free_list_remove (b_addr n) st).
Proof.
  intros R Tn. pose proof R as (B & _ & _).
  destruct (NEXT_at _ _ _ _ B) as [_ H2]. destruct (H2 n l2 eq_refl) as [E1 E2].
  rewrite E1, E2, Tn. split; [reflexivity|split; [reflexivity|]].
  change (l1 ++ b :: mark n :: l2) with (l1 ++ [b] ++ mark n :: l2).
  rewrite app_assoc. apply free_list_remove_at; [|exact Tn].
  rewrite <- app_assoc. exact R.
Qed.

(** The size read in the header of a block of the heap, by its place. *)
Lemma SIZE_at l1 x l2 fl st :
  rep 0 (l1 ++ x :: l2) fl st ->
  SIZE st (b_addr x) = b_size x /\ ISALLOC st (b_addr x) = b_tag x mod 2
  /\ 32 <= b_size x /\ b_size x mod 8 = 0 /\ 0 <= b_tag x < 8 /\ b_tag x mod 4 <= 1
  /\ prologue st + 8 <= b_addr x /\ b_addr x + b_size x <= epilogue st
  /\ epilogue st + 8 <= brk_hi st /\ brk_hi st < 18446744073709551616.
Proof.
  intros (B & _ & P).
  assert (Ix : In x (l1 ++ x :: l2)) by (apply in_or_app; right; left; reflexivity).
  destruct (base_block _ _ _ B Ix) as (? & ? & ? & ? & ? & ? & ? & ? & ? & Ee & _).
  destruct (lp_free _ _ _ P x Ix (block_addr_pos _ _ _ B Ix)) as [T _].
  rewrite (SIZE_blk _ _ _ B Ix), (ISALLOC_blk _ _ _ B Ix). unfold b_end in *.
  repeat split; try assumption; lia.
Qed.

Lemma sizes_bound l : forall a e, chain l a e -> sizes l = e - a.
Proof. intros a e C. apply chain_end in C. unfold sizes. lia. Qed.

(** The end of [coalesce], once the free neighbours [rp] and [rq] of [b]
    have left their lists. *)
Lemma coalesce_finish l1 rp b rq l2 fl st :
  rep 0 (l1 ++ rp ++ b :: rq ++ l2) fl st ->
  (forall x, In x (rp ++ rq) -> b_tag x mod 4 = 1) -> rp ++ rq <> [] ->
  exists tg, 0 <= tg < 8 /\ tg mod 4 = 1 /\
    rep 0 (l1 ++ mkBlk (b_addr (hd b rp)) (sizes (rp ++ b :: rq)) tg :: l2)
        (fl_remove_all fl (if b_tag b mod 4 =? 0 then [b] else []))
        (SETSIZE (b_addr (hd b rp)) (sizes (rp ++ b :: rq))
           (if b_tag b mod 2 =? 0 then free_list_remove (b_addr b) st else st)).
Proof.
  intros R Hrun Hne.
  assert (R' : rep 0 ((l1 ++ rp) ++ b :: rq ++ l2) fl st) by (rewrite <- app_assoc; exact R).
  destruct (SIZE_at _ _ _ _ _ R') as (_ & _ & _ & _ & Tb1 & Tb2 & _).
  (* [b] is taken off its list when it is free *)
  set (b' := if b_tag b mod 4 =? 0 then mark b else b).
  assert (R2 : rep 0 (l1 ++ rp ++ b' :: rq ++ l2)
                 (fl_remove_all fl (if b_tag b mod 4 =? 0 then [b] else []))
                 (if b_tag b mod 2 =? 0 then free_list_remove (b_addr b) st else st)
               /\ b_tag b' mod 4 = 1 /\ b_addr b' = b_addr b /\ b_size b' = b_size b).
  { unfold b'. destruct (Z.eqb_spec (b_tag b mod 4) 0) as [E|E].
    - replace (b_tag b mod 2 =? 0) with true by (symmetry; apply Z.eqb_eq; zmod).
      cbn [fl_remove_all fold_left mark b_tag b_addr b_size].
      split; [|split; [zmod|split; reflexivity]].
      rewrite app_assoc. apply free_list_remove_at; assumption.
    - replace (b_tag b mod 2 =? 0) with false by (symmetry; apply Z.eqb_neq; zmod).
      cbn [fl_remove_all fold_left]. split; [exact R|split; [zmod|split; reflexivity]]. }
  destruct R2 as (R2 & Tb' & Ea & Es).
  set (st2 := if b_tag b mod 2 =? 0 then free_list_remove (b_addr b) st else st) in *.
  set (fl2 := fl_remove_all fl (if b_tag b mod 4 =? 0 then [b] else [])) in *.
  assert (Hsz : sizes (rp ++ b :: rq) = sizes (rp ++ b' :: rq)).
  { unfold sizes. rewrite !fold_right_app. cbn [fold_right]. rewrite Es. reflexivity. }
  assert (Hhd' : b_addr (hd b rp) = b_addr (hd b' rp) /\ b_tag (hd b' rp) mod 4 = 1).
  { destruct rp as [|p rp']; cbn [hd]; [split; [symmetry; exact Ea|exact Tb']|].
    split; [reflexivity|]. apply Hrun. left. reflexivity. }
  destruct Hhd' as [Eh Th].
  pose proof R2 as (B2 & _ & _). pose proof (base_chain _ _ B2) as C.
  apply chain_app in C. destruct C as (s & C1 & C).
  replace (rp ++ b' :: rq ++ l2) with ((rp ++ b' :: rq) ++ l2) in C
    by (rewrite <- app_assoc; reflexivity).
  apply chain_app in C. destruct C as (e & Cm & C2).
  pose proof (sizes_bound _ _ _ Cm) as Hs.
  assert (Hrun' : forall x, In x (rp ++ b' :: rq) -> b_tag x mod 4 = 1).
  { intros x Hx. apply in_app_or in Hx. destruct Hx as [Hx|[<-|Hx]].
    - apply Hrun. apply in_or_app. left. exact Hx.
    - exact Tb'.
    - apply Hrun. apply in_or_app. right. exact Hx. }
  assert (Hform : exists b0 mid, rp ++ b' :: rq = b0 :: mid /\ b0 = hd b' rp).
  { destruct rp as [|p rp']; cbn [app hd]; eexists; eexists; split; reflexivity. }
  destruct Hform as (b0 & mid & Ef & Eb0).
  exists (b_tag b0).
  assert (I0 : In b0 (l1 ++ rp ++ b' :: rq ++ l2)).
  { apply in_or_app. right. replace (rp ++ b' :: rq ++ l2) with ((rp ++ b' :: rq) ++ l2)
      by (rewrite <- app_assoc; reflexivity).
    apply in_or_app. left. rewrite Ef. left. reflexivity. }
  destruct (base_block _ _ _ B2 I0) as (_ & _ & _ & _ & _ & _ & _ & _ & T0 & _).
  split; [exact T0|]. split; [rewrite Eb0; exact Th|].
  rewrite Hsz, Eh, <- Eb0.
  assert (Es0 : s = b_addr b0).
  { rewrite Ef in Cm. cbn [chain] in Cm. lia. }
  apply (setsize_merge l1 b0 mid l2 fl2 st2 (sizes (rp ++ b' :: rq))).
  - rewrite <- Ef. rewrite <- app_assoc. cbn [app]. exact R2.
  - rewrite <- Ef. exact Hrun'.
  - rewrite <- Ef, Hs, <- Es0. replace (s + (e - s)) with e by lia. exact Cm.
Qed.

Lemma coalesce_spec l1 pre b post l2 fl st :
  rep 0 (l1 ++ pre ++ b :: post ++ l2) fl st ->
  free_run pre -> free_run post ->
  (pre = [] -> tail_alloc l1) -> (post = [] -> head_alloc l2) ->
  exists st', coalesce (b_addr b) st = (b_addr (hd b pre), st') /\
    ((pre = [] /\ post = [] /\ st' = st)
     \/ (pre ++ post <> [] /\ exists tg, 0 <= tg < 8 /\ tg mod 4 = 1 /\
           rep 0 (l1 ++ mkBlk (b_addr (hd b pre)) (sizes (pre ++ b :: post)) tg :: l2)
               (fl_remove_all fl (pre ++ post ++ (if b_tag b mod 4 =? 0 then [b] else [])))
               st')).
Proof.
  intros R Hpre Hpost Htl Hhd.
  (* the run to be merged lies in the heap *)
  pose proof R as (B0 & _ & _). pose proof (base_chain _ _ B0) as C0.
  apply chain_app in C0. destruct C0 as (s0 & C1 & C0).
  replace (pre ++ b :: post ++ l2) with ((pre ++ b :: post) ++ l2) in C0
    by (rewrite <- app_assoc; reflexivity).
  apply chain_app in C0. destruct C0 as (e0 & Cm & C2).
  pose proof (sizes_bound _ _ _ Cm) as Hsz.
  pose proof (chain_le _ _ _ C1) as L1. pose proof (chain_le _ _ _ C2) as L2.
  pose proof (base_bounds _ _ B0) as (Q1 & Q2 & Q3 & Q4 & Q5 & Q6). unfold WSIZE in *.
  unfold coalesce.
  destruct Hpre as [->|(p & -> & Tp)]; destruct Hpost as [->|(n & -> & Tn)];
    cbn [app hd] in *.
  - (* no neighbour to merge *)
    rewrite (coalesce_prev_none _ _ _ _ _ R (Htl eq_refl)).
    rewrite (coalesce_next_none _ _ _ _ _ R (Hhd eq_refl)).
    rewrite Z.eqb_refl. eexists. split; [reflexivity|]. left. repeat split.
  - (* the next block *)
    rewrite (coalesce_prev_none _ _ _ _ _ R (Htl eq_refl)).
    destruct (coalesce_next_some _ _ _ _ _ _ R Tn) as (E1 & E2 & R1).
    rewrite E1, E2.
    destruct (SIZE_at _ _ _ _ _ R) as (Sb & Ab & Xb).
    assert (R1' : rep 0 ((l1 ++ [b]) ++ mark n :: l2) (fl_remove fl (b_addr n))
                    (free_list_remove (b_addr n) st)) by (rewrite <- app_assoc; exact R1).
    destruct (SIZE_at _ _ _ _ _ R1') as (Sn & _ & Xn). cbn [mark b_addr b_size] in Sn, Xn.
    destruct (SIZE_at _ _ _ _ _ R1) as (Sb1 & Ab1 & _).
    rewrite Sb, Sn, Sb1, Ab1. cbn [sizes fold_right app] in Hsz.
    rewrite wrap_small by lia.
    destruct (Z.eqb_spec (b_size b + b_size n) (b_size b)) as [E|_]; [lia|].
    destruct (coalesce_finish l1 [] b [mark n] l2 _ _ R1) as (tg & T1 & T2 & R3).
    { intros x [<-|[]]. cbn [mark b_tag]. zmod. }
    { discriminate. }
    cbn [app hd sizes fold_right mark b_size] in R3.
    replace (b_size b + (b_size n + 0)) with (b_size b + b_size n) in R3 by lia.
    eexists. split; [reflexivity|]. right. split; [discriminate|].
    exists tg. split; [exact T1|split; [exact T2|]].
    cbn [sizes fold_right app].
    replace (b_size b + (b_size n + 0)) with (b_size b + b_size n) by lia.
    exact R3.
  - (* the previous block *)
    destruct (coalesce_prev_some _ _ _ _ _ _ R Tp) as (E1 & E2 & R1).
    rewrite E1, E2.
    assert (R0' : rep 0 ((l1 ++ [p]) ++ b :: l2) fl st) by (rewrite <- app_assoc; exact R).
    destruct (SIZE_at _ _ _ _ _ R0') as (Sb & Ab & Xb).
    destruct (SIZE_at _ _ _ _ _ R1) as (Sp & _ & Xp). cbn [mark b_addr b_size] in Sp, Xp.
    assert (R1' : rep 0 ((l1 ++ [mark p]) ++ b :: l2) (fl_remove fl (b_addr p))
                    (free_list_remove (b_addr p) st)) by (rewrite <- app_assoc; exact R1).
    destruct (SIZE_at _ _ _ _ _ R1') as (Sb1 & Ab1 & _).
    rewrite (coalesce_next_none _ _ _ _ _ R1' (Hhd eq_refl)).
    rewrite Sb, Sp, Sb1, Ab1. cbn [sizes fold_right app] in Hsz.
    rewrite wrap_small by lia.
    destruct (Z.eqb_spec (b_size b + b_size p) (b_size b)) as [E|_]; [lia|].
    destruct (coalesce_finish l1 [mark p] b [] l2 _ _ R1) as (tg & T1 & T2 & R3).
    { intros x [<-|[]]. cbn [mark b_tag]. zmod. }
    { discriminate. }
    cbn [app hd sizes fold_right mark b_size b_addr] in R3.
    replace (b_size p + (b_size b + 0)) with (b_size b + b_size p) in R3 by lia.
    eexists. split; [reflexivity|]. right. split; [discriminate|].
    exists tg. split; [exact T1|split; [exact T2|]].
    cbn [sizes fold_right app].
    replace (b_size p + (b_size b + 0)) with (b_size b + b_size p) by lia.
    exact R3.
  - (* both neighbours *)
    destruct (coalesce_prev_some _ _ _ _ _ _ R Tp) as (E1 & E2 & R1).
    rewrite E1, E2.
    assert (R0' : rep 0 ((l1 ++ [p]) ++ b :: n :: l2) fl st) by (rewrite <- app_assoc; exact R).
    destruct (SIZE_at _ _ _ _ _ R0') as (Sb & Ab & Xb).
    destruct (SIZE_at _ _ _ _ _ R1) as (Sp & _ & Xp). cbn [mark b_addr b_size] in Sp, Xp.
    assert (R1' : rep 0 ((l1 ++ [mark p]) ++ b :: n :: l2) (fl_remove fl (b_addr p))
                    (free_list_remove (b_addr p) st)) by (rewrite <- app_assoc; exact R1).
    destruct (coalesce_next_some _ _ _ _ _ _ R1' Tn) as (E3 & E4 & R2).
    rewrite E3, E4.
    assert (R2' : rep 0 ((l1 ++ [mark p; b]) ++ mark n :: l2)
                    (fl_remove (fl_remove fl (b_addr p)) (b_addr n))
                    (free_list_remove (b_addr n) (free_list_remove (b_addr p) st))).
    { rewrite <- !app_assoc in *. exact R2. }
    destruct (SIZE_at _ _ _ _ _ R2') as (Sn & _ & Xn). cbn [mark b_addr b_size] in Sn, Xn.
    destruct (SIZE_at _ _ _ _ _ R2) as (Sb2 & Ab2 & _).
    rewrite Sb, Sp, Sn, Sb2, Ab2. cbn [sizes fold_right app] in Hsz.
    rewrite (wrap_small (b_size b + b_size p)) by lia.
    rewrite wrap_small by lia.
    destruct (Z.eqb_spec (b_size b + b_size p + b_size n) (b_size b)) as [E|_]; [lia|].
    rewrite <- app_assoc in R2. cbn [app] in R2.
    destruct (coalesce_finish l1 [mark p] b [mark n] l2 _ _ R2) as (tg & T1 & T2 & R3).
    { intros x [<-|[<-|[]]]; cbn [mark b_tag]; zmod. }
    { discriminate. }
    cbn [app hd sizes fold_right mark b_size b_addr] in R3.
    replace (b_size p + (b_size b + (b_size n + 0))) with (b_size b + b_size p + b_size n) in R3 by lia.
    eexists. split; [reflexivity|]. right. split; [discriminate|].
    exists tg. split; [exact T1|split; [exact T2|]].
    cbn [sizes fold_right app].
    replace (b_size p + (b_size b + (b_size n + 0))) with (b_size b + b_size p + b_size n) by lia.
    exact R3.
Qed.

(** ** Adjacent free blocks *)

Lemma last_free_cons x y l : last_free (x :: y :: l) <-> last_free (y :: l).
Proof.
  split.
  - intros (l' & z & E & T). destruct l' as [|w l'']; [discriminate|].
    injection E as <- E. exists l'', z. split; assumption.
  - intros (l' & z & E & T). exists (x :: l'), z. split; [rewrite E; reflexivity|exact T].
Qed.

Lemma last_free_one x : last_free [x] <-> b_tag x mod 4 = 0.
Proof.
  split.
  - intros (l' & z & E & T). destruct l' as [|w [|]]; try discriminate.
    injection E as <-. exact T.
  - intros T. exists [], x. split; [reflexivity|exact T].
Qed.

Lemma head_free_cons x l : head_free (x :: l) <-> b_tag x mod 4 = 0.
Proof.
  split.
  - intros (y & l' & E & T). injection E as <- _. exact T.
  - intros T. exists x, l. split; [reflexivity|exact T].
Qed.

Lemma no_adj_app l1 : forall l2,
  no_adj (l1 ++ l2) <-> no_adj l1 /\ no_adj l2 /\ ~ (last_free l1 /\ head_free l2).
Proof.
  induction l1 as [|x l1 IH]; intros l2.
  - cbn [app no_adj]. split; [|tauto].
    intros H. repeat split; try assumption. intros [(l' & y & E & _) _].
    destruct l'; discriminate.
  - destruct l1 as [|y l1'].
    + cbn [app]. destruct l2 as [|w l2'].
      * cbn [no_adj]. split; [|tauto]. intros _. repeat split.
        intros [_ (z & l' & E & _)]. discriminate.
      * change (no_adj (x :: w :: l2')) with
          (~ (b_tag x mod 4 = 0 /\ b_tag w mod 4 = 0) /\ no_adj (w :: l2')).
        rewrite last_free_one, head_free_cons. cbn [no_adj]. tauto.
    + change (no_adj ((x :: y :: l1') ++ l2)) with
        (~ (b_tag x mod 4 = 0 /\ b_tag y mod 4 = 0) /\ no_adj ((y :: l1') ++ l2)).
      change (no_adj (x :: y :: l1')) with
        (~ (b_tag x mod 4 = 0 /\ b_tag y mod 4 = 0) /\ no_adj (y :: l1')).
      rewrite IH, last_free_cons. tauto.
Qed.

Lemma tail_alloc_not_free l : tail_alloc l -> ~ last_free l.
Proof. intros H (l' & x & E & T). specialize (H l' x E). lia. Qed.

Lemma head_alloc_not_free l : head_alloc l -> ~ head_free l.
Proof. intros H (x & l' & E & T). specialize (H x l' E). lia. Qed.

(** ** The free neighbours of a block *)

Lemma neighbours fl st bl b :
  rep 0 bl fl st -> In b bl ->
  exists l1 pre post l2,
    bl = l1 ++ pre ++ b :: post ++ l2 /\ free_run pre /\ free_run post
    /\ (pre = [] -> tail_alloc l1) /\ (post = [] -> head_alloc l2).
Proof.
  intros (B & _ & P) Ib. destruct (in_split _ _ Ib) as (L & Rr & E).
  assert (Ht : forall x, In x bl -> b_tag x mod 4 = 0 \/ b_tag x mod 4 = 1).
  { intros x Ix. destruct (lp_free _ _ _ P x Ix (block_addr_pos _ _ _ B Ix)) as [T _].
    zmod. }
  assert (HL : exists l1 pre, L = l1 ++ pre /\ free_run pre /\ (pre = [] -> tail_alloc l1)).
  { destruct (list_eq_dec (fun x y : blk => ltac:(decide equality; apply Z.eq_dec)) L [])
      as [->|Hne].
    - exists [], []. split; [reflexivity|split; [left; reflexivity|]].
      intros _ l' x E'. destruct l'; discriminate.
    - destruct (exists_last Hne) as (L' & x & ->).
      destruct (Ht x) as [T|T].
      { rewrite E. apply in_or_app. left. apply in_or_app. right. left. reflexivity. }
      + exists L', [x]. split; [reflexivity|split; [right; exists x; tauto|discriminate]].
      + exists (L' ++ [x]), []. split; [rewrite app_nil_r; reflexivity|].
        split; [left; reflexivity|]. intros _ l' y E'.
        apply app_inj_tail in E'. destruct E' as [_ <-]. exact T. }
  assert (HR : exists post l2, Rr = post ++ l2 /\ free_run post /\ (post = [] -> head_alloc l2)).
  { destruct Rr as [|x Rr'].
    - exists [], []. split; [reflexivity|split; [left; reflexivity|]].
      intros _ y l' E'. discriminate.
    - destruct (Ht x) as [T|T].
      { rewrite E. apply in_or_app. right. right. left. reflexivity. }
      + exists [x], Rr'. split; [reflexivity|split; [right; exists x; tauto|discriminate]].
      + exists [], (x :: Rr'). split; [reflexivity|split; [left; reflexivity|]].
        intros _ y l' E'. injection E' as <- _. exact T. }
  destruct HL as (l1 & pre & -> & H1 & H2). destruct HR as (post & l2 & -> & H3 & H4).
  exists l1, pre, post, l2. rewrite E, <- app_assoc. repeat split; assumption.
Qed.

(** ** [free] *)

Lemma USERTOBLOCK_payload bl st b :
  base bl st -> In b bl -> USERTOBLOCK (b_addr b + WSIZE) = b_addr b.
Proof.
  intros B Ib. destruct (base_block _ _ _ B Ib) as (? & ? & ? & ? & ? & ? & ? & ? & ? & Ee & _).
  unfold USERTOBLOCK, WSIZE. replace (b_addr b + 8 - 8) with (b_addr b) by lia.
  apply wrap_small. lia.
Qed.

Lemma free_spec bl fl st b :
  rep 0 bl fl st -> In b bl -> b_tag b mod 4 = 1 ->
  exists l1 pre post l2 tg,
    bl = l1 ++ pre ++ b :: post ++ l2 /\ free_run pre /\ free_run post
    /\ (pre = [] -> tail_alloc l1) /\ (post = [] -> head_alloc l2)
    /\ 0 <= tg < 8 /\ tg mod 4 = 0
    /\ rep 0 (l1 ++ mkBlk (b_addr (hd b pre)) (sizes (pre ++ b :: post)) tg :: l2)
           (upd (fl_remove_all fl (pre ++ post)) 0
                (b_addr (hd b pre) :: fl_remove_all fl (pre ++ post) 0))
           (free (b_addr b + WSIZE) st).
Proof.
  intros R Ib Tb. destruct (neighbours _ _ _ _ R Ib) as (l1 & pre & post & l2 & E & H1 & H2 & H3 & H4).
  subst bl. pose proof R as (B & _ & _).
  destruct (base_block _ _ _ B Ib) as (F1 & F2 & F3 & F4 & F5 & F6 & F7 & F8 & F9 & Ee & _).
  destruct (coalesce_spec _ _ _ _ _ _ _ R H1 H2 H3 H4) as (st' & Ec & Hc).
  unfold free. rewrite (USERTOBLOCK_payload _ _ _ B Ib).
  destruct (Z.eqb_spec (b_addr b + WSIZE) NULL) as [E0|_]; [unfold WSIZE, NULL in E0; lia|].
  rewrite Ec.
  destruct Hc as [(-> & -> & ->)|(Hne & tg & T1 & T2 & R1)].
  - (* nothing to merge *)
    cbn [app hd sizes fold_right fl_remove_all fold_left] in *.
    exists l1, [], [], l2, (b_tag b - b_tag b mod 4).
    cbn [app hd sizes fold_right fl_remove_all fold_left].
    do 7 (split; [solve [assumption | reflexivity | zmod]|]).
    pose proof (free_list_insert_spec _ _ _ _ b true R Ib) as R2.
    rewrite (retag_mid _ _ _ _ _ _ (base_chain _ _ B)) in R2.
    rewrite Z.add_0_r. apply R2. right. split; [reflexivity|lia].
  - (* the merged block goes to the unsorted list *)
    rewrite Tb in R1. cbn [Z.eqb] in R1. rewrite app_nil_r in R1.
    set (m := mkBlk (b_addr (hd b pre)) (sizes (pre ++ b :: post)) tg) in *.
    assert (Im : In m (l1 ++ m :: l2)) by (apply in_or_app; right; left; reflexivity).
    pose proof (free_list_insert_spec _ _ _ _ m true R1 Im) as R2.
    destruct R1 as (B1 & _ & _).
    rewrite (retag_mid _ _ _ _ _ _ (base_chain _ _ B1)) in R2.
    exists l1, pre, post, l2, (tg - tg mod 4).
    do 7 (split; [solve [assumption | reflexivity | zmod]|]).
    apply R2. right. split; [reflexivity|cbn; lia].
Qed.

Lemma free_no_adj l1 pre b post l2 m :
  no_adj (l1 ++ pre ++ b :: post ++ l2) ->
  free_run pre -> free_run post ->
  (pre = [] -> tail_alloc l1) -> (post = [] -> head_alloc l2) ->
  no_adj (l1 ++ m :: l2).
Proof.
  intros N H1 H2 H3 H4.
  apply no_adj_app in N. destruct N as (N1 & N & X1).
  apply no_adj_app in N. destruct N as (Np & N & X2).
  change (b :: post ++ l2) with ([b] ++ post ++ l2) in N.
  apply no_adj_app in N. destruct N as (_ & N & X3).
  apply no_adj_app in N. destruct N as (Nq & N2 & X4).
  assert (L1 : ~ last_free l1).
  { destruct H1 as [->|(p & -> & Tp)].
    - apply tail_alloc_not_free. apply H3. reflexivity.
    - intros L. apply X1. split; [exact L|]. exists p, (b :: post ++ l2).
      split; [reflexivity|exact Tp]. }
  assert (L2 : ~ head_free l2).
  { destruct H2 as [->|(q & -> & Tq)].
    - apply head_alloc_not_free. apply H4. reflexivity.
    - intros L. apply X4. split; [|exact L]. exists [], q. split; [reflexivity|exact Tq]. }
  apply no_adj_app. split; [exact N1|split; [|tauto]].
  cbn [no_adj]. split; [|exact N2].
  destruct l2 as [|y l2']; [exact I|]. intros [_ Ty]. apply L2.
  exists y, l2'. split; [reflexivity|exact Ty].
Qed.

(** ** Growth of the heap *)

Lemma to_intptr_small n : 0 <= n < 9223372036854775808 -> to_intptr n = n.
Proof.
  intros H. unfold to_intptr. rewrite wrap_small by lia.
  destruct (Z.ltb_spec n 9223372036854775808); [reflexivity|lia].
Qed.

Lemma sbrk_ok n st :
  0 <= n < 9223372036854775808 -> brk_lo st <= brk st + n -> brk st + n <= brk_hi st ->
  sbrk n st = (brk st, set_brk (brk st + n) st).
Proof.
  intros H1 H2 H3. unfold sbrk. rewrite to_intptr_small by exact H1.
  destruct (Z.leb_spec (brk_lo st) (brk st + n)); [|lia].
  destruct (Z.leb_spec (brk st + n) (brk_hi st)); [|lia]. reflexivity.
Qed.

Lemma sbrk_full n st :
  0 <= n < 9223372036854775808 -> brk_hi st < brk st + n ->
  sbrk n st = (SBRK_FAILED, set_errno ENOMEM st).
Proof.
  intros H1 H2. unfold sbrk. rewrite to_intptr_small by exact H1.
  destruct (Z.leb_spec (brk st + n) (brk_hi st)); [lia|].
  rewrite andb_false_r. reflexivity.
Qed.

Lemma extend_heap_full n st :
  0 <= n < 9223372036854775808 -> brk_hi st < brk st + n ->
  extend_heap n st = (NULL, set_errno ENOMEM st).
Proof. intros H1 H2. unfold extend_heap. rewrite sbrk_full by assumption. reflexivity. Qed.

(** The sentinel [BOUNDINIT] writes, whatever the word held before. *)
Lemma BOUNDINIT_eval a st :
  exists v, BOUNDINIT a st = wr a v (wr a (Z.lor (Z.land (rd st a) NOT2) 1) st)
            /\ 0 <= v < 8 /\ v mod 4 = 1.
Proof.
  pose proof (rd_range st a) as Hr.
  unfold BOUNDINIT, SETSIZEHDR, MARKALLOC.
  set (g := Z.lor (Z.land (rd st a) NOT2) 1).
  assert (Hg : g = rd st a - rd st a mod 4 + 1).
  { unfold g. rewrite land_NOT2, lor_1 by lia. zmod. }
  assert (0 <= g < 18446744073709551616) by zmod.
  rewrite rd_wr_eq by assumption. rewrite land_7, Z.lor_0_r.
  exists (g mod 8). split; [reflexivity|]. zmod.
Qed.

(** A successful [extend_heap]: the new block starts where the epilogue
    was and keeps its flag bits; a new epilogue follows it. *)
Lemma extend_heap_ok st n :
  8 <= n < 9223372036854775808 -> n mod 8 = 0 ->
  0 <= epilogue st -> epilogue st + 8 <= brk st ->
  brk_lo st <= brk st -> brk st + n <= brk_hi st -> brk_hi st < SIZE_MAX ->
  exists st',
    extend_heap n st = (epilogue st, st')
    /\ brk st' = brk st + n /\ brk_lo st' = brk_lo st /\ brk_hi st' = brk_hi st
    /\ errno st' = errno st /\ init st' = init st /\ free_lists st' = free_lists st
    /\ prologue st' = prologue st /\ epilogue st' = epilogue st + n
    /\ (forall c, c + 8 <= epilogue st -> rd st' c = rd st c)
    /\ rd st' (epilogue st) mod 8 = (rd st (epilogue st) - rd st (epilogue st) mod 4 + 1) mod 8
    /\ rd st' (epilogue st) = n + rd st' (epilogue st) mod 8
    /\ rd st' (epilogue st + n - 8) = rd st' (epilogue st)
    /\ rd st' (epilogue st + n) mod 4 = 1.
Proof.
  intros H1 H2 H3 H4 H5 H6 H7. unfold SIZE_MAX in H7.
  unfold extend_heap. rewrite sbrk_ok by lia.
  destruct (Z.eqb_spec (brk st) SBRK_FAILED) as [E|_]; [unfold SBRK_FAILED, SIZE_MAX in E; lia|].
  set (st0 := set_brk (brk st + n) st).
  change (epilogue st0) with (epilogue st).
  set (E := epilogue st) in *.
  pose proof (rd_range st E) as Hr.
  set (h := Z.lor (Z.land (rd st0 E) NOT2) 1).
  assert (Hh : h = rd st E - rd st E mod 4 + 1).
  { unfold h. change (rd st0 E) with (rd st E). rewrite land_NOT2, lor_1 by lia. zmod. }
  assert (Hh' : 0 <= h < 18446744073709551616) by zmod.
  unfold MARKALLOC. fold h.
  rewrite SETSIZE_eval by lia. rewrite rd_wr_eq by exact Hh'.
  set (x := n + h mod 8).
  assert (Hx : 0 <= x < 18446744073709551616) by (unfold x; zmod).
  set (st3 := wr (E + n - 8) x (wr E x (wr E h st0))).
  change (epilogue st3) with E. rewrite wrap_small by lia.
  change (epilogue (set_epilogue (E + n) st3)) with (E + n).
  destruct (BOUNDINIT_eval (E + n) (set_epilogue (E + n) st3)) as (v & -> & V1 & V2).
  eexists. split; [reflexivity|]. wr_simpl.
  do 8 (split; [reflexivity|]).
  set (g := Z.lor _ 1).
  assert (Hrd : forall c, rd (wr (E + n) v (wr (E + n) g (set_epilogue (E + n) st3))) c
                          = rd (wr (E + n) v (wr (E + n) g st3)) c) by reflexivity.
  unfold st3 in *. rewrite !Hrd.
  split; [|split; [|split; [|split]]].
  - intros c Hc. rewrite Hrd. rdwr. reflexivity.
  - destruct (Z.eq_dec n 8) as [->|Hn]; [|assert (16 <= n) by zmod].
    + replace (E + 8 - 8) with E by lia. rdwr. unfold x. rewrite <- Hh. zmod.
    + rdwr. unfold x. rewrite <- Hh. zmod.
  - destruct (Z.eq_dec n 8) as [->|Hn]; [|assert (16 <= n) by zmod].
    + replace (E + 8 - 8) with E by lia. rdwr. unfold x. zmod.
    + rdwr. unfold x. zmod.
  - destruct (Z.eq_dec n 8) as [->|Hn]; [|assert (16 <= n) by zmod].
    + replace (E + 8 - 8) with E by lia. rdwr. reflexivity.
    + rdwr. reflexivity.
  - rdwr. exact V2.
Qed.

Lemma rep_set_errno pd bl fl st e : rep pd bl fl st -> rep pd bl fl (set_errno e st).
Proof.
  intros (B & M & P). split; [|split; [|exact P]].
  - destruct B. constructor; assumption.
  - destruct M as [M1 M2]. constructor; [exact M1|].
    intros i Hi. apply (lseg_frame st); [intros a _; split; reflexivity|apply M2; exact Hi].
Qed.

(** [extend_heap] on a well-formed heap: a new allocated block at the end. *)
Lemma extend_heap_block bl fl st n :
  rep 0 bl fl st -> 32 <= n < 9223372036854775808 -> n mod 8 = 0 ->
  brk st + n <= brk_hi st ->
  exists st' t,
    extend_heap n st = (epilogue st, st') /\ 0 <= t < 8 /\ t mod 4 = 1
    /\ errno st' = errno st
    /\ rep 0 (bl ++ [mkBlk (epilogue st) n t]) fl st'.
Proof.
  intros R Hn Hn8 Hb. pose proof R as (B & _ & _).
  pose proof (base_bounds _ _ B) as (Q1 & Q2 & Q3 & Q4 & Q5 & Q6).
  destruct B as [B1 B2 B3 [K1 [K2 [K3 K4]]] B5 B6 B7].
  destruct (extend_heap_ok st n) as
    (st' & E & G1 & G2 & G3 & G4 & G5 & G6 & G7 & G8 & Flo & T1 & T2 & T3 & T4);
    try assumption; try lia.
  pose proof (rd_range st (epilogue st)) as Hr.
  exists st', (rd st' (epilogue st) mod 8).
  split; [exact E|]. split; [zmod|]. split; [zmod|]. split; [exact G4|].
  replace bl with (bl ++ [] ++ []) in R by (cbn [app]; apply app_nil_r).
  change (bl ++ [mkBlk (epilogue st) n (rd st' (epilogue st) mod 8)])
    with (bl ++ [mkBlk (epilogue st) n (rd st' (epilogue st) mod 8)] ++ []).
  apply (rep_restructure 0 bl [] _ [] fl st st' (epilogue st) (epilogue st + n));
    try assumption; unfold WSIZE in *; try lia.
  - intros x [].
  - cbn [chain b_addr b_size b_tag]. unfold MINBLOCK, SIZEOF_BLOCK, WSIZE.
    repeat split; try lia; zmod.
  - cbn [chain]. lia.
  - intros b c [].
  - rewrite G8. exact T4.
  - intros x [<-|[]]. unfold b_hdr, b_end. cbn [b_addr b_size b_tag].
    rewrite T3. split; lia.
  - intros x [<-|[]] _. cbn [b_tag]. zmod.
Qed.

(** The global [epilogue] plays no part in [free_list_remove]. *)
Ltac proj_norm :=
  cbn [mem brk brk_lo brk_hi errno init free_lists prologue epilogue].
Ltac case_if :=
  match goal with
  | |- context [if ?c then _ else _] =>
      lazymatch c with
      | context [if _ then _ else _] => fail
      | _ => destruct c
      end
  end.

Lemma free_list_remove_epilogue a e st :
  free_list_remove a (set_epilogue e st) = set_epilogue e (free_list_remove a st).
Proof.
  destruct st as [m b lo hi er i f p ep].
  unfold free_list_remove, HDRTOFTR, MARKALLOC, GETFTR, SIZE, set_prev, set_next, next_of,
    prev_of, list_slot, wr, rd, set_mem, set_epilogue.
  proj_norm. repeat (case_if; proj_norm); reflexivity.
Qed.

Lemma free_list_remove_globals a st :
  brk (free_list_remove a st) = brk st /\ brk_lo (free_list_remove a st) = brk_lo st
  /\ brk_hi (free_list_remove a st) = brk_hi st /\ errno (free_list_remove a st) = errno st
  /\ init (free_list_remove a st) = init st
  /\ free_lists (free_list_remove a st) = free_lists st
  /\ prologue (free_list_remove a st) = prologue st
  /\ epilogue (free_list_remove a st) = epilogue st.
Proof.
  destruct st as [m b lo hi er i f p ep].
  unfold free_list_remove, HDRTOFTR, MARKALLOC, GETFTR, SIZE, set_prev, set_next, next_of,
    prev_of, list_slot, wr, rd, set_mem.
  proj_norm. repeat (case_if; proj_norm); repeat split.
Qed.

(** [free_list_remove] writes below the epilogue only. *)
Lemma free_list_remove_frame l1 x l2 fl st c :
  rep 0 (l1 ++ x :: l2) fl st -> b_tag x mod 4 = 0 -> epilogue st <= c ->
  rd (free_list_remove (b_addr x) st) c = rd st c.
Proof.
  intros R Tx Hc. pose proof R as (B & M & P).
  assert (Ix : In x (l1 ++ x :: l2)) by (apply in_or_app; right; left; reflexivity).
  destruct (lp_free _ _ _ P x Ix (block_addr_pos _ _ _ B Ix)) as [_ Hl].
  destruct (Hl Tx) as (i & Hi & Hin).
  destruct (in_split _ _ Hin) as (u & w & Hfl).
  pose proof (unlink_spec _ _ _ _ _ _ _ R Hi Hfl) as R1.
  rewrite free_list_remove_unlink.
  rewrite (mark_alloc_state _ _ _ _ x R1 Ix).
  destruct (base_block _ _ _ B Ix) as (F1 & F2 & F3 & F4 & F5 & F6 & F7 & F8 & F9 & Ee & _).
  unfold b_end in *. rdwr.
  rewrite (unlink_eval _ _ _ _ _ _ _ R Hi Hfl).
  assert (Hin' : forall y, In y (fl i) -> y + 32 <= c).
  { intros y Hy. destruct (listed_block _ _ _ _ _ _ B P Hi Hy)
      as (z & _ & _ & _ & _ & _ & _ & _ & _ & _ & Z1 & Z2 & _). lia. }
  unfold LISTCOUNT, WSIZE in *.
  apply unlinked_frame.
  - lia.
  - intros Hu. assert (In (last u NULL) (fl i)).
    { rewrite Hfl. apply in_or_app. left. apply last_in. exact Hu. }
    specialize (Hin' _ H). lia.
  - intros Hw. assert (In (hd NULL w) (fl i)).
    { rewrite Hfl. apply in_or_app. right. right. apply hd_in. exact Hw. }
    specialize (Hin' _ H). lia.
Qed.

(** The heap grows by [n - b_size b] behind a free last block [b], which
    then leaves its list and takes the size [n]. *)
Lemma extend_last_free l1 b fl st n :
  rep 0 (l1 ++ [b]) fl st -> b_tag b mod 4 = 0 ->
  b_size b + 8 <= n -> n - b_size b < 9223372036854775808 -> n mod 8 = 0 ->
  brk st + (n - b_size b) <= brk_hi st ->
  exists st1,
    extend_heap (n - b_size b) st = (epilogue st, st1) /\ errno st1 = errno st
    /\ rep 0 (l1 ++ [mkBlk (b_addr b) n (b_tag b + 1)]) (fl_remove fl (b_addr b))
           (SETSIZE (b_addr b) n (free_list_remove (b_addr b) st1)).
Proof.
  intros R Tb Hn Hd Hn8 Hb. pose proof R as (B & _ & _).
  pose proof (base_bounds _ _ B) as (Q1 & Q2 & Q3 & Q4 & Q5 & Q6).
  assert (Ib : In b (l1 ++ [b])) by (apply in_or_app; right; left; reflexivity).
  destruct (base_block _ _ _ B Ib) as (F1 & F2 & F3 & F4 & F5 & F6 & F7 & F8 & F9 & Ee & _).
  pose proof (chain_last _ _ _ _ (base_chain _ _ B)) as El.
  pose proof (base_chain _ _ B) as C. apply chain_app in C. destruct C as (m & C1 & C2).
  assert (Em : m = b_addr b) by (cbn [chain] in C2; lia). subst m.
  destruct B as [B1 B2 B3 [K1 [K2 [K3 K4]]] B5 B6 B7].
  set (d := n - b_size b) in *.
  destruct (extend_heap_ok st d) as
    (st1 & E & G1 & G2 & G3 & G4 & G5 & G6 & G7 & G8 & Flo & T1 & T2 & T3 & T4);
    try assumption; try (unfold d; zmod).
  exists st1. split; [exact E|]. split; [exact G4|].
  pose proof (rd_range st (epilogue st)) as Hr.
  unfold WSIZE in *.
  (* before the epilogue moves, the heap is as it was *)
  assert (RA : rep 0 (l1 ++ [b]) fl (set_epilogue (epilogue st) st1)).
  { replace (l1 ++ [b]) with ((l1 ++ [b]) ++ [] ++ []) in R |- * by (cbn [app]; apply app_nil_r).
    apply (rep_restructure 0 (l1 ++ [b]) [] [] [] fl st _ (epilogue st) (epilogue st));
      try assumption; cbn [init free_lists prologue epilogue brk brk_lo brk_hi set_epilogue];
      unfold WSIZE; try lia; try reflexivity.
    - intros x [].
    - intros x c [].
    - change (rd st1 (epilogue st) mod 4 = 1). zmod.
    - intros x [].
    - intros x []. }
  pose proof (free_list_remove_at _ _ _ _ _ RA Tb) as R2.
  pose proof (free_list_remove_frame _ _ _ _ _ (epilogue st + d) RA Tb) as Fr.
  rewrite free_list_remove_epilogue in R2, Fr.
  destruct (free_list_remove_globals (b_addr b) st1) as (X1 & X2 & X3 & X4 & X5 & X6 & X7 & X8).
  set (s2 := free_list_remove (b_addr b) st1) in *.
  pose proof R2 as (B' & _ & _).
  assert (Im : In (mark b) (l1 ++ [mark b])) by (apply in_or_app; right; left; reflexivity).
  destruct (base_tags _ _ B' _ Im) as [G _]. change (rd s2 (b_addr b) = b_hdr (mark b)) in G.
  unfold b_hdr, mark in G. cbn [b_addr b_size b_tag] in G.
  unfold b_end in *.
  rewrite SETSIZE_eval by lia. rewrite G.
  replace ((b_size b + (b_tag b + 1)) mod 8) with (b_tag b + 1) by zmod.
  change (l1 ++ [mark b]) with (l1 ++ [mark b] ++ []) in R2.
  change (l1 ++ [mkBlk (b_addr b) n (b_tag b + 1)])
    with (l1 ++ [mkBlk (b_addr b) n (b_tag b + 1)] ++ []).
  apply (rep_restructure 0 l1 [mark b] _ [] _ _ _ (b_addr b) (b_addr b + n) R2);
    wr_simpl; cbn [init free_lists prologue epilogue brk brk_lo brk_hi set_epilogue];
    unfold WSIZE; try lia; try reflexivity; try assumption.
  - intros x [<-|[]]. cbn [mark b_tag]. zmod.
  - rewrite X7, G7. exact C1.
  - cbn [chain b_addr b_size b_tag]. unfold MINBLOCK, SIZEOF_BLOCK, WSIZE.
    repeat split; try lia; zmod.
  - cbn [chain]. unfold d in *. lia.
  - intros c Hc. rdwr. reflexivity.
  - intros x c [].
  - rewrite X8, G8. rdwr. fold s2 in Fr.
    change (rd (set_epilogue (epilogue st) s2) (epilogue st + d)) with (rd s2 (epilogue st + d)) in Fr.
    rewrite Fr; [exact T4|]. cbn. lia.
  - intros x [<-|[]]. unfold b_hdr, b_end. cbn [b_addr b_size b_tag]. rdwr.
    split; reflexivity.
  - intros x [<-|[]] _. cbn [b_tag]. zmod.
Qed.

(** ** The first call: [malloc_init] builds an empty heap *)

Lemma sbrk_cases n st :
  0 <= n < 9223372036854775808 ->
  (brk_lo st <= brk st + n /\ brk st + n <= brk_hi st
   /\ sbrk n st = (brk st, set_brk (brk st + n) st))
  \/ sbrk n st = (SBRK_FAILED, set_errno ENOMEM st).
Proof.
  intros H. unfold sbrk. rewrite to_intptr_small by exact H.
  destruct (Z.leb_spec (brk_lo st) (brk st + n)); [|right; reflexivity].
  destruct (Z.leb_spec (brk st + n) (brk_hi st)); [|right; reflexivity].
  left. repeat split; assumption.
Qed.

Lemma malloc_init_spec st :
  init st <= 0 -> 0 <= brk st -> brk_lo st <= brk st -> brk_hi st < SIZE_MAX ->
  fst (malloc_init st) = 0 ->
  rep 0 [] (fun _ => []) (snd (malloc_init st)).
Proof.
  intros Hi H0 Hlo Hhi. unfold SIZE_MAX in Hhi. unfold malloc_init.
  destruct (Z.gtb_spec (init st) 0) as [|_]; [lia|].
  change (WSIZE * LISTCOUNT) with 600.
  destruct (sbrk_cases 600 st) as [(_ & L1 & ->)| ->]; [lia| |intros X; discriminate X].
  destruct (Z.eqb_spec (brk st) SBRK_FAILED) as [E|_];
    [unfold SBRK_FAILED, SIZE_MAX in E; lia|].
  set (F := brk st) in *.
  set (st1 := set_mem _ _).
  destruct (sbrk_cases 0 st1) as [(_ & _ & ->)| ->]; [lia| |intros X; discriminate X].
  change (brk st1) with (F + 600). rewrite Z.add_0_r.
  destruct (Z.eqb_spec (F + 600) SBRK_FAILED) as [E|_];
    [unfold SBRK_FAILED, SIZE_MAX in E; lia|].
  set (x := F + 600) in *.
  set (pad := wrap (ALIGN x - x)).
  assert (Hpad : 8 <= pad <= 15 /\ (x + pad) mod 8 = 0).
  { unfold pad. rewrite ALIGN_val. unfold wrap. zmod. }
  set (req := ALIGN (wrap (pad + WSIZE + SIZEOF_BLOCK))).
  assert (Hreq : pad + 40 <= req <= 56).
  { unfold req, WSIZE, SIZEOF_BLOCK. rewrite ALIGN_val. unfold wrap. zmod. }
  set (st2 := set_brk x st1).
  destruct (sbrk_cases req st2) as [(_ & L3 & ->)| ->]; [lia| |intros X; discriminate X].
  change (brk st2) with x in *. change (brk_hi st2) with (brk_hi st) in L3.
  destruct (Z.eqb_spec x SBRK_FAILED) as [E|_];
    [unfold SBRK_FAILED, SIZE_MAX in E; lia|].
  intros _. cbn [snd].
  rewrite (wrap_small (x + pad)) by lia.
  set (P := x + pad) in *.
  set (st3 := set_prologue P _).
  change (prologue st3) with P. unfold WSIZE. rewrite (wrap_small (P + 8)) by lia.
  set (st4 := set_epilogue (P + 8) st3).
  change (prologue st4) with P.
  destruct (BOUNDINIT_eval P st4) as (v1 & -> & V1 & V1').
  set (g1 := Z.lor _ 1).
  change (epilogue (wr P v1 (wr P g1 st4))) with (P + 8).
  destruct (BOUNDINIT_eval (P + 8) (wr P v1 (wr P g1 st4))) as (v2 & -> & V2 & V2').
  set (g2 := Z.lor _ 1).
  set (st5 := wr (P + 8) v2 (wr (P + 8) g2 (wr P v1 (wr P g1 st4)))).
  assert (Hrd : forall c, rd (set_init 1 st5) c
     = rd (wr (P + 8) v2 (wr (P + 8) g2 (wr P v1 (wr P g1 st1)))) c) by reflexivity.
  split; [|split].
  - constructor; cbn [init free_lists prologue epilogue brk brk_lo brk_hi set_init];
      unfold st5; wr_simpl;
      cbn [init free_lists prologue epilogue brk brk_lo brk_hi set_init set_epilogue
           set_prologue set_brk set_free_lists set_mem st4 st3 st2 st1];
      unfold WSIZE, LISTCOUNT, SIZE_MAX; try lia.
    + cbn [chain]. reflexivity.
    + fold st5. rewrite Hrd. rdwr. unfold sentinel. zmod.
    + fold st5. rewrite Hrd. rdwr. exact V2'.
    + intros b [].
  - constructor.
    + intros i Hi'. cbn [hd]. rewrite Hrd. unfold WSIZE, LISTCOUNT in *.
      change (free_lists (set_init 1 st5)) with F. rdwr.
      unfold st1, rd, set_mem. cbn [mem]. apply load_memset_zero; cbn [free_lists set_free_lists]; lia.
    + intros i Hi'. exact I.
  - constructor.
    + intros i _. constructor.
    + intros i j a _ _ [].
    + intros i a _ [].
    + intros b [].
Qed.

(** ** Blocks without free neighbours *)

Lemma sealed_around l1 pre b post l2 :
  no_adj (l1 ++ pre ++ b :: post ++ l2) ->
  free_run pre -> free_run post ->
  (pre = [] -> tail_alloc l1) -> (post = [] -> head_alloc l2) ->
  sealed l1 l2.
Proof.
  intros N H1 H2 H3 H4.
  apply no_adj_app in N. destruct N as (N1 & N & X1).
  apply no_adj_app in N. destruct N as (Np & N & X2).
  change (b :: post ++ l2) with ([b] ++ post ++ l2) in N.
  apply no_adj_app in N. destruct N as (_ & N & X3).
  apply no_adj_app in N. destruct N as (Nq & N2 & X4).
  split; [exact N1|split; [exact N2|split]].
  - destruct H1 as [->|(p & -> & Tp)].
    + apply tail_alloc_not_free. apply H3. reflexivity.
    + intros L. apply X1. split; [exact L|]. exists p, (b :: post ++ l2).
      split; [reflexivity|exact Tp].
  - destruct H2 as [->|(q & -> & Tq)].
    + apply head_alloc_not_free. apply H4. reflexivity.
    + intros L. apply X4. split; [|exact L]. exists [], q. split; [reflexivity|exact Tq].
Qed.

Lemma sealed_free l1 b l2 :
  no_adj (l1 ++ b :: l2) -> b_tag b mod 4 = 0 -> sealed l1 l2.
Proof.
  intros N Tb. apply no_adj_app in N. destruct N as (N1 & N & X1).
  change (b :: l2) with ([b] ++ l2) in N.
  apply no_adj_app in N. destruct N as (_ & N2 & X2).
  split; [exact N1|split; [exact N2|split]].
  - intros L. apply X1. split; [exact L|]. exists b, l2. split; [reflexivity|exact Tb].
  - intros L. apply X2. split; [|exact L]. exists [], b. split; [reflexivity|exact Tb].
Qed.

Lemma sealed_fill l1 m l2 : sealed l1 l2 -> no_adj (l1 ++ m :: l2).
Proof.
  intros (N1 & N2 & L1 & L2).
  apply no_adj_app. split; [exact N1|split; [|tauto]].
  cbn [no_adj]. split; [|exact N2].
  destruct l2 as [|y l2']; [exact I|]. intros [_ Ty]. apply L2.
  exists y, l2'. split; [reflexivity|exact Ty].
Qed.

Lemma sealed_split l1 m r l2 :
  sealed l1 l2 -> b_tag m mod 4 <> 0 -> no_adj (l1 ++ [m; r] ++ l2).
Proof.
  intros (N1 & N2 & L1 & L2) Tm.
  apply no_adj_app. split; [exact N1|split; [|tauto]].
  change ([m; r] ++ l2) with (m :: r :: l2).
  change (no_adj (m :: r :: l2))
    with (~ (b_tag m mod 4 = 0 /\ b_tag r mod 4 = 0) /\ no_adj (r :: l2)).
  split; [tauto|]. cbn [no_adj]. split; [|exact N2].
  destruct l2 as [|y l2']; [exact I|]. intros [_ Ty]. apply L2.
  exists y, l2'. split; [reflexivity|exact Ty].
Qed.

(** ** What the lists hold *)

Lemma listed_nonnull pd bl fl st i a :
  base bl st -> lpure pd bl fl -> 0 <= i < LISTCOUNT -> In a (fl i) -> a <> NULL.
Proof.
  intros B P Hi Ha.
  destruct (listed_block _ _ _ _ _ _ B P Hi Ha) as (b & _ & _ & _ & _ & _ & _ & ? & ? & ? & _).
  unfold NULL. lia.
Qed.

Lemma list_length_le pd bl fl st i :
  rep pd bl fl st -> 0 <= i < LISTCOUNT -> (length (fl i) <= length bl)%nat.
Proof.
  intros (B & M & P) Hi. rewrite <- (length_map b_addr bl).
  apply NoDup_incl_length; [apply (lp_nodup _ _ _ P); exact Hi|].
  intros a Ha. destruct (lp_listed _ _ _ P i a Hi Ha) as (b & Ib & Eb & _).
  apply in_map_iff. exists b. split; assumption.
Qed.

Lemma fl_remove_all_in q : forall fl i x,
  In x (fl_remove_all fl q i) <-> In x (fl i) /\ ~ In x (map b_addr q).
Proof.
  induction q as [|y q IH]; intros fl i x.
  - cbn. tauto.
  - change (fl_remove_all fl (y :: q)) with (fl_remove_all (fl_remove fl (b_addr y)) q).
    rewrite IH. unfold fl_remove. cbn [map In]. split.
    + intros [H1 H2]. apply in_remove in H1. destruct H1 as [H1 H3].
      split; [exact H1|]. intros [E|E]; [congruence|tauto].
    + intros [H1 H2]. split; [|tauto]. apply in_in_remove; [|exact H1].
      intros E. apply H2. left. congruence.
Qed.

Lemma shorter_list (l l' : list Z) a :
  NoDup l' -> In a l -> (forall x, In x l' -> In x l /\ x <> a) ->
  (length l' < length l)%nat.
Proof.
  intros N Ha H.
  apply Nat.le_lt_trans with (length (remove Z.eq_dec a l)).
  - apply NoDup_incl_length; [exact N|]. intros x Hx. destruct (H x Hx) as [H1 H2].
    apply in_in_remove; assumption.
  - apply remove_length_lt. exact Ha.
Qed.

(** ** The sweep of the unsorted list *)

(** One round: the head of the unsorted list is merged with its free
    neighbours and leaves the lists, flagged allocated. *)
Lemma sweep_step bl fl st a rest :
  rep 0 bl fl st -> fl 0 = a :: rest ->
  exists l1 m l2 fl1 stc,
    coalesce a st = (b_addr m, stc)
    /\ rep 0 (l1 ++ m :: l2) fl1
         (if ISALLOC stc (b_addr m) =? 0 then free_list_remove (b_addr m) stc else stc)
    /\ b_tag m mod 4 = 1
    /\ (length (fl1 0%Z) < length (fl 0%Z))%nat
    /\ (length (l1 ++ m :: l2) <= length bl)%nat
    /\ (no_adj bl -> sealed l1 l2).
Proof.
  intros R Hfl. pose proof R as (B & M & P).
  assert (H0 : 0 <= 0 < LISTCOUNT) by (unfold LISTCOUNT; lia).
  assert (Ha : In a (fl 0)) by (rewrite Hfl; left; reflexivity).
  destruct (lp_listed _ _ _ P 0 a H0 Ha) as (b & Ib & Eb & Tb & _). subst a.
  destruct (neighbours _ _ _ _ R Ib) as (l1 & pre & post & l2 & E & H1 & H2 & H3 & H4).
  subst bl.
  destruct (coalesce_spec _ _ _ _ _ _ _ R H1 H2 H3 H4) as (stc & Ec & Hc).
  destruct Hc as [(-> & -> & ->)|(Hne & tg & T1 & T2 & R1)].
  - (* no free neighbour *)
    cbn [app hd] in *.
    destruct (SIZE_at _ _ _ _ _ R) as (_ & A & _).
    exists l1, (mark b), l2, (fl_remove fl (b_addr b)), st.
    cbn [mark b_addr b_tag]. rewrite A.
    replace (b_tag b mod 2) with 0 by zmod. cbn [Z.eqb].
    pose proof (free_list_remove_at _ _ _ _ _ R Tb) as R1.
    split; [exact Ec|]. split; [exact R1|]. split; [zmod|].
    split; [|split].
    + destruct R1 as (_ & _ & P1).
      apply (shorter_list _ _ (b_addr b)); [apply (lp_nodup _ _ _ P1); exact H0|exact Ha|].
      intros x Hx. unfold fl_remove in Hx. apply in_remove in Hx. exact Hx.
    + rewrite !length_app. cbn [length]. lia.
    + intros N. apply (sealed_around l1 [] b [] l2); assumption.
  - (* merged *)
    rewrite Tb in R1. cbn [Z.eqb] in R1.
    set (m := mkBlk (b_addr (hd b pre)) (sizes (pre ++ b :: post)) tg) in *.
    destruct (SIZE_at _ _ _ _ _ R1) as (_ & A & _).
    exists l1, m, l2, (fl_remove_all fl (pre ++ post ++ [b])), stc.
    rewrite A. change (b_tag m) with tg. replace (tg mod 2) with 1 by zmod. cbn [Z.eqb].
    split; [exact Ec|]. split; [exact R1|]. split; [exact T2|].
    split; [|split].
    + destruct R1 as (_ & _ & P1).
      apply (shorter_list _ _ (b_addr b)); [apply (lp_nodup _ _ _ P1); exact H0|exact Ha|].
      intros x Hx. apply fl_remove_all_in in Hx. destruct Hx as [Hx1 Hx2].
      split; [exact Hx1|]. intros ->. apply Hx2. rewrite !map_app. cbn [map].
      apply in_or_app. right. apply in_or_app. right. left. reflexivity.
    + rewrite !length_app. cbn [length]. rewrite !length_app. lia.
    + intros N. apply (sealed_around l1 pre b post l2); assumption.
Qed.

Lemma sweep_unsorted_spec size : forall fuel bl fl st,
  rep 0 bl fl st -> (length (fl 0%Z) < fuel)%nat ->
  exists r st' bl' fl',
    sweep_unsorted fuel size st = Some (r, st') /\ rep 0 bl' fl' st'
    /\ (length bl' <= length bl)%nat
    /\ ((r = NULL /\ fl' 0 = [] /\ (no_adj bl -> no_adj bl'))
        \/ (exists l1 m l2, bl' = l1 ++ m :: l2 /\ r = b_addr m /\ b_tag m mod 4 = 1
              /\ size <= b_size m /\ (no_adj bl -> sealed l1 l2))).
Proof.
  induction fuel as [|fuel IH]; intros bl fl st R Hlen; [lia|].
  pose proof R as (B & M & P).
  assert (H0 : 0 <= 0 < LISTCOUNT) by (unfold LISTCOUNT; lia).
  cbn [sweep_unsorted]. rewrite (list_slot_eq _ _ _ B H0), (lm_heads _ _ M 0 H0).
  destruct (fl 0) as [|a rest] eqn:Hfl.
  - cbn [hd]. rewrite Z.eqb_refl. exists NULL, st, bl, fl.
    split; [reflexivity|]. split; [exact R|]. split; [lia|]. left. tauto.
  - cbn [hd].
    assert (Ha : a <> NULL).
    { apply (listed_nonnull _ _ _ _ 0 a B P H0). rewrite Hfl. left. reflexivity. }
    destruct (Z.eqb_spec a NULL) as [|_]; [contradiction|].
    destruct (sweep_step _ _ _ _ _ R Hfl) as (l1 & m & l2 & fl1 & stc & Ec & R1 & Tm & L1 & L2 & N1).
    rewrite Ec. set (st1 := if ISALLOC stc (b_addr m) =? 0 then _ else _) in *.
    destruct (SIZE_at _ _ _ _ _ R1) as (Sm & _ & S1 & S2 & S3 & _ & S5 & S6 & S7 & S8).
    rewrite Sm. destruct (Z.geb_spec (b_size m) size) as [Hge|Hlt].
    + exists (b_addr m), st1, (l1 ++ m :: l2), fl1.
      split; [reflexivity|]. split; [exact R1|]. split; [exact L2|]. right.
      exists l1, m, l2.
      split; [reflexivity|split; [reflexivity|split; [exact Tm|split; [lia|exact N1]]]].
    + assert (Im : In m (l1 ++ m :: l2)) by (apply in_or_app; right; left; reflexivity).
      pose proof (free_list_insert_spec _ _ _ _ m false R1 Im) as R2.
      destruct R1 as (B1 & _ & _).
      rewrite (retag_mid _ _ _ _ _ _ (base_chain _ _ B1)) in R2.
      cbv beta iota in R2.
      assert (Hidx : 3 <= find_list_index (b_size m) < LISTCOUNT).
      { pose proof (base_bounds _ _ B1). apply find_list_index_range. lia. }
      specialize (R2 ltac:(right; split; [reflexivity|lia])).
      destruct (IH _ _ _ R2) as (r & st' & bl' & fl' & Es & R' & Ll & Hr).
      { unfold upd. destruct (Z.eqb_spec 0 (find_list_index (b_size m))) as [E0|_]; [lia|].
        rewrite Hfl in L1. cbn [length] in *. lia. }
      exists r, st', bl', fl'. split; [exact Es|]. split; [exact R'|].
      split; [rewrite length_app in *; cbn [length] in *; lia|].
      destruct Hr as [(-> & F0 & Hn)|(k1 & k & k2 & -> & -> & Tk & Sk & Hn)].
      * left. split; [reflexivity|split; [exact F0|]]. intros N. apply Hn.
        apply sealed_fill. apply N1. exact N.
      * right. exists k1, k, k2.
        split; [reflexivity|split; [reflexivity|split; [exact Tk|split; [exact Sk|]]]].
        intros N. apply Hn. apply sealed_fill. apply N1. exact N.
Qed.

(** ** The scan of the size-class lists *)

Lemma find_in_list_loop_spec bl fl st i size :
  rep 0 bl fl st -> 0 <= i < LISTCOUNT ->
  forall l2 l1 fuel, fl i = l1 ++ l2 -> (length l2 < fuel)%nat ->
  exists r, find_in_list_loop fuel st (hd NULL l2) size = Some r
    /\ ((r = NULL /\ forall b, In b bl -> In (b_addr b) l2 -> b_size b < size)
        \/ (exists b, In b bl /\ b_addr b = r /\ In r l2 /\ size <= b_size b)).
Proof.
  intros R Hi. pose proof R as (B & M & P).
  induction l2 as [|a l2 IH]; intros l1 fuel Hfl Hlen.
  - destruct fuel as [|fuel]; [cbn in Hlen; lia|]. cbn [find_in_list_loop hd].
    rewrite Z.eqb_refl. exists NULL. split; [reflexivity|]. left.
    split; [reflexivity|]. intros b _ [].
  - destruct fuel as [|fuel]; [cbn in Hlen; lia|]. cbn [find_in_list_loop hd].
    assert (Ha : In a (fl i)) by (rewrite Hfl; apply in_or_app; right; left; reflexivity).
    pose proof (listed_nonnull _ _ _ _ i a B P Hi Ha) as Hn.
    destruct (Z.eqb_spec a NULL) as [|_]; [contradiction|].
    destruct (listed_block _ _ _ _ _ _ B P Hi Ha)
      as (b & Ib & Eb & Tb & _ & _ & _ & Z1 & Z2 & Z3 & Z4 & Z5 & Z6 & Z7).
    subst a. rewrite (SIZE_blk _ _ _ B Ib).
    destruct (Z.geb_spec (b_size b) size) as [Hge|Hlt].
    + exists (b_addr b). split; [reflexivity|]. right. exists b.
      split; [exact Ib|split; [reflexivity|split; [left; reflexivity|lia]]].
    + pose proof (lm_links _ _ M i Hi) as L. rewrite Hfl in L.
      apply lseg_mid in L. destruct L as [_ Ln].
      unfold next_of. unfold OFF_NEXT in *. rewrite wrap_small by lia. rewrite Ln.
      destruct (IH (l1 ++ [b_addr b]) fuel) as (r & Er & Hr).
      { rewrite Hfl, <- app_assoc. reflexivity. }
      { cbn [length] in Hlen. lia. }
      exists r. split; [exact Er|].
      destruct Hr as [(-> & Hall)|(b' & Ib' & Eb' & Ir & Sb')].
      * left. split; [reflexivity|]. intros b' Ib' [E|Hin]; [|apply Hall; assumption].
        apply (chain_addr_inj _ _ _ _ _ (base_chain _ _ B) Ib Ib') in E. subst b'. exact Hlt.
      * right. exists b'. split; [exact Ib'|split; [exact Eb'|split; [right; exact Ir|exact Sb']]].
Qed.

(** In the lists of the small classes, the index decides the size. *)
Lemma small_class_size size sb :
  32 <= size <= MAXSMALL -> size mod 8 = 0 ->
  32 <= sb < 18446744073709551616 -> sb mod 8 = 0 ->
  find_list_index size <= find_list_index sb -> size <= sb.
Proof.
  unfold MAXSMALL. intros H1 H2 H3 H4 H.
  destruct (Z.lt_ge_cases sb 512) as [L|L]; [|lia].
  rewrite !find_list_index_small in H by lia. zmod.
Qed.

Lemma scan_lists_spec bl fl st size fuel :
  rep 0 bl fl st -> 32 <= size -> size mod 8 = 0 -> (length bl < fuel)%nat ->
  forall n idx, 1 <= idx -> find_list_index size <= idx -> idx + Z.of_nat n = LISTCOUNT ->
  exists r, scan_lists n fuel st idx size = Some r
    /\ ((r = NULL
         /\ (forall i b, idx <= i < LISTCOUNT -> In b bl -> In (b_addr b) (fl i) ->
               b_size b < size)
         /\ (size <= MAXSMALL -> forall j, idx <= j < LISTCOUNT -> fl j = []))
        \/ (exists i b, idx <= i < LISTCOUNT /\ In b bl /\ b_addr b = r /\ In r (fl i)
              /\ b_tag b mod 4 = 0 /\ size <= b_size b
              /\ (size <= MAXSMALL ->
                    r = hd NULL (fl i) /\ forall j, idx <= j < i -> fl j = []))).
Proof.
  intros R Hs Hs8 Hlen. pose proof R as (B & M & P).
  induction n as [|n IH]; intros idx H1 Hidx Hn.
  - cbn [scan_lists]. exists NULL. split; [reflexivity|]. left.
    split; [reflexivity|]. split; intros; lia.
  - cbn [scan_lists].
    assert (Hi : 0 <= idx < LISTCOUNT) by lia.
    rewrite (list_slot_eq _ _ _ B Hi), (lm_heads _ _ M idx Hi).
    assert (Hnext : exists r, scan_lists n fuel st (idx + 1) size = Some r
      /\ ((r = NULL
           /\ (forall i b, idx + 1 <= i < LISTCOUNT -> In b bl -> In (b_addr b) (fl i) ->
                 b_size b < size)
           /\ (size <= MAXSMALL -> forall j, idx + 1 <= j < LISTCOUNT -> fl j = []))
          \/ (exists i b, idx + 1 <= i < LISTCOUNT /\ In b bl /\ b_addr b = r /\ In r (fl i)
                /\ b_tag b mod 4 = 0 /\ size <= b_size b
                /\ (size <= MAXSMALL ->
                      r = hd NULL (fl i) /\ forall j, idx + 1 <= j < i -> fl j = [])))).
    { apply IH; lia. }
    assert (Hskip : (forall b, In b bl -> In (b_addr b) (fl idx) -> b_size b < size) ->
                    (size <= MAXSMALL -> fl idx = []) ->
      exists r, scan_lists n fuel st (idx + 1) size = Some r
      /\ ((r = NULL
         /\ (forall i b, idx <= i < LISTCOUNT -> In b bl -> In (b_addr b) (fl i) ->
               b_size b < size)
         /\ (size <= MAXSMALL -> forall j, idx <= j < LISTCOUNT -> fl j = []))
        \/ (exists i b, idx <= i < LISTCOUNT /\ In b bl /\ b_addr b = r /\ In r (fl i)
              /\ b_tag b mod 4 = 0 /\ size <= b_size b
              /\ (size <= MAXSMALL ->
                    r = hd NULL (fl i) /\ forall j, idx <= j < i -> fl j = [])))).
    { intros Hall Hemp. destruct Hnext as (r & Er & Hr). exists r. split; [exact Er|].
      destruct Hr as [(-> & A1 & A2)|(i & b & I1 & I2 & I3 & I4 & I5 & I6 & I7)].
      - left. split; [reflexivity|]. split.
        + intros i b Hi' Ib Hin. destruct (Z.eq_dec i idx) as [->|Hne];
            [apply Hall; assumption|apply (A1 i); try assumption; lia].
        + intros Hsm j Hj. destruct (Z.eq_dec j idx) as [->|Hne];
            [apply Hemp; exact Hsm|apply A2; [exact Hsm|lia]].
      - right. exists i, b. split; [lia|]. do 5 (split; [assumption|]).
        intros Hsm. destruct (I7 Hsm) as [J1 J2]. split; [exact J1|].
        intros j Hj. destruct (Z.eq_dec j idx) as [->|Hne];
          [apply Hemp; exact Hsm|apply J2; lia]. }
    unfold find_in_list. destruct (Z.leb_spec size MAXSMALL) as [Hsm|Hbig].
    + (* small request: the head of the list, unchecked *)
      destruct (fl idx) as [|a l] eqn:Hfl.
      * cbn [hd]. rewrite Z.eqb_refl. apply Hskip; [|reflexivity].
        intros b _ Hin. destruct Hin.
      * cbn [hd].
        assert (Ha : In a (fl idx)) by (rewrite Hfl; left; reflexivity).
        pose proof (listed_nonnull _ _ _ _ idx a B P Hi Ha) as Hnn.
        destruct (Z.eqb_spec a NULL) as [|_]; [contradiction|].
        destruct (listed_block _ _ _ _ _ _ B P Hi Ha)
          as (b & Ib & Eb & Tb & _ & Fi & _ & Z1 & Z2 & Z3 & Z4 & Z5 & Z6 & Z7).
        destruct (base_block _ _ _ B Ib) as (_ & _ & _ & _ & _ & _ & _ & F8 & _).
        exists a. split; [reflexivity|]. right. exists idx, b.
        split; [lia|]. split; [exact Ib|]. split; [exact Eb|]. split; [exact Ha|].
        split; [exact Tb|]. split.
        -- apply small_class_size; try assumption; lia.
        -- intros _. split; [rewrite Hfl; reflexivity|]. intros j Hj. lia.
    + (* large request: first fit in the list *)
      destruct (find_in_list_loop_spec _ _ _ idx size R Hi (fl idx) [] fuel eq_refl)
        as (r & Er & Hr).
      { pose proof (list_length_le _ _ _ _ idx R Hi). lia. }
      rewrite Er. destruct Hr as [(-> & Hall)|(b & Ib & Eb & Ir & Sb)].
      * rewrite Z.eqb_refl. apply Hskip; [exact Hall|]. intros; lia.
      * assert (Hnn : r <> NULL) by (apply (listed_nonnull _ _ _ _ idx r B P Hi Ir)).
        destruct (Z.eqb_spec r NULL) as [|_]; [contradiction|].
        exists r. split; [reflexivity|]. right. exists idx, b.
        split; [lia|]. split; [exact Ib|]. split; [exact Eb|]. split; [exact Ir|].
        split; [|split; [exact Sb|intros; lia]].
        destruct (lp_listed _ _ _ P idx r Hi Ir) as (b' & Ib' & Eb' & Tb' & _).
        rewrite <- Eb in Eb'.
        apply (chain_addr_inj _ _ _ _ _ (base_chain _ _ B) Ib' Ib) in Eb'. subst b'. exact Tb'.
Qed.

(** ** [find_block] *)

Lemma find_block_spec fuel size bl fl st :
  rep 0 bl fl st -> 32 <= size < 18446744073709551616 -> size mod 8 = 0 ->
  (length bl < fuel)%nat ->
  exists r st' bl' fl',
    find_block fuel size st = Some (r, st') /\ rep 0 bl' fl' st'
    /\ (length bl' <= length bl)%nat
    /\ ((r = NULL /\ (no_adj bl -> no_adj bl')
         /\ (forall b, In b bl' -> b_tag b mod 4 = 0 -> b_size b < size))
        \/ (exists l1 m l2, bl' = l1 ++ m :: l2 /\ r = b_addr m /\ size <= b_size m
              /\ (no_adj bl -> sealed l1 l2))).
Proof.
  intros R Hs Hs8 Hlen.
  assert (H0 : 0 <= 0 < LISTCOUNT) by (unfold LISTCOUNT; lia).
  destruct (sweep_unsorted_spec size fuel _ _ _ R) as (r & st' & bl' & fl' & Es & R' & Ll & Hr).
  { pose proof (list_length_le _ _ _ _ 0 R H0). lia. }
  pose proof R' as (B' & M' & P').
  unfold find_block. rewrite Es.
  destruct Hr as [(-> & F0 & Hn)|(l1 & m & l2 & -> & -> & Tm & Sm & Hn)].
  - rewrite Z.eqb_refl.
    pose proof (find_list_index_range size Hs) as Hidx.
    destruct (scan_lists_spec _ _ _ size fuel R' ltac:(lia) Hs8 ltac:(lia)
                (Z.to_nat (LISTCOUNT - find_list_index size)) (find_list_index size))
      as (r & Er & Hr); try lia.
    rewrite Er. exists r, st', bl', fl'.
    split; [reflexivity|]. split; [exact R'|]. split; [exact Ll|].
    destruct Hr as [(-> & A1 & _)|(i & b & I1 & I2 & I3 & I4 & I5 & I6 & _)].
    + left. split; [reflexivity|]. split; [exact Hn|].
      intros b Ib Tb. destruct (Z.lt_ge_cases (b_size b) size) as [L|L]; [exact L|].
      destruct (lp_free _ _ _ P' b Ib (block_addr_pos _ _ _ B' Ib)) as [_ Hl].
      destruct (Hl Tb) as (i & Hi & Hin).
      destruct (Z.eq_dec i 0) as [->|Hne]; [rewrite F0 in Hin; destruct Hin|].
      destruct (lp_listed _ _ _ P' i _ Hi Hin) as (b0 & Ib0 & Eb0 & _ & _ & Fi).
      apply (chain_addr_inj _ _ _ _ _ (base_chain _ _ B') Ib0 Ib) in Eb0. subst b0.
      destruct (base_block _ _ _ B' Ib) as (? & ? & ? & ? & ? & ? & ? & ? & ? & Ee & _).
      unfold b_end in *.
      pose proof (find_list_index_le size (b_size b) ltac:(lia) L ltac:(lia)).
      apply (A1 i); try assumption. specialize (Fi Hne). lia.
    + right. destruct (in_split _ _ I2) as (l1 & l2 & ->).
      exists l1, b, l2. split; [reflexivity|]. split; [symmetry; exact I3|].
      split; [exact I6|]. intros N. apply (sealed_free l1 b l2); [|exact I5].
      apply Hn. exact N.
  - assert (Im : In m (l1 ++ m :: l2)) by (apply in_or_app; right; left; reflexivity).
    pose proof (block_addr_pos _ _ _ B' Im) as Hnn.
    destruct (Z.eqb_spec (b_addr m) NULL) as [E|_]; [unfold NULL in E; contradiction|].
    exists (b_addr m), st', (l1 ++ m :: l2), fl'.
    split; [reflexivity|]. split; [exact R'|]. split; [exact Ll|].
    right. exists l1, m, l2.
    split; [reflexivity|split; [reflexivity|split; [exact Sm|exact Hn]]].
Qed.

(** ** [malloc] *)

(** The block before the epilogue. *)
Lemma PREV_epilogue bl st :
  base bl st ->
  (bl = [] -> ISALLOC st (PREVRAW st (epilogue st)) = 1)
  /\ (forall l1 b, bl = l1 ++ [b] -> PREVRAW st (epilogue st) = b_addr b).
Proof.
  intros B. pose proof (base_bounds _ _ B) as (Q1 & Q2 & Q3 & Q4 & Q5 & Q6).
  unfold PREVRAW, PREVFTR, WSIZE. rewrite (wrap_small (epilogue st - 8)) by lia. split.
  - intros ->. pose proof (base_chain _ _ B) as C. cbn [chain] in C. unfold WSIZE in C.
    replace (epilogue st - 8) with (prologue st) by lia.
    destruct (sentinel_facts _ (base_pro _ _ B)) as (_ & _ & H). unfold SIZE. rewrite H.
    rewrite Z.sub_0_r, wrap_small by lia.
    unfold ISALLOC. rewrite land_1. pose proof (base_epi _ _ B). zmod.
  - intros l1 b ->.
    assert (Ib : In b (l1 ++ [b])) by (apply in_or_app; right; left; reflexivity).
    pose proof (chain_last _ _ _ _ (base_chain _ _ B)) as El. rewrite <- El.
    rewrite (SIZE_ftr _ _ _ B Ib).
    destruct (base_block _ _ _ B Ib) as (? & ? & ? & ? & ? & ? & ? & ? & ? & Ee & _).
    rewrite wrap_small by lia. lia.
Qed.

(** The end of [malloc]: the block found leaves its list if it was on one,
    and gives back what it has too much. *)
Lemma malloc_finish_spec l1 m l2 fl st size :
  rep 0 (l1 ++ m :: l2) fl st -> 32 <= size <= b_size m -> size mod 8 = 0 ->
  exists st' bl' fl' m',
    malloc_finish (b_addr m) size st = (b_addr m + WSIZE, st')
    /\ rep 0 bl' fl' st' /\ In m' bl' /\ b_addr m' = b_addr m /\ b_tag m' mod 4 = 1
    /\ size <= b_size m'
    /\ (sealed l1 l2 -> no_adj bl').
Proof.
  intros R Hs Hs8.
  destruct (SIZE_at _ _ _ _ _ R) as (_ & A & S1 & S2 & S3 & S4 & S5 & S6 & S7 & S8).
  pose proof R as (B & _ & _). pose proof (base_bounds _ _ B) as (Q1 & Q2 & _).
  unfold malloc_finish, BLOCKTOUSER, WSIZE. rewrite wrap_small by lia. rewrite A.
  assert (H1 : exists m1 fl1,
    rep 0 (l1 ++ [m1] ++ l2) fl1
        (if b_tag m mod 2 =? 0 then free_list_remove (b_addr m) st else st)
    /\ b_addr m1 = b_addr m /\ b_size m1 = b_size m /\ b_tag m1 mod 4 = 1).
  { destruct (Z.eqb_spec (b_tag m mod 2) 0) as [E|E].
    - exists (mark m), (fl_remove fl (b_addr m)).
      split; [apply free_list_remove_at; [exact R|zmod]|].
      cbn [mark b_addr b_size b_tag]. repeat split. zmod.
    - exists m, fl. split; [exact R|]. repeat split. zmod. }
  set (st1 := if b_tag m mod 2 =? 0 then _ else _) in *.
  destruct H1 as (m1 & fl1 & R1 & E1 & E2 & T1). rewrite <- E1.
  destruct (split_spec l1 m1 l2 fl1 st1 size R1 T1 ltac:(lia) Hs8) as [Hsame Hcut].
  destruct (Z.lt_ge_cases (b_size m1 - size) 32) as [L|L].
  - rewrite (Hsame L). exists st1, (l1 ++ [m1] ++ l2), fl1, m1.
    split; [reflexivity|]. split; [exact R1|].
    split; [apply in_or_app; right; left; reflexivity|].
    split; [reflexivity|]. split; [exact T1|]. split; [lia|].
    intros Sd. apply sealed_fill. exact Sd.
  - destruct (Hcut L) as (tf & F1 & F2 & R2).
    eexists _, _, _, (mkBlk (b_addr m1) size (b_tag m1)).
    split; [reflexivity|]. split; [exact R2|].
    split; [apply in_or_app; right; left; reflexivity|].
    split; [reflexivity|]. split; [exact T1|]. split; [cbn; lia|].
    intros Sd. apply sealed_split; [exact Sd|cbn [b_tag]; lia].
Qed.

(** No block fits and the last block is allocated (or there is none): a
    new block is taken from the system. *)
Lemma malloc_new_block size bl fl st :
  rep 0 bl fl st -> 32 <= size < 9223372036854775808 -> size mod 8 = 0 ->
  exists r st' bl' fl',
    (let '(found_block, st) := extend_heap size st in
     if found_block =? NULL then Some (NULL, st)
     else Some (malloc_finish found_block size st)) = Some (r, st')
    /\ rep 0 bl' fl' st'
    /\ (no_adj bl -> ~ last_free bl -> no_adj bl')
    /\ ((r = NULL /\ errno st' = ENOMEM)
        \/ (exists m, In m bl' /\ r = b_addr m + WSIZE /\ b_tag m mod 4 = 1
              /\ size <= b_size m)).
Proof.
  intros R Hs Hs8. pose proof R as (B & _ & _).
  pose proof (base_bounds _ _ B) as (Q1 & Q2 & Q3 & Q4 & Q5 & Q6).
  destruct (Z.le_gt_cases (brk st + size) (brk_hi st)) as [L|L].
  - destruct (extend_heap_block _ _ _ size R Hs Hs8 L) as (st1 & t & E & T1 & T2 & _ & R1).
    rewrite E.
    destruct (Z.eqb_spec (epilogue st) NULL) as [E0|_]; [unfold NULL in E0; lia|].
    set (m := mkBlk (epilogue st) size t) in *.
    destruct (malloc_finish_spec bl m [] fl st1 size R1 ltac:(cbn; lia) Hs8)
      as (st' & bl' & fl' & m' & Ef & R' & Im & Ea & Tm & Sm & Hn).
    change (b_addr m) with (epilogue st) in *.
    exists (epilogue st + WSIZE), st', bl', fl'.
    split; [rewrite Ef; reflexivity|]. split; [exact R'|]. split.
    + intros N L1. apply Hn. split; [exact N|]. split; [exact I|]. split; [exact L1|].
      intros (x & l' & Ex & _). discriminate Ex.
    + right. exists m'. rewrite Ea. tauto.
  - rewrite (extend_heap_full size st ltac:(lia) ltac:(lia)). rewrite Z.eqb_refl.
    exists NULL, (set_errno ENOMEM st), bl, fl.
    split; [reflexivity|]. split; [apply rep_set_errno; exact R|].
    split; [tauto|]. left. split; reflexivity.
Qed.

(** No block fits and the last block is free: the heap grows by what the
    last block lacks. *)
Lemma malloc_grow_last size l1 b fl st :
  rep 0 (l1 ++ [b]) fl st -> b_tag b mod 4 = 0 -> b_size b < size ->
  32 <= size < 9223372036854775808 -> size mod 8 = 0 ->
  exists r st' bl' fl',
    (let '(r, st) := extend_heap (wrap (size - SIZE st (b_addr b))) st in
     if r =? NULL then Some (NULL, st)
     else
       let st := free_list_remove (b_addr b) st in
       let st := SETSIZE (b_addr b) size st in
       Some (malloc_finish (b_addr b) size st)) = Some (r, st')
    /\ rep 0 bl' fl' st'
    /\ (no_adj (l1 ++ [b]) -> no_adj bl')
    /\ ((r = NULL /\ errno st' = ENOMEM)
        \/ (exists m, In m bl' /\ r = b_addr m + WSIZE /\ b_tag m mod 4 = 1
              /\ size <= b_size m)).
Proof.
  intros R Tb Hlt Hs Hs8. pose proof R as (B & _ & _).
  pose proof (base_bounds _ _ B) as (Q1 & Q2 & Q3 & Q4 & Q5 & Q6).
  assert (Ib : In b (l1 ++ [b])) by (apply in_or_app; right; left; reflexivity).
  destruct (base_block _ _ _ B Ib) as (F1 & F2 & F3 & F4 & F5 & F6 & F7 & F8 & F9 & Ee & _).
  rewrite (SIZE_blk _ _ _ B Ib). rewrite wrap_small by lia.
  assert (Hd : 8 <= size - b_size b) by zmod.
  destruct (Z.le_gt_cases (brk st + (size - b_size b)) (brk_hi st)) as [L|L].
  - destruct (extend_last_free l1 b fl st size R Tb ltac:(lia) ltac:(lia) Hs8 L)
      as (st1 & E & _ & R1).
    rewrite E.
    destruct (Z.eqb_spec (epilogue st) NULL) as [E0|_]; [unfold NULL in E0; lia|].
    set (m := mkBlk (b_addr b) size (b_tag b + 1)) in *.
    destruct (malloc_finish_spec l1 m [] _ _ size R1 ltac:(cbn; lia) Hs8)
      as (st' & bl' & fl' & m' & Ef & R' & Im & Ea & Tm & Sm & Hn).
    change (b_addr m) with (b_addr b) in *.
    exists (b_addr b + WSIZE), st', bl', fl'.
    split; [cbv zeta; rewrite Ef; reflexivity|]. split; [exact R'|]. split.
    + intros N. apply Hn. apply (sealed_free l1 b []); assumption.
    + right. exists m'. rewrite Ea. tauto.
  - rewrite (extend_heap_full (size - b_size b) st ltac:(lia) ltac:(lia)).
    rewrite Z.eqb_refl.
    exists NULL, (set_errno ENOMEM st), (l1 ++ [b]), fl.
    split; [reflexivity|]. split; [apply rep_set_errno; exact R|].
    split; [tauto|]. left. split; reflexivity.
Qed.

Lemma malloc_block_spec fuel size bl fl st :
  rep 0 bl fl st -> 32 <= size < 9223372036854775808 -> size mod 8 = 0 ->
  (length bl < fuel)%nat ->
  exists r st' bl' fl',
    malloc_block fuel size st = Some (r, st') /\ rep 0 bl' fl' st'
    /\ (no_adj bl -> no_adj bl')
    /\ ((r = NULL /\ errno st' = ENOMEM)
        \/ (exists m, In m bl' /\ r = b_addr m + WSIZE /\ b_tag m mod 4 = 1
              /\ size <= b_size m)).
Proof.
  intros R Hs Hs8 Hlen.
  destruct (find_block_spec fuel size _ _ _ R ltac:(lia) Hs8 Hlen)
    as (r & st1 & bl1 & fl1 & Ef & R1 & _ & Hr).
  unfold malloc_block. rewrite Ef. pose proof R1 as (B1 & _ & P1).
  destruct Hr as [(-> & Hn & Hsmall)|(l1 & m & l2 & -> & -> & Sm & Hn)].
  - rewrite Z.eqb_refl.
    destruct (PREV_epilogue _ _ B1) as [Hnil Hlast].
    assert (Hbl : bl1 = [] \/ exists l1 b, bl1 = l1 ++ [b]).
    { destruct bl1 as [|x l]; [left; reflexivity|right].
      destruct (exists_last (l := x :: l) ltac:(discriminate)) as (l' & y & ->).
      exists l', y. reflexivity. }
    assert (Hnew : ~ last_free bl1 ->
      (ISALLOC st1 (PREVRAW st1 (epilogue st1)) =? 0) = false ->
      exists r st' bl' fl',
        (if ISALLOC st1 (PREVRAW st1 (epilogue st1)) =? 0
         then
           let found_block := PREVRAW st1 (epilogue st1) in
           let '(r, st) := extend_heap (wrap (size - SIZE st1 found_block)) st1 in
           if r =? NULL then Some (NULL, st)
           else
             let st := free_list_remove found_block st in
             let st := SETSIZE found_block size st in
             Some (malloc_finish found_block size st)
         else
           let '(found_block, st) := extend_heap size st1 in
           if found_block =? NULL then Some (NULL, st)
           else Some (malloc_finish found_block size st)) = Some (r, st')
        /\ rep 0 bl' fl' st' /\ (no_adj bl -> no_adj bl')
        /\ ((r = NULL /\ errno st' = ENOMEM)
            \/ (exists m, In m bl' /\ r = b_addr m + WSIZE /\ b_tag m mod 4 = 1
                  /\ size <= b_size m))).
    { intros Hl ->.
      destruct (malloc_new_block size _ _ _ R1 Hs Hs8) as (r & st' & bl' & fl' & E & R' & N & Hr).
      exists r, st', bl', fl'. split; [exact E|]. split; [exact R'|].
      split; [|exact Hr]. intros N0. apply N; [apply Hn; exact N0|exact Hl]. }
    destruct Hbl as [->|(l1 & b & ->)].
    + apply Hnew.
      * intros (l' & x & E & _). destruct l'; discriminate E.
      * rewrite (Hnil eq_refl). reflexivity.
    + rewrite (Hlast l1 b eq_refl) in *.
      assert (Ib : In b (l1 ++ [b])) by (apply in_or_app; right; left; reflexivity).
      rewrite (ISALLOC_blk _ _ _ B1 Ib) in *.
      destruct (lp_free _ _ _ P1 b Ib (block_addr_pos _ _ _ B1 Ib)) as [T _].
      destruct (base_block _ _ _ B1 Ib) as (_ & _ & _ & _ & _ & _ & _ & _ & F9 & _).
      destruct (Z.eqb_spec (b_tag b mod 2) 0) as [E|E].
      * assert (Tb : b_tag b mod 4 = 0) by zmod.
        destruct (malloc_grow_last size l1 b fl1 st1 R1 Tb (Hsmall b Ib Tb) Hs Hs8)
          as (r & st' & bl' & fl' & Eg & R' & N & Hr).
        exists r, st', bl', fl'. split; [exact Eg|]. split; [exact R'|].
        split; [|exact Hr]. intros N0. apply N. apply Hn. exact N0.
      * apply Hnew; [|reflexivity].
        intros (l' & x & Ex & Tx). apply app_inj_tail in Ex. destruct Ex as [_ <-]. zmod.
  - assert (Im : In m (l1 ++ m :: l2)) by (apply in_or_app; right; left; reflexivity).
    pose proof (block_addr_pos _ _ _ B1 Im) as Hnn.
    destruct (Z.eqb_spec (b_addr m) NULL) as [E|_]; [unfold NULL in E; contradiction|].
    destruct (malloc_finish_spec l1 m l2 fl1 st1 size R1 ltac:(lia) Hs8)
      as (st' & bl' & fl' & m' & E & R' & Im' & Ea & Tm & Sm' & N).
    exists (b_addr m + WSIZE), st', bl', fl'. split; [rewrite E; reflexivity|].
    split; [exact R'|]. split; [intros N0; apply N; apply Hn; exact N0|].
    right. exists m'. rewrite Ea. tauto.
Qed.

Lemma malloc_spec fuel size bl fl st :
  rep 0 bl fl st -> 0 <= size -> size + 31 < 9223372036854775808 ->
  (length bl < fuel)%nat ->
  exists r st' bl' fl',
    malloc fuel size st = Some (r, st') /\ rep 0 bl' fl' st'
    /\ (no_adj bl -> no_adj bl')
    /\ ((r = NULL /\ (size = 0 \/ errno st' = ENOMEM))
        \/ (exists m, In m bl' /\ r = b_addr m + WSIZE /\ b_tag m mod 4 = 1
              /\ size + 2 * WSIZE <= b_size m)).
Proof.
  intros R H0 Hs Hlen. pose proof R as (B & _ & _).
  unfold malloc. rewrite (malloc_init_done _ (base_init _ _ B)). cbn [Z.ltb Z.compare].
  destruct (Z.eqb_spec size 0) as [->|Hne].
  - exists NULL, st, bl, fl. split; [reflexivity|]. split; [exact R|].
    split; [tauto|]. left. split; [reflexivity|left; reflexivity].
  - rewrite ALIGN_exact by lia.
    set (s := size + 31 - (size + 31) mod 8).
    assert (Hs' : size + 24 <= s <= size + 31 /\ s mod 8 = 0) by (unfold s; zmod).
    destruct (Z.gtb_spec size s) as [|_]; [lia|].
    assert (Hs32 : 32 <= s < 9223372036854775808) by zmod.
    destruct (malloc_block_spec fuel s _ _ _ R Hs32 ltac:(tauto) Hlen)
      as (r & st' & bl' & fl' & E & R' & N & Hr).
    exists r, st', bl', fl'. split; [exact E|]. split; [exact R'|]. split; [exact N|].
    destruct Hr as [(-> & He)|(m & Im & -> & Tm & Sm)].
    + left. split; [reflexivity|right; exact He].
    + right. exists m. unfold WSIZE. repeat split; try assumption. lia.
Qed.

(** ** Writes to the payload of an allocated block *)

Lemma rep_payload l1 m l2 fl st st' :
  rep 0 (l1 ++ m :: l2) fl st -> b_tag m mod 4 = 1 ->
  brk st' = brk st -> brk_lo st' = brk_lo st -> brk_hi st' = brk_hi st ->
  init st' = init st -> free_lists st' = free_lists st ->
  prologue st' = prologue st -> epilogue st' = epilogue st ->
  (forall c, c <= b_addr m \/ b_end m - 8 <= c -> rd st' c = rd st c) ->
  rep 0 (l1 ++ m :: l2) fl st'.
Proof.
  intros R Tm G1 G2 G3 G4 G5 G6 G7 Fr. pose proof R as (B & _ & _).
  pose proof (base_bounds _ _ B) as (Q1 & Q2 & Q3 & Q4 & Q5 & Q6).
  assert (Im : In m (l1 ++ m :: l2)) by (apply in_or_app; right; left; reflexivity).
  destruct (base_block _ _ _ B Im) as (F1 & F2 & F3 & F4 & F5 & F6 & F7 & F8 & F9 & Ee & H1 & H2).
  destruct (chain_mid _ _ _ _ _ (base_chain _ _ B)) as (C1 & C2 & _).
  destruct B as [B1 B2 B3 [K1 [K2 [K3 K4]]] B5 B6 B7].
  change (l1 ++ m :: l2) with (l1 ++ [m] ++ l2) in *.
  apply (rep_restructure 0 l1 [m] [m] l2 fl st st' (b_addr m) (b_end m) R);
    try assumption; unfold WSIZE in *; try lia.
  - intros x [<-|[]]. exact Tm.
  - cbn [chain]. pose proof (chain_in _ _ _ _ B3 Im) as (_ & _ & I3 & I4 & I5).
    unfold b_end. repeat split; try assumption; lia.
  - rewrite G7. exact C2.
  - intros c Hc. apply Fr. lia.
  - intros b c Ib Hc. apply Fr. right.
    destruct (chain_in _ _ _ _ C2 Ib) as (I1 & _). lia.
  - rewrite G7, Fr; [exact B6|]. right. unfold b_end in *. lia.
  - intros x [<-|[]]. unfold b_hdr, b_end in *. rewrite !Fr by lia.
    rewrite H1, H2. split; reflexivity.
  - intros x [<-|[]] _. exact Tm.
Qed.

(** A [memset] of the payload of a block stays below the break. *)
Lemma memset_in_block bl st m c n :
  base bl st -> In m bl -> 0 <= n -> n + 2 * WSIZE <= b_size m ->
  memset (b_addr m + WSIZE) c n st
  = Some (set_mem (memset_bytes (mem st) (b_addr m + WSIZE) c n) st).
Proof.
  intros B Im Hn Hs.
  destruct (base_block _ _ _ B Im) as (F1 & F2 & F3 & F4 & _ & _ & _ & _ & _ & Ee & _).
  pose proof (base_bounds _ _ B) as (_ & _ & _ & Q4 & _).
  unfold memset, WSIZE, b_end in *.
  destruct (Z.leb_spec 0 (b_addr m + 8)); [|lia].
  destruct (Z.leb_spec (b_addr m + 8 + n) (brk st)); [|lia].
  reflexivity.
Qed.

(** ** The block list and the walk through memory *)

Lemma blocks_from_chain bl st :
  base bl st ->
  forall fuel l2 l1 s, bl = l1 ++ l2 -> chain l2 s (epilogue st) ->
  blocks_from fuel st s = firstn fuel (map b_addr l2).
Proof.
  intros B. induction fuel as [|fuel IH]; intros l2 l1 s E C; [reflexivity|].
  cbn [blocks_from]. destruct l2 as [|x l2].
  - cbn [chain] in C. subst s. rewrite Z.ltb_irrefl. reflexivity.
  - assert (Ix : In x bl) by (rewrite E; apply in_or_app; right; left; reflexivity).
    pose proof C as C'. cbn [chain] in C'. destruct C' as (Ea & S1 & S2 & S3 & C').
    subst s. pose proof (chain_le _ _ _ C') as L. unfold MINBLOCK, SIZEOF_BLOCK, WSIZE in S1.
    destruct (Z.ltb_spec (b_addr x) (epilogue st)) as [_|]; [|lia].
    cbn [map firstn]. f_equal. rewrite (NEXTRAW_blk _ _ _ B Ix).
    apply (IH l2 (l1 ++ [x])); [rewrite E, <- app_assoc; reflexivity|exact C'].
Qed.

Lemma heap_blocks_rep bl st fuel :
  base bl st -> heap_blocks fuel st = firstn fuel (map b_addr bl).
Proof.
  intros B. unfold heap_blocks.
  apply (blocks_from_chain bl st B fuel bl []); [reflexivity|apply (base_chain _ _ B)].
Qed.

Lemma fuel_enough bl st fuel :
  base bl st -> (length (heap_blocks fuel st) < fuel)%nat -> (length bl < fuel)%nat.
Proof.
  intros B H. rewrite (heap_blocks_rep _ _ _ B), length_firstn, length_map in H. lia.
Qed.

Lemma in_firstn {A : Type} (x : A) : forall n l, In x (firstn n l) -> In x l.
Proof.
  induction n as [|n IH]; intros l H; [destruct H|].
  destruct l as [|y l]; [destruct H|]. cbn [firstn] in H.
  destruct H as [->|H]; [left; reflexivity|right; apply IH; exact H].
Qed.

Lemma no_adj_mid l1 x y l2 :
  no_adj (l1 ++ x :: y :: l2) -> ~ (b_tag x mod 4 = 0 /\ b_tag y mod 4 = 0).
Proof.
  intros N. apply no_adj_app in N. destruct N as (_ & N & _).
  change (no_adj (x :: y :: l2))
    with (~ (b_tag x mod 4 = 0 /\ b_tag y mod 4 = 0) /\ no_adj (y :: l2)) in N.
  tauto.
Qed.

Lemma coalescable_blk bl st b :
  base bl st -> In b bl -> coalescable st (b_addr b) = (b_tag b mod 4 =? 0).
Proof. intros B Ib. unfold coalescable. rewrite (uncoal_blk _ _ _ B Ib). reflexivity. Qed.

(** The description of the heap by the block list agrees with what the
    headers say. *)
Lemma no_adj_no_adjacent_free bl fl st :
  rep 0 bl fl st -> no_adj bl -> no_adjacent_free st.
Proof.
  intros (B & _ & _) N fuel a Ha.
  rewrite (heap_blocks_rep _ _ _ B) in Ha. apply in_firstn in Ha.
  apply in_map_iff in Ha. destruct Ha as (x & <- & Ix).
  destruct (in_split _ _ Ix) as (l1 & l2 & ->).
  unfold adjacent_free. rewrite (coalescable_blk _ _ _ B Ix), (NEXTRAW_blk _ _ _ B Ix).
  destruct (Z.eqb_spec (b_tag x mod 4) 0) as [Tx|]; [|reflexivity]. cbn [andb].
  destruct (chain_mid _ _ _ _ _ (base_chain _ _ B)) as (_ & C2 & _).
  destruct l2 as [|y l2].
  - cbn [chain] in C2. rewrite C2. unfold coalescable. rewrite land_3, (base_epi _ _ B).
    reflexivity.
  - assert (Iy : In y (l1 ++ x :: y :: l2)).
    { apply in_or_app. right. right. left. reflexivity. }
    cbn [chain] in C2. destruct C2 as (Ey & _). rewrite <- Ey.
    rewrite (coalescable_blk _ _ _ B Iy).
    destruct (Z.eqb_spec (b_tag y mod 4) 0) as [Ty|]; [|reflexivity].
    exfalso. apply (no_adj_mid _ _ _ _ N). tauto.
Qed.

Lemma unborn_no_adjacent_free st : unborn st -> no_adjacent_free st.
Proof.
  intros (_ & Hp & He & _) fuel b Hb. unfold heap_blocks in Hb.
  destruct fuel as [|fuel]; [destruct Hb|]. cbn [blocks_from] in Hb.
  rewrite Hp, He in Hb. cbn in Hb. destruct Hb.
Qed.

Lemma tidy_no_adjacent_free st : tidy st -> no_adjacent_free st.
Proof.
  intros [U|(bl & fl & R & N)].
  - apply unborn_no_adjacent_free. exact U.
  - apply (no_adj_no_adjacent_free _ _ _ R N).
Qed.

(** A state has one block list. *)
Lemma chain_unique st : forall l l' s e,
  chain l s e -> chain l' s e ->
  (forall b, In b l -> rd st (b_addr b) = b_hdr b) ->
  (forall b, In b l' -> rd st (b_addr b) = b_hdr b) ->
  l = l'.
Proof.
  induction l as [|x l IH]; intros l' s e C C' H H'.
  - cbn [chain] in C. subst e. destruct l' as [|y l']; [reflexivity|].
    cbn [chain] in C'. destruct C' as (_ & S1 & _ & _ & C').
    apply chain_le in C'. unfold MINBLOCK, SIZEOF_BLOCK, WSIZE in S1. lia.
  - cbn [chain] in C. destruct C as (Ea & S1 & S2 & S3 & C).
    destruct l' as [|y l'].
    + cbn [chain] in C'. subst e. apply chain_le in C.
      unfold MINBLOCK, SIZEOF_BLOCK, WSIZE in S1. lia.
    + cbn [chain] in C'. destruct C' as (Ea' & S1' & S2' & S3' & C').
      pose proof (H x ltac:(left; reflexivity)) as Hx.
      pose proof (H' y ltac:(left; reflexivity)) as Hy.
      unfold b_hdr in *. rewrite Ea in Hx. rewrite Ea' in Hy.
      assert (Es : b_size x = b_size y) by zmod.
      assert (Et : b_tag x = b_tag y) by lia.
      assert (x = y).
      { destruct x, y. cbn in *. subst. reflexivity. }
      subst y. f_equal. apply (IH l' (s + b_size x) e); try assumption.
      * intros b Ib. apply H. right. exact Ib.
      * intros b Ib. apply H'. right. exact Ib.
Qed.

Lemma base_unique bl bl' st : base bl st -> base bl' st -> bl = bl'.
Proof.
  intros B B'.
  apply (chain_unique st bl bl' _ _ (base_chain _ _ B) (base_chain _ _ B')).
  - intros b Ib. apply (base_tags _ _ B b Ib).
  - intros b Ib. apply (base_tags _ _ B' b Ib).
Qed.

(** ** The first call *)

Lemma malloc_init_unborn st :
  unborn st ->
  (fst (malloc_init st) = 0 /\ rep 0 [] (fun _ => []) (snd (malloc_init st)))
  \/ (fst (malloc_init st) < 0 /\ unborn (snd (malloc_init st))).
Proof.
  intros U. pose proof U as (Hi & Hp & He & H0 & Hlo & Hhi).
  destruct (Z.eq_dec (fst (malloc_init st)) 0) as [E|E].
  - left. split; [exact E|]. apply malloc_init_spec; assumption.
  - right. revert E. unfold malloc_init.
    destruct (Z.gtb_spec (init st) 0) as [|_]; [lia|].
    change (WSIZE * LISTCOUNT) with 600.
    assert (Hfail : forall s, unborn s ->
              (-1 <> 0 -> -1 < 0 /\ unborn (set_errno ENOMEM s))).
    { intros s Us _. split; [lia|exact Us]. }
    destruct (sbrk_cases 600 st) as [(_ & L1 & ->)| ->]; [lia| |].
    2:{ rewrite Z.eqb_refl. cbn [fst snd]. apply Hfail.
        unfold unborn in *. cbn. tauto. }
    destruct (brk st =? SBRK_FAILED).
    { cbn [fst snd]. apply Hfail. unfold unborn in *. cbn. lia. }
    set (st1 := set_mem _ _).
    destruct (sbrk_cases 0 st1) as [(_ & _ & ->)| ->]; [lia| |].
    2:{ rewrite Z.eqb_refl. cbn [fst snd]. apply Hfail.
        unfold unborn in *. cbn. lia. }
    destruct (brk st1 =? SBRK_FAILED).
    { cbn [fst snd]. apply Hfail. unfold unborn in *. cbn. lia. }
    change (brk st1) with (brk st + 600). rewrite Z.add_0_r.
    set (x := brk st + 600) in *.
    set (pad := wrap (ALIGN x - x)).
    assert (Hpad : 8 <= pad <= 15).
    { unfold SIZE_MAX in Hhi. unfold pad. rewrite ALIGN_val. unfold wrap. zmod. }
    set (req := ALIGN _).
    assert (Hreq : 0 <= req < 9223372036854775808).
    { unfold req, WSIZE, SIZEOF_BLOCK. rewrite ALIGN_val. unfold wrap. zmod. }
    set (st2 := set_brk _ st1).
    destruct (sbrk_cases req st2) as [(_ & L3 & ->)| ->]; [lia| |].
    2:{ rewrite Z.eqb_refl. cbn [fst snd]. apply Hfail.
        unfold unborn in *. cbn. lia. }
    destruct (brk st2 =? SBRK_FAILED).
    { cbn [fst snd]. apply Hfail. unfold unborn in *. cbn in *. lia. }
    cbn [fst]. intros E. contradiction.
Qed.

Lemma malloc_after_init fuel size st :
  fst (malloc_init st) = 0 -> 0 < init (snd (malloc_init st)) ->
  malloc fuel size st = malloc fuel size (snd (malloc_init st)).
Proof.
  unfold malloc at 1 2. destruct (malloc_init st) as [r st0]. cbn [fst snd].
  intros -> Hi. rewrite (malloc_init_done st0 Hi). reflexivity.
Qed.

(** ** The public operations on a tidy state *)

Lemma malloc_from_tidy fuel size st :
  tidy st -> 0 <= size -> size + 31 < 9223372036854775808 ->
  (length (heap_blocks fuel st) < fuel)%nat ->
  exists r st', malloc fuel size st = Some (r, st')
    /\ ((r = NULL /\ tidy st')
        \/ (exists bl' fl' m, rep 0 bl' fl' st' /\ no_adj bl' /\ In m bl'
              /\ r = b_addr m + WSIZE /\ b_tag m mod 4 = 1
              /\ size + 2 * WSIZE <= b_size m)).
Proof.
  intros T H0 Hs Hlen.
  assert (Hrep : forall bl fl s, rep 0 bl fl s -> no_adj bl -> (length bl < fuel)%nat ->
    exists r st', malloc fuel size s = Some (r, st')
      /\ ((r = NULL /\ tidy st')
          \/ (exists bl' fl' m, rep 0 bl' fl' st' /\ no_adj bl' /\ In m bl'
                /\ r = b_addr m + WSIZE /\ b_tag m mod 4 = 1
                /\ size + 2 * WSIZE <= b_size m))).
  { intros bl fl s R N Hf.
    destruct (malloc_spec fuel size _ _ _ R H0 Hs Hf) as (r & st' & bl' & fl' & E & R' & N' & Hr).
    exists r, st'. split; [exact E|].
    destruct Hr as [(-> & _)|(m & Im & -> & Tm & Sm)].
    - left. split; [reflexivity|]. right. exists bl', fl'. split; [exact R'|apply N'; exact N].
    - right. exists bl', fl', m. split; [exact R'|]. split; [apply N'; exact N|]. tauto. }
  destruct T as [U|(bl & fl & R & N)].
  - destruct (malloc_init_unborn st U) as [(E & R)|(E & U')].
    + rewrite (malloc_after_init fuel size st E (base_init _ _ (proj1 R))).
      apply (Hrep [] (fun _ => [])); [exact R|exact I|cbn [length]; lia].
    + exists NULL, (snd (malloc_init st)). split.
      * unfold malloc. destruct (malloc_init st) as [r st0]. cbn [fst snd] in *.
        destruct (Z.ltb_spec r 0); [reflexivity|lia].
      * left. split; [reflexivity|left; exact U'].
  - apply (Hrep bl fl); [exact R|exact N|]. apply (fuel_enough bl st fuel (proj1 R) Hlen).
Qed.

Lemma calloc_from_tidy fuel nmemb size st :
  tidy st -> 0 <= nmemb -> 0 <= size -> nmemb * size + 31 < 9223372036854775808 ->
  (length (heap_blocks fuel st) < fuel)%nat ->
  exists r st', calloc fuel nmemb size st = Some (r, st') /\ tidy st'.
Proof.
  intros T Hn Hs Ht Hlen.
  assert (H0 : 0 <= nmemb * size) by nia.
  destruct (malloc_from_tidy fuel (nmemb * size) st T H0 Ht Hlen) as (r & st' & E & Hr).
  unfold calloc. rewrite (wrap_small (nmemb * size)) by lia.
  assert (Hov : negb (size =? 0) && (nmemb >? SIZE_MAX / size) = false).
  { destruct (Z.eqb_spec size 0) as [|Hne]; [reflexivity|]. cbn [negb andb].
    destruct (Z.gtb_spec nmemb (SIZE_MAX / size)) as [G|]; [|reflexivity].
    exfalso. assert (SIZE_MAX < size * (SIZE_MAX / size + 1)).
    { pose proof (Z.mul_succ_div_gt SIZE_MAX size ltac:(lia)). lia. }
    unfold SIZE_MAX in *. nia. }
  rewrite Hov, E.
  destruct Hr as [(-> & T')|(bl' & fl' & m & R' & N' & Im & -> & Tm & Sm)].
  - rewrite Z.eqb_refl. exists NULL, st'. split; [reflexivity|exact T'].
  - pose proof R' as (B' & _ & _).
    destruct (base_block _ _ _ B' Im) as (F1 & F2 & F3 & F4 & F5 & F6 & F7 & F8 & F9 & Ee & _).
    rewrite (memset_in_block _ _ _ 0 _ B' Im H0 Sm).
    unfold WSIZE in *.
    destruct (Z.eqb_spec (b_addr m + 8) NULL) as [E0|_]; [unfold NULL in E0; lia|].
    eexists _, _. split; [reflexivity|]. right. exists bl', fl'. split; [|exact N'].
    destruct (in_split _ _ Im) as (l1 & l2 & ->).
    apply (rep_payload l1 m l2 fl' st'); try assumption; try reflexivity.
    intros c Hc. unfold rd. cbn [mem set_mem]. apply load_memset_other.
    unfold b_end in *. lia.
Qed.

Lemma free_from_tidy p st :
  tidy st -> p = NULL \/ live_pointer st p -> tidy (free p st).
Proof.
  intros T [->|(bl & fl & b & R & Ib & Tb & ->)]; [exact T|].
  destruct T as [U|(bl' & fl' & R' & N)].
  - destruct U as (Hi & _). pose proof (base_init _ _ (proj1 R)). lia.
  - pose proof (base_unique _ _ _ (proj1 R') (proj1 R)). subst bl'.
    destruct (free_spec _ _ _ _ R Ib Tb)
      as (l1 & pre & post & l2 & tg & E & H1 & H2 & H3 & H4 & _ & _ & Rf).
    right. eexists _, _. split; [exact Rf|].
    subst bl. apply (free_no_adj l1 pre b post l2); assumption.
Qed.

(** ** The heads of the lists *)

Lemma list_head bl fl st i :
  rep 0 bl fl st -> 0 <= i < LISTCOUNT -> rd st (list_slot st i) = hd NULL (fl i).
Proof.
  intros (B & M & _) Hi. rewrite (list_slot_eq _ _ _ B Hi). apply (lm_heads _ _ M i Hi).
Qed.

(** ** Checks that can be run on a concrete state *)

Lemma booted_heap_ok : heap_ok booted.
Proof.
  exists [], (fun _ => []). apply malloc_init_spec.
  - cbn. lia.
  - cbn. lia.
  - cbn. lia.
  - unfold SIZE_MAX. cbn. lia.
  - vm_compute. reflexivity.
Qed.

Lemma malloc_keeps_heap_ok fuel size st :
  heap_ok st -> 0 <= size -> size + 31 < 9223372036854775808 ->
  (length (heap_blocks fuel st) < fuel)%nat ->
  returned (malloc fuel size st) = true /\ heap_ok (state_of (malloc fuel size st)).
Proof.
  intros (bl & fl & R) H0 Hs Hlen. apply (fuel_enough bl st fuel (proj1 R)) in Hlen.
  destruct (malloc_spec fuel size _ _ _ R H0 Hs Hlen) as (r & st' & bl' & fl' & E & R' & _).
  rewrite E. cbn [returned state_of]. split; [reflexivity|]. exists bl', fl'. exact R'.
Qed.

Lemma live_pointer_check fuel p st :
  heap_ok st -> In (p - WSIZE) (heap_blocks fuel st) -> ISALLOC st (p - WSIZE) = 1 ->
  live_pointer st p.
Proof.
  intros (bl & fl & R) Hin Ha. pose proof R as (B & _ & P).
  rewrite (heap_blocks_rep _ _ _ B) in Hin. apply in_firstn in Hin.
  apply in_map_iff in Hin. destruct Hin as (b & Eb & Ib).
  rewrite <- Eb in Ha. rewrite (ISALLOC_blk _ _ _ B Ib) in Ha.
  destruct (lp_free _ _ _ P b Ib (block_addr_pos _ _ _ B Ib)) as [T _].
  destruct (base_block _ _ _ B Ib) as (_ & _ & _ & _ & _ & _ & _ & _ & F9 & _).
  exists bl, fl, b. split; [exact R|]. split; [exact Ib|]. split; [zmod|]. lia.
Qed.

Lemma free_keeps_heap_ok p st : live_pointer st p -> heap_ok (free p st).
Proof.
  intros (bl & fl & b & R & Ib & Tb & ->).
  destruct (free_spec _ _ _ _ R Ib Tb)
    as (l1 & pre & post & l2 & tg & _ & _ & _ & _ & _ & _ & _ & Rf).
  eexists _, _. exact Rf.
Qed.

(** ** Failures of [malloc], for requests of any size *)

Lemma extend_heap_cases n st :
  brk st <> SBRK_FAILED ->
  extend_heap n st = (NULL, set_errno ENOMEM st)
  \/ fst (extend_heap n st) = epilogue st.
Proof.
  intros Hb. unfold extend_heap, sbrk.
  destruct (_ && _).
  - right. destruct (Z.eqb_spec (brk st) SBRK_FAILED) as [|_]; [contradiction|]. reflexivity.
  - left. reflexivity.
Qed.

Lemma malloc_finish_result found_block size st :
  fst (malloc_finish found_block size st) = BLOCKTOUSER found_block.
Proof. reflexivity. Qed.

Lemma malloc_block_total fuel size bl fl st :
  rep 0 bl fl st -> 32 <= size < 18446744073709551616 -> size mod 8 = 0 ->
  (length bl < fuel)%nat ->
  exists r st', malloc_block fuel size st = Some (r, st')
    /\ (r = NULL -> errno st' = ENOMEM /\ heap_ok st').
Proof.
  intros R Hs Hs8 Hlen.
  destruct (find_block_spec fuel size _ _ _ R Hs Hs8 Hlen)
    as (r & st1 & bl1 & fl1 & Ef & R1 & _ & Hr).
  unfold malloc_block. rewrite Ef. pose proof R1 as (B1 & _ & P1).
  pose proof (base_bounds _ _ B1) as (Q1 & Q2 & Q3 & Q4 & Q5 & Q6).
  assert (Hbrk : brk st1 <> SBRK_FAILED).
  { destruct B1 as [_ _ _ [K1 [K2 [K3 K4]]] _ _ _]. unfold SBRK_FAILED. lia. }
  assert (Hfin : forall x s0 s1, 0 <= x -> x + 8 < 18446744073709551616 ->
            exists r st', Some (malloc_finish x s0 s1) = Some (r, st')
              /\ (r = NULL -> errno st' = ENOMEM /\ heap_ok st')).
  { intros x s0 s1 X1 X2. destruct (malloc_finish x s0 s1) as [r' st'] eqn:E.
    exists r', st'. split; [reflexivity|]. intros ->.
    pose proof (malloc_finish_result x s0 s1) as F. rewrite E in F. cbn [fst] in F.
    unfold BLOCKTOUSER, WSIZE in F. rewrite wrap_small in F by lia. unfold NULL in F. lia. }
  assert (Hext : forall n (k : Z -> state -> option (Z * state)),
            (forall st2, exists r st', k (epilogue st1) st2 = Some (r, st')
               /\ (r = NULL -> errno st' = ENOMEM /\ heap_ok st')) ->
            exists r st',
              (let '(r0, st2) := extend_heap n st1 in
               if r0 =? NULL then Some (NULL, st2) else k r0 st2) = Some (r, st')
              /\ (r = NULL -> errno st' = ENOMEM /\ heap_ok st')).
  { intros n k Hk. destruct (extend_heap_cases n st1 Hbrk) as [E|E].
    - rewrite E, Z.eqb_refl. exists NULL, (set_errno ENOMEM st1).
      split; [reflexivity|]. intros _. split; [reflexivity|].
      exists bl1, fl1. apply rep_set_errno. exact R1.
    - destruct (extend_heap n st1) as [r0 st2]. cbn [fst] in E. subst r0.
      destruct (Z.eqb_spec (epilogue st1) NULL) as [E0|_]; [unfold NULL in E0; lia|].
      apply Hk. }
  destruct Hr as [(-> & _ & _)|(l1 & m & l2 & -> & -> & Sm & _)].
  - rewrite Z.eqb_refl.
    destruct (ISALLOC st1 (PREVRAW st1 (epilogue st1)) =? 0) eqn:Ea.
    + (* the last block is free *)
      destruct (PREV_epilogue _ _ B1) as [Hnil Hlast].
      assert (Hbl : exists l1 b, bl1 = l1 ++ [b]).
      { destruct bl1 as [|x l]; [rewrite (Hnil eq_refl) in Ea; discriminate Ea|].
        destruct (exists_last (l := x :: l) ltac:(discriminate)) as (l' & y & ->).
        exists l', y. reflexivity. }
      destruct Hbl as (l1 & b & ->). rewrite (Hlast l1 b eq_refl).
      assert (Ib : In b (l1 ++ [b])) by (apply in_or_app; right; left; reflexivity).
      destruct (base_block _ _ _ B1 Ib) as (_ & _ & F3 & F4 & _ & _ & F7 & _ & _ & Ee & _).
      unfold b_end in *.
      apply (Hext _ (fun r0 st2 =>
               Some (malloc_finish (b_addr b) size
                       (SETSIZE (b_addr b) size (free_list_remove (b_addr b) st2))))).
      intros st2. apply Hfin; lia.
    + apply (Hext _ (fun r0 st2 => Some (malloc_finish r0 size st2))).
      intros st2. apply Hfin; lia.
  - assert (Im : In m (l1 ++ m :: l2)) by (apply in_or_app; right; left; reflexivity).
    pose proof (block_addr_pos _ _ _ B1 Im) as Hnn.
    destruct (Z.eqb_spec (b_addr m) NULL) as [E|_]; [unfold NULL in E; contradiction|].
    destruct (base_block _ _ _ B1 Im) as (_ & _ & F3 & F4 & _ & _ & F7 & _ & _ & Ee & _).
    unfold b_end in *. apply Hfin; lia.
Qed.

Lemma malloc_total fuel size bl fl st :
  rep 0 bl fl st -> 0 <= size < 18446744073709551616 -> (length bl < fuel)%nat ->
  exists r st', malloc fuel size st = Some (r, st')
    /\ (r = NULL -> (size = 0 \/ errno st' = ENOMEM) /\ heap_ok st').
Proof.
  intros R Hs Hlen. pose proof R as (B & _ & _).
  unfold malloc. rewrite (malloc_init_done _ (base_init _ _ B)). cbn [Z.ltb Z.compare].
  destruct (Z.eqb_spec size 0) as [->|Hne].
  - exists NULL, st. split; [reflexivity|]. intros _. split; [left; reflexivity|].
    exists bl, fl. exact R.
  - destruct (Z.gtb_spec size (ALIGN (BLOCKSIZE size))) as [Hov|Hfit].
    + exists NULL, (set_errno ENOMEM st). split; [reflexivity|]. intros _.
      split; [right; reflexivity|]. exists bl, fl. apply rep_set_errno. exact R.
    + assert (Hal : 32 <= ALIGN (BLOCKSIZE size) < 18446744073709551616
                    /\ ALIGN (BLOCKSIZE size) mod 8 = 0).
      { revert Hfit. rewrite ALIGN_val. unfold BLOCKSIZE, DSIZE, WSIZE, wrap. zmod. }
      destruct (malloc_block_total fuel _ _ _ _ R (proj1 Hal) (proj2 Hal) Hlen)
        as (r & st' & E & Hr).
      exists r, st'. split; [exact E|]. intros Hn. destruct (Hr Hn) as [H1 H2].
      split; [right; exact H1|exact H2].
Qed.

(** ** [realloc] *)

(** The loop of [realloc] merges the block with its free neighbours until
    there are none left. *)
Lemma coalesce_loop_spec : forall fuel bl fl st b,
  rep 0 bl fl st -> In b bl -> b_tag b mod 4 = 1 -> (length bl < fuel)%nat ->
  exists st' bl' fl' m,
    coalesce_loop fuel (b_addr b) st = Some (b_addr m, st')
    /\ rep 0 bl' fl' st' /\ In m bl' /\ b_tag m mod 4 = 1
    /\ (length bl' <= length bl)%nat.
Proof.
  induction fuel as [|fuel IH]; intros bl fl st b R Ib Tb Hlen; [lia|].
  pose proof R as (B & _ & _).
  cbn [coalesce_loop]. rewrite (SIZE_blk _ _ _ B Ib).
  destruct (neighbours _ _ _ _ R Ib) as (l1 & pre & post & l2 & E & H1 & H2 & H3 & H4).
  subst bl.
  destruct (coalesce_spec _ _ _ _ _ _ _ R H1 H2 H3 H4) as (stc & Ec & Hc).
  rewrite Ec.
  destruct Hc as [(-> & -> & ->)|(Hne & tg & T1 & T2 & R1)].
  - cbn [app hd] in *. rewrite (SIZE_blk _ _ _ B Ib).
    destruct (Z.gtb_spec (b_size b) (b_size b)) as [|_]; [lia|].
    exists st, (l1 ++ b :: l2), fl, b.
    split; [reflexivity|]. split; [exact R|]. split; [exact Ib|]. split; [exact Tb|lia].
  - set (m := mkBlk (b_addr (hd b pre)) (sizes (pre ++ b :: post)) tg) in *.
    assert (Im : In m (l1 ++ m :: l2)) by (apply in_or_app; right; left; reflexivity).
    pose proof R1 as (B1 & _ & _).
    change (b_addr (hd b pre)) with (b_addr m). rewrite (SIZE_blk _ _ _ B1 Im).
    assert (Hgrow : b_size b < b_size m).
    { assert (Hsz : forall x, In x (pre ++ post) -> 32 <= b_size x).
      { intros x Hx. apply (base_block _ _ _ B).
        apply in_app_or in Hx. apply in_or_app. right.
        destruct Hx as [Hx|Hx]; [apply in_or_app; left; exact Hx|].
        apply in_or_app. right. right. apply in_or_app. left. exact Hx. }
      change (b_size m) with (sizes (pre ++ b :: post)).
      destruct H1 as [->|(p & -> & _)]; destruct H2 as [->|(q & -> & _)];
        unfold sizes; cbn [app fold_right] in *.
      - contradiction.
      - specialize (Hsz q ltac:(left; reflexivity)). lia.
      - specialize (Hsz p ltac:(left; reflexivity)). lia.
      - pose proof (Hsz p ltac:(left; reflexivity)).
        pose proof (Hsz q ltac:(right; left; reflexivity)). lia. }
    destruct (Z.gtb_spec (b_size m) (b_size b)) as [_|]; [|lia].
    assert (Hshort : (length (l1 ++ m :: l2) < length (l1 ++ pre ++ b :: post ++ l2))%nat).
    { rewrite !length_app. cbn [length]. rewrite !length_app.
      assert (length (pre ++ post) <> 0)%nat.
      { intros L. apply length_zero_iff_nil in L. contradiction. }
      rewrite length_app in H. lia. }
    destruct (IH _ _ _ m R1 Im T2 ltac:(lia)) as (st' & bl' & fl' & m' & E' & R' & Im' & Tm' & L').
    exists st', bl', fl', m'. split; [exact E'|]. split; [exact R'|].
    split; [exact Im'|]. split; [exact Tm'|lia].
Qed.

Lemma BLOCKTOUSER_blk bl st b :
  base bl st -> In b bl -> BLOCKTOUSER (b_addr b) = b_addr b + WSIZE /\ BLOCKTOUSER (b_addr b) <> NULL.
Proof.
  intros B Ib.
  destruct (base_block _ _ _ B Ib) as (F1 & F2 & F3 & F4 & F5 & F6 & F7 & F8 & F9 & Ee & _).
  unfold BLOCKTOUSER, WSIZE, NULL, b_end in *. rewrite wrap_small by lia. lia.
Qed.

(** ** The calls return *)


(** ** The example heaps are well formed *)

Lemma two_blocks_heap_ok : heap_ok two_blocks.
Proof.
  unfold two_blocks.
  destruct (malloc_keeps_heap_ok 5 100 booted booted_heap_ok ltac:(lia) ltac:(lia))
    as [X1 H1]; [vm_compute; lia|].
  destruct (malloc 5 100 booted) as [[p st1]|] eqn:E1; [|discriminate X1].
  cbn [state_of and_then] in *.
  assert (Es : st1 = state_of (malloc 5 100 booted)) by (rewrite E1; reflexivity).
  apply malloc_keeps_heap_ok; try lia; [exact H1|]. rewrite Es. vm_compute. lia.
Qed.

Lemma first_block_freed_heap_ok : heap_ok first_block_freed.
Proof.
  apply free_keeps_heap_ok.
  apply (live_pointer_check 5); [exact two_blocks_heap_ok| |]; vm_compute; tauto.
Qed.

Lemma free_block_sorted_heap_ok : heap_ok free_block_sorted.
Proof.
  unfold free_block_sorted.
  apply malloc_keeps_heap_ok; try lia; [exact first_block_freed_heap_ok|].
  vm_compute. lia.
Qed.

(** ** Pointers, boundary tags and the walk through memory *)

(** In a well-formed heap the footer of a block repeats its header. *)
Lemma heap_ok_footer fuel st b :
  heap_ok st -> In b (heap_blocks fuel st) -> rd st (GETFTR st b) = rd st b.
Proof.
  intros (bl & fl & (B & _)) Hin.
  rewrite (heap_blocks_rep _ _ _ B) in Hin. apply in_firstn in Hin.
  apply in_map_iff in Hin. destruct Hin as (x & <- & Ix).
  destruct (base_block _ _ _ B Ix) as (F1 & F2 & F3 & F4 & F5 & F6 & F7 & F8 & F9 & Ee & H1 & H2).
  unfold GETFTR. rewrite (SIZE_blk _ _ _ B Ix). unfold WSIZE, b_end in *.
  rewrite wrap_small by lia. rewrite H1, H2. reflexivity.
Qed.

(** A live pointer is met by the walk from the prologue to the epilogue. *)
Lemma live_pointer_walk fuel st p :
  live_pointer st p -> (length (heap_blocks fuel st) < fuel)%nat ->
  In (p - WSIZE) (heap_blocks fuel st) /\ ISALLOC st (p - WSIZE) = 1.
Proof.
  intros (bl & fl & b & R & Ib & Tb & ->) Hlen. pose proof R as (B & _).
  pose proof (fuel_enough _ _ _ B Hlen) as Hf.
  replace (b_addr b + WSIZE - WSIZE) with (b_addr b) by lia.
  split.
  - rewrite (heap_blocks_rep _ _ _ B), firstn_all2 by (rewrite length_map; lia).
    apply in_map. exact Ib.
  - rewrite (ISALLOC_blk _ _ _ B Ib).
    destruct (base_block _ _ _ B Ib) as (_ & _ & _ & _ & _ & _ & _ & _ & F9 & _). zmod.
Qed.

(** ** The example heaps have no two adjacent free blocks *)

Lemma malloc_keeps_tidy fuel size st :
  tidy st -> 0 <= size -> size + 31 < 9223372036854775808 ->
  (length (heap_blocks fuel st) < fuel)%nat ->
  returned (malloc fuel size st) = true /\ tidy (state_of (malloc fuel size st)).
Proof.
  intros T H0 Hs Hlen.
  destruct (malloc_from_tidy fuel size st T H0 Hs Hlen) as (r & st' & E & Hr).
  rewrite E. cbn [returned state_of]. split; [reflexivity|].
  destruct Hr as [(_ & T')|(bl' & fl' & m & R' & N' & _)]; [exact T'|].
  right. exists bl', fl'. split; assumption.
Qed.

Lemma booted_tidy : tidy booted.
Proof.
  right. exists [], (fun _ => []). split; [|exact I]. apply malloc_init_spec.
  - cbn. lia.
  - cbn. lia.
  - cbn. lia.
  - unfold SIZE_MAX. cbn. lia.
  - vm_compute. reflexivity.
Qed.

Lemma two_blocks_tidy : tidy two_blocks.
Proof.
  unfold two_blocks.
  destruct (malloc_keeps_tidy 5 100 booted booted_tidy ltac:(lia) ltac:(lia))
    as [X1 H1]; [vm_compute; lia|].
  destruct (malloc 5 100 booted) as [[p st1]|] eqn:E1; [|discriminate X1].
  cbn [state_of and_then] in *.
  assert (Es : st1 = state_of (malloc 5 100 booted)) by (rewrite E1; reflexivity).
  apply malloc_keeps_tidy; try lia; [exact H1|]. rewrite Es. vm_compute. lia.
Qed.

Lemma tidy_initialised st : tidy st -> 0 < init st -> heap_coalesced st.
Proof.
  intros [(Hi & _)|H] Hpos; [lia|exact H].
Qed.

Lemma first_block_freed_coalesced : heap_coalesced first_block_freed.
Proof.
  apply tidy_initialised; [|vm_compute; reflexivity].
  apply free_from_tidy; [exact two_blocks_tidy|]. right.
  apply (live_pointer_check 5); [exact two_blocks_heap_ok| |]; vm_compute; tauto.
Qed.

Lemma first_block_freed_live : live_pointer first_block_freed 4848.
Proof.
  apply (live_pointer_check 5); [exact first_block_freed_heap_ok| |]; vm_compute; tauto.
Qed.

(** ** The rounding of the request sizes *)

(** [spec_align n] is the least multiple of the alignment from [n] on. *)
Lemma spec_align_least n :
  n <= spec_align n /\ spec_align n mod ALIGNMENT = 0
  /\ forall k, n <= k -> k mod ALIGNMENT = 0 -> spec_align n <= k.
Proof.
  unfold spec_align. change ALIGNMENT with 16. change (16 - 1) with 15.
  split; [zmod|]. split; [zmod|]. intros k Hk Hm. zmod.
Qed.

(** [ALIGN] gives the rounding of the specification, or eight bytes more. *)
Lemma ALIGN_spec_align n :
  0 <= n -> n + 15 < 18446744073709551616 ->
  ALIGN n = spec_align n + (if (n + 15) mod 16 <? 8 then 0 else 8).
Proof.
  intros H0 Hn. rewrite ALIGN_val, wrap_small by lia.
  unfold spec_align. change ALIGNMENT with 16. change (16 - 1) with 15.
  destruct (Z.ltb_spec ((n + 15) mod 16) 8); zmod.
Qed.

(** The overflow test of [malloc]: a block size below [size + 2 * WSIZE]
    has wrapped, and the request is refused, with no change but [errno]
    (and the lazy initialisation of a first call). *)
Lemma malloc_overflow_refused fuel u st :
  0 < u < 18446744073709551616 -> ALIGN (BLOCKSIZE u) < u + 2 * WSIZE ->
  malloc fuel u st = Some (NULL, set_errno ENOMEM (snd (malloc_init st)))
  /\ (0 < init st -> malloc fuel u st = Some (NULL, set_errno ENOMEM st)).
Proof.
  intros Hu Hov.
  assert (Hz : (u =? 0) = false) by (apply Z.eqb_neq; lia).
  apply ALIGN_overflow in Hov; [|exact Hu].
  assert (E : malloc fuel u st = Some (NULL, set_errno ENOMEM (snd (malloc_init st)))).
  { unfold malloc. pose proof (malloc_init_failed_errno st) as Hf.
    destruct (malloc_init st) as [r st1]. cbn [fst snd] in *.
    destruct (Z.ltb_spec r 0).
    - rewrite <- Hf by assumption. reflexivity.
    - rewrite Hz. destruct (Z.gtb_spec u (ALIGN (BLOCKSIZE u))); [reflexivity|lia]. }
  split; [exact E|]. intros Hi. rewrite E, malloc_init_done by exact Hi. reflexivity.
Qed.

(** ** [calloc] on a well-formed heap *)





(** ** [realloc] on a live pointer *)

(** [realloc] returns on a live pointer; when it returns null for a request
    other than zero, [errno] is [ENOMEM] and the heap is well formed. *)
Lemma realloc_returns fuel p u st :
  live_pointer st p -> 0 < u < 18446744073709551616 ->
  (length (heap_blocks fuel st) < fuel)%nat ->
  exists r st', realloc fuel p u st = Some (r, st')
    /\ (r = NULL -> errno st' = ENOMEM /\ heap_ok st').
Proof.
  intros (bl & fl & b & R & Ib & Tb & ->) Hu Hlen. pose proof R as (B & _ & _).
  apply (fuel_enough bl st fuel B) in Hlen.
  unfold realloc.
  destruct (BLOCKTOUSER_blk _ _ _ B Ib) as [Eu Hnn]. rewrite <- Eu.
  destruct (Z.eqb_spec (BLOCKTOUSER (b_addr b)) NULL) as [|_]; [contradiction|].
  destruct (Z.eqb_spec u 0) as [|_]; [lia|]. cbv zeta.
  rewrite Eu, (USERTOBLOCK_payload _ _ _ B Ib).
  set (s := ALIGN (BLOCKSIZE u)).
  assert (Hs : 0 <= s < 18446744073709551616).
  { unfold s. rewrite ALIGN_val. pose proof (wrap_range (BLOCKSIZE u + 15)). zmod. }
  assert (Hloop : exists st1 bl1 fl1 m,
    (if s >? SIZE st (b_addr b) then coalesce_loop fuel (b_addr b) st
     else Some (b_addr b, st)) = Some (b_addr m, st1)
    /\ rep 0 bl1 fl1 st1 /\ In m bl1 /\ (length bl1 <= length bl)%nat).
  { destruct (s >? SIZE st (b_addr b)).
    - destruct (coalesce_loop_spec fuel _ _ _ b R Ib Tb Hlen)
        as (st1 & bl1 & fl1 & m & E & R1 & Im & _ & L).
      exists st1, bl1, fl1, m. tauto.
    - exists st, bl, fl, b. split; [reflexivity|]. split; [exact R|]. split; [exact Ib|lia]. }
  destruct Hloop as (st1 & bl1 & fl1 & m & -> & R1 & Im & L1).
  pose proof R1 as (B1 & _ & _).
  destruct (BLOCKTOUSER_blk _ _ _ B1 Im) as [_ Hm].
  rewrite (SIZE_blk _ _ _ B1 Im).
  destruct (Z.ltb_spec (b_size m) s) as [Hsmall|Hfits].
  - destruct (NEXTRAW st1 (b_addr m) =? epilogue st1).
    + (* last block: the heap is extended *)
      assert (Hbrk : brk st1 <> SBRK_FAILED).
      { destruct B1 as [_ _ _ [K1 [K2 [K3 K4]]] _ _ _]. unfold SBRK_FAILED. lia. }
      destruct (extend_heap_cases (wrap (s - b_size m)) st1 Hbrk) as [E|E].
      * rewrite E, Z.eqb_refl. exists NULL, (set_errno ENOMEM st1).
        split; [reflexivity|]. intros _. split; [reflexivity|].
        exists bl1, fl1. apply rep_set_errno. exact R1.
      * destruct (extend_heap (wrap (s - b_size m)) st1) as [r0 st2]. cbn [fst] in E.
        subst r0. pose proof (base_bounds _ _ B1) as (Q1 & Q2 & Q3 & _).
        destruct (Z.eqb_spec (epilogue st1) NULL) as [E0|_]; [unfold NULL in E0; lia|].
        unfold realloc_moved. eexists _, _. split; [reflexivity|].
        intros Hn. contradiction.
    + (* the block has to move *)
      destruct (malloc_total fuel s _ _ _ R1 Hs ltac:(lia)) as (new & st2 & E & Hr).
      rewrite E. destruct (Z.eqb_spec new NULL) as [->|Hne].
      * exists NULL, (set_errno ENOMEM st2). split; [reflexivity|]. intros _.
        split; [reflexivity|]. destruct (Hr eq_refl) as [_ (bl2 & fl2 & R2)].
        exists bl2, fl2. apply rep_set_errno. exact R2.
      * unfold realloc_moved. eexists _, _. split; [reflexivity|].
        intros Hn. contradiction.
  - eexists _, _. split; [reflexivity|]. intros Hn. contradiction.
Qed.

(** * The claims of the specification *)

(** ** C1: alignment of the pointers returned *)

(** C1, evaluated on the code: from a page-aligned break, the requests
    [malloc(1)], [malloc(9)], [malloc(1)] return 4720, 4752 and 4792; the
    third pointer is 8 modulo the alignment 16, because [ALIGN] masks with
    [~0x7] and gives the second block the size 40. *)
Theorem malloc_pointer_not_double_word_aligned :
  holds (and_then (malloc 1 1 boot) (fun p1 st1 =>
         and_then (malloc 1 9 st1) (fun p2 st2 =>
         and_then (malloc 1 1 st2) (fun p3 _ =>
           Some (p1 = 4720 /\ p2 = 4752 /\ p3 = 4792 /\ p3 <> NULL
                 /\ p3 mod ALIGNMENT = 8
                 /\ ALIGN (BLOCKSIZE 9) mod ALIGNMENT = 8))))).
Proof. vm_compute. repeat split; discriminate. Qed.

(** ** C2: a failing [realloc] *)

(** C2, evaluated on the code.  The heap holds a free block at 4712 and,
    behind it, the allocated block of the live pointer 4848.  The call
    [realloc(4848, 100000)] asks for more than the system allows: it returns
    null with [ENOMEM], but before it fails it has merged the caller's block
    with the free block before it.  The heap is left with one allocated
    block of 256 bytes at 4712; the free block has left the unsorted list;
    no block starts at 4840 any more, so 4848 is not the payload pointer of
    a block, although the fourteen words of the payload are unchanged.  The
    caller still owns that pointer and cannot give it back:
    [free(4848)] reads the old header at 4840, writes a footer for it at
    4960 and puts 4840 on the unsorted list, so the block at 4712 has the
    header 257 and the footer 128, and the heap is not well formed.  (The
    comment in [realloc] expects that merging is what [free] would do
    anyway.) *)
Theorem realloc_failure_leaves_pointer_dangling :
  live_pointer first_block_freed 4848
  /\ heap_blocks 5 first_block_freed = [4712; 4840]
  /\ map (rd first_block_freed) [4712; 4840; 4960] = [128; 129; 129]
  /\ rd first_block_freed (list_slot first_block_freed 0) = 4712
  /\ returned failed_growth = true
  /\ value_of failed_growth = NULL
  /\ errno (state_of failed_growth) = ENOMEM
  /\ heap_blocks 5 (state_of failed_growth) = [4712]
  /\ map (rd (state_of failed_growth)) [4712; 4840; 4960] = [257; 129; 257]
  /\ rd (state_of failed_growth) (list_slot (state_of failed_growth) 0) = NULL
  /\ ~ live_pointer (state_of failed_growth) 4848
  /\ map (rd (state_of failed_growth)) (map (fun k => 4848 + 8 * k) (seq_Z 14))
     = map (rd first_block_freed) (map (fun k => 4848 + 8 * k) (seq_Z 14))
  /\ heap_blocks 5 freed_after_failure = [4712]
  /\ map (rd freed_after_failure) [4712; 4840; 4960] = [257; 128; 128]
  /\ rd freed_after_failure (list_slot freed_after_failure 0) = 4840
  /\ ~ heap_ok freed_after_failure.
Proof.
  split; [exact first_block_freed_live|].
  do 9 (split; [vm_compute; reflexivity|]).
  split.
  { intros L. apply (live_pointer_walk 5) in L; [|vm_compute; lia].
    destruct L as [L _]. vm_compute in L. intuition discriminate. }
  do 4 (split; [vm_compute; reflexivity|]).
  intros H. pose proof (heap_ok_footer 5 _ 4712 H) as F.
  assert (E : rd freed_after_failure (GETFTR freed_after_failure 4712)
              =? rd freed_after_failure 4712 = false) by (vm_compute; reflexivity).
  rewrite F in E; [|vm_compute; tauto]. rewrite Z.eqb_refl in E. discriminate E.
Qed.

(** ** C3: [realloc] to size zero *)

(** C3, evaluated on the code: [realloc(p, 0)] on a live pointer does not
    return null; it falls through after [free(p)], takes the block off the
    unsorted list again and returns [p], allocated. *)
Theorem realloc_zero_returns_the_pointer :
  holds (and_then (malloc 1 1 boot) (fun p st1 =>
         and_then (realloc 1 p 0 st1) (fun q st2 =>
           Some (p = 4720 /\ q = p /\ q <> NULL
                 /\ ISALLOC st2 (USERTOBLOCK p) = 1
                 /\ rd st2 (list_slot st2 0) = NULL)))).
Proof. vm_compute. repeat split; discriminate. Qed.

(** ** C4: the size classes of the large lists *)

(** C4 as stated fails: the size 1024 lies in [2^(0+10), 2^(0+11)), the
    range the claim gives to index 63, but the code sends it to index 64;
    and the last index is reached from [2^20] on, not from [2^22]. *)
Lemma find_list_index_1024_not_63 :
  2 ^ (0 + 10) <= 1024 < 2 ^ (0 + 11) /\ find_list_index 1024 <> 63 + 0
  /\ 2 ^ 20 < 2 ^ 22 /\ find_list_index (2 ^ 20) = LISTCOUNT - 1.
Proof. vm_compute. repeat split; discriminate. Qed.

(** C4, amended: for a block size [s >= 512], [find_list_index s] is
    [min (63 + k) 74], where [k] is the one-indexed position of the highest
    set bit of [s >> 10] ([0] when [s < 1024]).  So index 63 holds exactly
    the sizes below [2^10], index [63 + k] exactly the sizes in
    [[2^(k+9), 2^(k+10))] for [k] from 1 to 10, and the last index, 74,
    every size from [2^20] on. *)
Theorem find_list_index_large_classes s :
  512 <= s < 18446744073709551616 ->
  find_list_index s = Z.min (63 + bit_length (Z.shiftr s 10)) (LISTCOUNT - 1)
  /\ (find_list_index s = 63 <-> s < 2 ^ 10)
  /\ (forall k, 1 <= k <= 10 ->
        (find_list_index s = 63 + k <-> 2 ^ (k + 9) <= s < 2 ^ (k + 10)))
  /\ (find_list_index s = LISTCOUNT - 1 <-> 2 ^ 20 <= s).
Proof.
  intros Hs. split; [apply find_list_index_large; exact Hs|].
  rewrite find_list_index_large by exact Hs. change (LISTCOUNT - 1) with 74.
  set (t := Z.shiftr s 10).
  assert (Ht : 0 <= t).
  { unfold t. rewrite Z.shiftr_div_pow2 by lia. apply Z.div_pos; lia. }
  pose proof (bit_length_nonneg t) as Hn.
  assert (Hz : bit_length t = 0 <-> s < 2 ^ 10).
  { unfold bit_length. destruct (Z.eqb_spec t 0) as [E|E].
    - split; [intros _|reflexivity]. unfold t in E.
      rewrite Z.shiftr_div_pow2 in E by lia.
      pose proof (Z.div_mod s (2 ^ 10)). pose proof (Z.mod_pos_bound s (2 ^ 10)). lia.
    - pose proof (Z.log2_nonneg t). split; [lia|]. intros Hlt. exfalso. apply E.
      unfold t. rewrite Z.shiftr_div_pow2 by lia. apply Z.div_small. lia. }
  assert (Hk : forall k, 1 <= k -> (bit_length t = k <-> 2 ^ (k + 9) <= s < 2 ^ (k + 10))).
  { intros k Hk. rewrite <- (shiftr10_bounds s k) by lia. fold t. split.
    - intros E. assert (0 < t).
      { destruct (Z.eq_dec t 0) as [E0|]; [|lia]. rewrite E0 in E. cbn in E. lia. }
      rewrite <- E. apply bit_length_bounds. lia.
    - apply bit_length_unique. lia. }
  split; [|split].
  - rewrite <- Hz. lia.
  - intros k Hk'. rewrite <- (Hk k) by lia. lia.
  - split.
    + intros E. assert (11 <= bit_length t) by lia.
      destruct (Z.lt_ge_cases s (2 ^ 20)) as [Hlt|]; [|lia]. exfalso.
      assert (Hpos : 0 < t).
      { destruct (Z.eq_dec t 0) as [E0|]; [|lia]. rewrite E0 in H. cbn in H. lia. }
      pose proof (bit_length_bounds t Hpos) as [Hlo _].
      assert (2 ^ 10 <= 2 ^ (bit_length t - 1)) by (apply Z.pow_le_mono_r; lia).
      assert (Et : t = s / 2 ^ 10) by (unfold t; apply Z.shiftr_div_pow2; lia).
      assert (s / 2 ^ 10 < 2 ^ 10) by (apply Z.div_lt_upper_bound; [lia|]; rewrite <- Z.pow_add_r by lia; exact Hlt).
      lia.
    + intros Hge. enough (11 <= bit_length t) by lia.
      destruct (Z.lt_ge_cases (bit_length t) 11) as [Hlt|]; [|lia]. exfalso.
      destruct (Z.eq_dec (bit_length t) 0) as [E0|E0].
      * apply Hz in E0. lia.
      * pose proof (proj1 (Hk (bit_length t) ltac:(lia)) eq_refl) as [_ Hhi].
        assert (2 ^ (bit_length t + 10) <= 2 ^ 20) by (apply Z.pow_le_mono_r; lia).
        lia.
Qed.

Lemma find_list_index_large_classes_witness :
  find_list_index 4096 = Z.min (63 + bit_length (Z.shiftr 4096 10)) (LISTCOUNT - 1)
  /\ (find_list_index 4096 = 63 + 3 <-> 2 ^ (3 + 9) <= 4096 < 2 ^ (3 + 10)).
Proof.
  pose proof (find_list_index_large_classes 4096 ltac:(lia)) as [H1 [_ [H3 _]]].
  split; [exact H1|]. apply H3. lia.
Defined.

(** ** C5: adjacent free blocks *)

(** C5 as stated fails for [realloc]: shrinking a block in place splits it
    and puts the remainder on the unsorted list without merging it, so the
    remainder (at 4752) lies next to the free block behind it (at 4840).
    Before the call the heap had no two adjacent free blocks. *)
Lemma realloc_shrink_leaves_adjacent_free_blocks :
  heap_blocks 5 second_block_freed = [4712; 4840]
  /\ map (adjacent_free second_block_freed) [4712; 4840] = [false; false]
  /\ returned shrink_first_block = true
  /\ value_of shrink_first_block = 4720
  /\ heap_blocks 5 (state_of shrink_first_block) = [4712; 4752; 4840]
  /\ adjacent_free (state_of shrink_first_block) 4752 = true
  /\ ~ no_adjacent_free (state_of shrink_first_block).
Proof.
  do 6 (split; [vm_compute; reflexivity|]).
  intros H. specialize (H 5%nat 4752).
  assert (E : adjacent_free (state_of shrink_first_block) 4752 = true)
    by (vm_compute; reflexivity).
  rewrite H in E; [discriminate E|]. vm_compute. tauto.
Qed.

(** C5, amended: [malloc], [calloc] and [free] keep the heap free of
    adjacent free coalescable blocks.  The state is either that of a process
    that has not called the allocator yet, or a well-formed heap without two
    adjacent free blocks; [free] is given null or a live pointer; the
    requests are below [2^63 - 31] bytes (larger ones can reach [sbrk] as
    negative increments).  Each operation returns, given more iterations
    for its loops than the heap has blocks, and leaves a state of the same
    kind, in which no block met from the prologue to the epilogue is free
    and coalescable together with the block behind it.  [realloc] is left
    out: it does not keep the property. *)
Theorem malloc_calloc_free_keep_free_blocks_apart st :
  tidy st ->
  (forall fuel size, 0 <= size -> size + 31 < 9223372036854775808 ->
     (length (heap_blocks fuel st) < fuel)%nat ->
     exists r st', malloc fuel size st = Some (r, st')
       /\ tidy st' /\ no_adjacent_free st')
  /\ (forall fuel nmemb size, 0 <= nmemb -> 0 <= size ->
       nmemb * size + 31 < 9223372036854775808 ->
       (length (heap_blocks fuel st) < fuel)%nat ->
       exists r st', calloc fuel nmemb size st = Some (r, st')
         /\ tidy st' /\ no_adjacent_free st')
  /\ (forall p, p = NULL \/ live_pointer st p ->
        tidy (free p st) /\ no_adjacent_free (free p st)).
Proof.
  intros T. split; [|split].
  - intros fuel size H0 Hs Hlen.
    destruct (malloc_from_tidy fuel size st T H0 Hs Hlen) as (r & st' & E & Hr).
    exists r, st'. split; [exact E|].
    assert (T' : tidy st').
    { destruct Hr as [(_ & T')|(bl' & fl' & m & R' & N' & _)]; [exact T'|].
      right. exists bl', fl'. split; assumption. }
    split; [exact T'|apply tidy_no_adjacent_free; exact T'].
  - intros fuel nmemb size Hn Hs Ht Hlen.
    destruct (calloc_from_tidy fuel nmemb size st T Hn Hs Ht Hlen) as (r & st' & E & T').
    exists r, st'. split; [exact E|]. split; [exact T'|].
    apply tidy_no_adjacent_free. exact T'.
  - intros p Hp. pose proof (free_from_tidy p st T Hp) as T'.
    split; [exact T'|apply tidy_no_adjacent_free; exact T'].
Qed.

(** The bound on the requests is needed: [malloc(2^64 - 32)] passes the
    overflow test of [malloc]; its block size, [2^64 - 8], reaches [sbrk] as
    the increment [-8]; the break moves down and the epilogue moves onto the
    footer of the last block. *)
Lemma malloc_huge_request_moves_break_down :
  returned (malloc 5 (SIZE_MAX - 31) two_blocks) = true
  /\ value_of (malloc 5 (SIZE_MAX - 31) two_blocks) <> NULL
  /\ brk (state_of (malloc 5 (SIZE_MAX - 31) two_blocks)) = brk two_blocks - 8
  /\ epilogue (state_of (malloc 5 (SIZE_MAX - 31) two_blocks)) = epilogue two_blocks - 8.
Proof. vm_compute. repeat split; discriminate. Qed.

(** The theorem on a heap with a free block (at 4712) next to the
    allocated block of the live pointer 4848: [malloc] and [calloc] search
    the unsorted list, which holds the free block, and [free(4848)] merges
    the two blocks into one free block. *)
Lemma malloc_calloc_free_keep_free_blocks_apart_witness :
  heap_coalesced first_block_freed
  /\ heap_blocks 5 first_block_freed = [4712; 4840]
  /\ map (coalescable first_block_freed) [4712; 4840] = [true; false]
  /\ live_pointer first_block_freed 4848
  /\ (exists r st', malloc 5 100 first_block_freed = Some (r, st')
        /\ tidy st' /\ no_adjacent_free st')
  /\ (exists r st', calloc 5 3 5 first_block_freed = Some (r, st')
        /\ tidy st' /\ no_adjacent_free st')
  /\ tidy (free 4848 first_block_freed)
  /\ no_adjacent_free (free 4848 first_block_freed)
  /\ heap_blocks 5 (free 4848 first_block_freed) = [4712]
  /\ coalescable (free 4848 first_block_freed) 4712 = true.
Proof.
  split; [exact first_block_freed_coalesced|].
  split; [vm_compute; reflexivity|].
  split; [vm_compute; reflexivity|].
  split; [exact first_block_freed_live|].
  destruct (malloc_calloc_free_keep_free_blocks_apart first_block_freed
              (or_intror first_block_freed_coalesced)) as (H1 & H2 & H3).
  split; [apply H1; [lia|lia|vm_compute; lia]|].
  split; [apply H2; [lia|lia|lia|vm_compute; lia]|].
  destruct (H3 4848 (or_intror first_block_freed_live)) as [T N].
  split; [exact T|]. split; [exact N|].
  split; vm_compute; reflexivity.
Defined.

(** ** C6: [malloc(0)] *)

(** C6 as stated fails on the first call: [malloc(0)] initialises the
    allocator, which moves the break, and it returns null without setting
    the error indicator. *)
Lemma malloc_zero_first_call_grows_heap :
  holds (and_then (malloc 1 0 boot) (fun p st =>
           Some (p = NULL /\ errno st <> ENOMEM /\ brk boot < brk st))).
Proof. vm_compute. repeat split; discriminate. Qed.

(** C6, amended: [malloc(0)] returns null after the lazy initialisation and
    does nothing else; in an initialised allocator the whole state (break,
    free lists, memory, error indicator) is unchanged, and the error
    indicator is left as it was whenever the initialisation succeeds. *)
Theorem malloc_zero fuel st :
  malloc fuel 0 st = Some (NULL, snd (malloc_init st))
  /\ (0 < init st -> malloc fuel 0 st = Some (NULL, st))
  /\ (fst (malloc_init st) = 0 -> errno (snd (malloc_init st)) = errno st).
Proof.
  assert (E : malloc fuel 0 st = Some (NULL, snd (malloc_init st))).
  { unfold malloc. destruct (malloc_init st) as [r st1]. cbn [snd].
    destruct (r <? 0); reflexivity. }
  split; [exact E|split].
  - intros H. rewrite E, malloc_init_done by exact H. reflexivity.
  - intros H. destruct (malloc_init_result st) as [[_ H1]|[H1 _]]; [exact H1|lia].
Qed.

Lemma malloc_zero_witness :
  malloc 1 0 booted = Some (NULL, booted)
  /\ errno (snd (malloc_init boot)) = errno boot.
Proof.
  split.
  - apply (proj1 (proj2 (malloc_zero 1 booted))). vm_compute. reflexivity.
  - apply (proj2 (proj2 (malloc_zero 1 boot))). vm_compute. reflexivity.
Defined.

(** ** C7: the block found by the search *)

(** C7: on a well-formed heap, for a request of block size [size] (a
    multiple of eight, at least the minimum block size), [find_block]
    returns, given more iterations than the heap has blocks, null or a
    block of size at least [size].  For [size <= MAXSMALL] the scan of the lists, started at
    [find_list_index size], returns the head of the first non-empty list
    from that index on, and null when all of them are empty; it does not
    read the size of that head, which is nevertheless at least [size],
    because a list other than the unsorted one only holds blocks of its
    class (this is part of [rep]). *)
Theorem find_block_fits fuel size st :
  heap_ok st -> 32 <= size < 18446744073709551616 -> size mod 8 = 0 ->
  (length (heap_blocks fuel st) < fuel)%nat ->
  (exists r st', find_block fuel size st = Some (r, st')
     /\ (r = NULL \/ size <= SIZE st' r))
  /\ (size <= MAXSMALL ->
      exists r,
        scan_lists (Z.to_nat (LISTCOUNT - find_list_index size)) fuel st
                   (find_list_index size) size = Some r
        /\ ((r = NULL
             /\ forall j, find_list_index size <= j < LISTCOUNT ->
                  rd st (list_slot st j) = NULL)
            \/ (exists i, find_list_index size <= i < LISTCOUNT
                  /\ (forall j, find_list_index size <= j < i ->
                        rd st (list_slot st j) = NULL)
                  /\ r = rd st (list_slot st i) /\ r <> NULL
                  /\ size <= SIZE st r))).
Proof.
  intros (bl & fl & R) Hs Hs8 Hlen.
  apply (fuel_enough bl st fuel (proj1 R)) in Hlen. split.
  - destruct (find_block_spec fuel size _ _ _ R Hs Hs8 Hlen)
      as (r & st' & bl' & fl' & E & R' & _ & Hr).
    exists r, st'. split; [exact E|].
    destruct Hr as [(-> & _)|(l1 & m & l2 & -> & -> & Sm & _)]; [left; reflexivity|].
    right. destruct R' as (B' & _).
    rewrite (SIZE_blk _ _ _ B'); [exact Sm|]. apply in_or_app. right. left. reflexivity.
  - intros Hsm. pose proof (find_list_index_range size Hs) as Hidx.
    pose proof R as (B & _ & P).
    destruct (scan_lists_spec _ _ _ size fuel R ltac:(lia) Hs8 Hlen
                (Z.to_nat (LISTCOUNT - find_list_index size)) (find_list_index size))
      as (r & Er & Hr); try lia.
    exists r. split; [exact Er|].
    destruct Hr as [(-> & _ & A)|(i & b & I1 & I2 & I3 & I4 & I5 & I6 & I7)].
    + left. split; [reflexivity|]. intros j Hj.
      rewrite (list_head _ _ _ j R) by lia. rewrite (A Hsm j Hj). reflexivity.
    + right. exists i. destruct (I7 Hsm) as [J1 J2]. split; [exact I1|].
      split; [|split; [|split]].
      * intros j Hj. rewrite (list_head _ _ _ j R) by lia. rewrite (J2 j Hj). reflexivity.
      * rewrite (list_head _ _ _ i R) by lia. exact J1.
      * apply (listed_nonnull _ _ _ _ i r B P); [lia|exact I4].
      * rewrite <- I3, (SIZE_blk _ _ _ B I2). exact I6.
Qed.

Lemma find_block_fits_witness :
  heap_ok free_block_sorted
  /\ (exists r st', find_block 5 32 free_block_sorted = Some (r, st')
        /\ (r = NULL \/ 32 <= SIZE st' r))
  /\ (exists r,
        scan_lists (Z.to_nat (LISTCOUNT - find_list_index 32)) 5 free_block_sorted
                   (find_list_index 32) 32 = Some r
        /\ ((r = NULL
             /\ forall j, find_list_index 32 <= j < LISTCOUNT ->
                  rd free_block_sorted (list_slot free_block_sorted j) = NULL)
            \/ (exists i, find_list_index 32 <= i < LISTCOUNT
                  /\ (forall j, find_list_index 32 <= j < i ->
                        rd free_block_sorted (list_slot free_block_sorted j) = NULL)
                  /\ r = rd free_block_sorted (list_slot free_block_sorted i)
                  /\ r <> NULL
                  /\ 32 <= SIZE free_block_sorted r))).
Proof.
  split; [exact free_block_sorted_heap_ok|].
  destruct (find_block_fits 5 32 free_block_sorted free_block_sorted_heap_ok
              ltac:(lia) ltac:(reflexivity) ltac:(vm_compute; lia)) as [H1 H2].
  split; [exact H1|]. apply H2. unfold MAXSMALL. lia.
Defined.

(** ** C8: the block size of a request *)

(** C8, evaluated on the code.  The block size of a request is
    [ALIGN(BLOCKSIZE(size))], and [ALIGN] masks with [~0x7]: it rounds
    [size + 2 * WSIZE + 15] down to a multiple of eight, not of the
    alignment sixteen.  For [malloc(9)] the specification asks for
    [align(9 + 2 * W) = 32]; the code computes 40, which is 8 modulo 16, and
    the block it takes from the system has that size: the break moves by 40
    and the header of the block says 40.  (The other half of the claim
    holds: see [malloc_overflow_refused].) *)
Theorem malloc_block_size_not_rounded_to_alignment :
  spec_align (9 + 2 * WSIZE) = 32
  /\ ALIGN (BLOCKSIZE 9) = 40
  /\ ALIGN (BLOCKSIZE 9) mod ALIGNMENT = 8
  /\ holds (and_then (malloc 1 9 booted) (fun p st =>
       Some (p = 4720 /\ p <> NULL
             /\ SIZE st (USERTOBLOCK p) = 40
             /\ brk st = brk booted + 40))).
Proof. vm_compute. repeat split; discriminate. Qed.

(** ** C9: [calloc] *)




(** ** C10: monotonicity of the list index *)

(** C10: [find_list_index] is monotone: a larger block size never maps to
    a smaller list index.  This holds for all the sizes a [size_t] can hold,
    so in particular for the multiples of the alignment from the minimum
    block size on. *)
Theorem find_list_index_monotone s1 s2 :
  0 <= s1 -> s1 <= s2 -> s2 < 18446744073709551616 ->
  find_list_index s1 <= find_list_index s2.
Proof.
  intros H0 H12 H2.
  destruct (Z.lt_ge_cases s1 512) as [L1|L1];
    destruct (Z.lt_ge_cases s2 512) as [L2|L2]; try lia.
  - apply find_list_index_le_small; lia.
  - apply find_list_index_le_across; lia.
  - apply find_list_index_le_large; lia.
Qed.

Lemma find_list_index_monotone_witness :
  find_list_index 48 <= find_list_index 4096.
Proof. apply find_list_index_monotone; lia. Defined.
